(** * Job-portal server: ranking and query-interpretation core

    A shallow embedding of [recommendationService] (src/unnamed/part_000)
    and [groqService] (src/unnamed/part_002), with the properties the
    specification states about them.

    JavaScript strings are sequences of UTF-16 code units; dynamic values
    are a sum type; the scores the ranking adds and compares are IEEE 754
    binary64 numbers; exceptions are an explicit [outcome]; the
    asynchronous functions run in a small monad that also records the
    calls they make to their collaborators. *)

From Stdlib Require Import ZArith QArith Lqa Ascii String Permutation Sorted.
From Stdlib Require Import SpecFloat.
From stdpp Require Import gmap strings list fin_maps.

Local Open Scope Z_scope.
Set Warnings "-register-all".

(* ===================================================================== *)
(** ** JavaScript strings *)
(* ===================================================================== *)

Module Js.

(** A UTF-16 code unit. *)
Definition char16 := N.

Definition jsstring := list char16.

(** Writes an ASCII literal as a [jsstring]. *)
Definition js (s : string) : jsstring :=
  map N_of_ascii (list_ascii_of_string s).

(** The class [\w] of a non-unicode regular expression: [A-Za-z0-9_]. *)
Definition isWordChar (c : char16) : bool :=
  ((48 <=? c) && (c <=? 57) || (65 <=? c) && (c <=? 90) ||
   (c =? 95) || (97 <=? c) && (c <=? 122))%N.

(** The class [\s]: WhiteSpace and LineTerminator code units. It is also
    the set [String.prototype.trim] strips. *)
Definition isSpaceChar (c : char16) : bool :=
  ((9 <=? c) && (c <=? 13) || (c =? 32) || (c =? 160) || (c =? 5760) ||
   (8192 <=? c) && (c <=? 8202) || (c =? 8232) || (c =? 8233) ||
   (c =? 8239) || (c =? 8287) || (c =? 12288) || (c =? 65279))%N.

Definition SPACE : char16 := 32%N.

(** [s.trim()] *)
Fixpoint trimStart (s : jsstring) : jsstring :=
  match s with
  | c :: s' => if isSpaceChar c then trimStart s' else s
  | [] => []
  end.

Definition trim (s : jsstring) : jsstring :=
  reverse (trimStart (reverse (trimStart s))).

(** [parts.join(' ')] on an array of strings. *)
Fixpoint join_space (parts : list jsstring) : jsstring :=
  match parts with
  | [] => []
  | [p] => p
  | p :: ps => p ++ SPACE :: join_space ps
  end.

(** [s.replace(/[^\w\s]/g, ' ')]: every code unit that is neither a word
    character nor white space becomes a space. *)
Definition replace_nonword_nonspace (s : jsstring) : jsstring :=
  map (fun c => if isWordChar c || isSpaceChar c then c else SPACE) s.

(** [s.split(/\s+/)]: [cur] is the piece being read (reversed), [in_sep]
    tells that the previous code unit belonged to a separator.  A
    separator at either end of the string leaves an empty piece there, and
    the empty string splits into one empty piece. *)
Fixpoint split_ws_from (cur : jsstring) (in_sep : bool) (s : jsstring)
  : list jsstring :=
  match s with
  | [] => [reverse cur]
  | c :: s' =>
      if isSpaceChar c
      then if in_sep then split_ws_from [] true s'
           else reverse cur :: split_ws_from [] true s'
      else split_ws_from (c :: cur) false s'
  end.

Definition split_ws (s : jsstring) : list jsstring := split_ws_from [] false s.

(** A [Set] of strings: its elements in insertion order. *)
Definition JsSet := list jsstring.

Definition Set_has (s : JsSet) (x : jsstring) : bool := bool_decide (x ∈ s).

Definition Set_add (s : JsSet) (x : jsstring) : JsSet :=
  if Set_has s x then s else s ++ [x].

(** [new Set(iterable)] *)
Definition Set_new (l : list jsstring) : JsSet := foldl Set_add [] l.

End Js.
Export Js.

(* ===================================================================== *)
(** ** Numbers *)
(* ===================================================================== *)

(** The numbers the scorer computes with: IEEE 754 binary64, with the
    operations of the standard library's specification of floating-point
    arithmetic (round to nearest, ties to even). *)
Module Number.

Definition prec : Z := 53.
Definition emax : Z := 1024.

Definition number : Type := spec_float.

(** [0] *)
Definition zero : number := S754_zero false.

(** [x + y] *)
Definition add (x y : number) : number := SFadd prec emax x y.

(** [x - y] *)
Definition sub (x y : number) : number := SFsub prec emax x y.

(** [x * y] *)
Definition mul (x y : number) : number := SFmul prec emax x y.

(** [x < y], [x <= y] and [x == y]; all three are false on NaN. *)
Definition lt (x y : number) : bool := SFltb x y.
Definition le (x y : number) : bool := SFleb x y.
Definition eqb (x y : number) : bool := SFeqb x y.

(** The integer [n] as a number. *)
Definition ofNat (n : nat) : number :=
  binary_normalize prec emax (Z.of_nat n) 0 false.

(** Whether the mantissa and the exponent are those of a binary64
    number. *)
Definition isDouble (x : number) : bool := valid_binary prec emax x.

(** The numbers that are [+0], positive, or [+Infinity]. *)
Definition nonNegative (x : number) : bool :=
  match x with
  | S754_zero false | S754_infinity false => true
  | S754_finite false m e => bounded prec emax m e
  | _ => false
  end.

(** The value of such a number, counted in units of [2 ^ -1074], the
    least positive number; [+Infinity] counts as [2 ^ 2098], which is
    above every finite one. *)
Definition units (x : number) : Z :=
  match x with
  | S754_finite _ m e => Zpos m * 2 ^ (e + 1074)
  | S754_infinity _ => 2 ^ 2098
  | _ => 0
  end.

(** What [Array.prototype.sort] reads in the number its comparator
    returns: its sign, NaN counting as 0. *)
Definition sortSign (v : number) : Q :=
  match v with
  | S754_finite s _ _ | S754_infinity s => if s then (-1)%Q else 1%Q
  | _ => 0%Q
  end.

End Number.

(* ===================================================================== *)
(** ** Dynamic values, exceptions, and the run-time the code relies on *)
(* ===================================================================== *)

Module Runtime.

(** A JavaScript value, as far as this code can meet one: what
    [JSON.parse] produces, [undefined], a [RegExp] object, and [Native]
    for a member inherited from [Object.prototype].  The numbers of
    such data are exact rationals. *)
Inductive value : Type :=
| Undefined
| Null
| Bool (b : bool)
| Num (q : Q)
| Str (s : jsstring)
| Arr (items : list value)
| Obj (props : list (jsstring * value))
| RegExpObj (pattern : value) (flags : jsstring)
| Native (name : jsstring).

(** ToBoolean. *)
Definition truthy (v : value) : bool :=
  match v with
  | Undefined | Null => false
  | Bool b => b
  | Num q => negb (Qeq_bool q 0)
  | Str s => negb (bool_decide (s = []))
  | _ => true
  end.

(** [a || b] *)
Definition or_else (a b : value) : value := if truthy a then a else b.

(** Own property of an object literal; a later binding of the same key
    overrides an earlier one. *)
Fixpoint own_prop (props : list (jsstring * value)) (key : jsstring)
  : option value :=
  match props with
  | [] => None
  | (k, v) :: rest =>
      match own_prop rest key with
      | Some v' => Some v'
      | None => if bool_decide (k = key) then Some v else None
      end
  end.

Inductive error_kind := PlainError | TypeError | SyntaxError.

(** A thrown value; this code and its collaborators only throw [Error]
    objects, which carry a [message]. *)
Record exn := mkError { kind : error_kind; message : jsstring }.

Inductive outcome (A : Type) : Type :=
| Returns (a : A)
| Throws (e : exn).
Arguments Returns {A} a.
Arguments Throws {A} e.

(** Whether [ToPrimitive] returns on [v], so that [ToString], [ToNumber]
    and [ToPropertyKey] do.  The own properties of an object literal or of
    a parsed object are data: an own [toString] hides the inherited
    function, the inherited [valueOf] gives back the object, and nothing
    primitive is left.  An array converts through [join], which converts
    its elements. *)
Fixpoint hasPrimitive (v : value) : bool :=
  match v with
  | Arr items =>
      (fix all (items : list value) : bool :=
         match items with
         | [] => true
         | item :: rest => hasPrimitive item && all rest
         end) items
  | Obj props => negb (bool_decide (is_Some (own_prop props (js "toString"))))
  | _ => true
  end.

(** The [TypeError] of a conversion that finds no primitive value. *)
Definition noPrimitive : exn :=
  mkError TypeError (js "Cannot convert object to primitive value").

(** Built-ins of the JavaScript engine whose tables are not part of the
    program text. *)
Class Engine := {
  (** [String.prototype.toLowerCase] *)
  toLowerCase : jsstring -> jsstring;
  toLowerCase_empty : toLowerCase [] = [];
  (** [JSON.parse]; it throws a [SyntaxError] on malformed text. *)
  JSON_parse : jsstring -> outcome value;
  (** whether [new RegExp(v, 'i')] accepts the pattern [v] *)
  RegExp_compiles : value -> bool;
  (** ToString and ToNumber ([None] is NaN) on values that are not
      already a string, respectively a number, and that have a primitive
      value *)
  ToString : value -> jsstring;
  ToNumber : value -> option Q;
  (** the [length] of a member of [Object.prototype] *)
  Native_length : jsstring -> value;
}.

(** The [natural] package. *)
Class Natural := {
  (** [new natural.WordTokenizer().tokenize(text)] *)
  WordTokenizer_tokenize : jsstring -> option (list jsstring);
  (** [tfidf.tfidf(term, 0)] after [tfidf.addDocument(tokens)] on a fresh
      [TfIdf]: the weight of [term] in the one-document corpus, a
      binary64 number. *)
  TfIdf_tfidf : list jsstring -> jsstring -> Number.number;
  TfIdf_double : forall tokens term,
    Number.isDouble (TfIdf_tfidf tokens term) = true;
}.

(** What a call does besides computing its result. *)
Inductive event :=
| EvFindUser (userId : jsstring)
| EvFindActiveJobs
| EvOpenAIRequest
| EvGroqRequest
| EvScore (jobId : jsstring)
| EvConsoleError.

(** Computations that may throw and that log their calls. *)
Definition M (A : Type) : Type := list event * outcome A.

Definition ret {A} (a : A) : M A := ([], Returns a).
Definition throw {A} (e : exn) : M A := ([], Throws e).
Definition emit (ev : event) : M unit := ([ev], Returns tt).
Definition lift {A} (o : outcome A) : M A := ([], o).

Definition bind {A B} (m : M A) (k : A -> M B) : M B :=
  match m with
  | (t, Returns a) => let '(t', r) := k a in (t ++ t', r)
  | (t, Throws e) => (t, Throws e)
  end.

(** [try { m } catch (e) { handler e }] *)
Definition try_catch {A} (m : M A) (handler : exn -> M A) : M A :=
  match m with
  | (t, Returns a) => (t, Returns a)
  | (t, Throws e) => let '(t', r) := handler e in (t ++ t', r)
  end.

Definition trace {A} (m : M A) : list event := fst m.
Definition result {A} (m : M A) : outcome A := snd m.

End Runtime.
Export Runtime.

Notation "'let!' x ':=' m 'in' k" := (bind m (fun x => k))
  (at level 10, x pattern, m at level 100, k at level 200).
Notation "m ';;' k" := (bind m (fun _ => k))
  (at level 100, k at level 200, right associativity).

(* ===================================================================== *)
(** ** groqService: the keyword extractor *)
(* ===================================================================== *)

Module Keywords.
Section WithEngine.
Context `{Engine}.

(** The stop words listed in [extractKeywords]. *)
Definition stopWords : JsSet :=
  Set_new (map js
    ["the"; "a"; "an"; "and"; "or"; "but"; "in"; "on"; "at"; "to"; "for";
     "of"; "with"; "by"; "is"; "are"; "was"; "were"; "be"; "been"; "being";
     "have"; "has"; "had"; "do"; "does"; "did"; "will"; "would"; "should";
     "could"; "may"; "might"; "must"; "can"; "this"; "that"; "these";
     "those"]%string).

(** The predicate of [.filter(word => word.length > 2 && !stopWords.has(word))]. *)
Definition keepWord (word : jsstring) : bool :=
  (2 <? length word)%nat && negb (Set_has stopWords word).

(** [extractKeywords(text)].  A truthy argument that is not a string has
    no [toLowerCase] method, so the call throws. *)
Definition extractKeywords (text : value) : outcome (list jsstring) :=
  if negb (truthy text) then Returns []
  else match text with
       | Str s =>
           let words :=
             List.filter keepWord
               (split_ws (replace_nonword_nonspace (toLowerCase s))) in
           Returns (Set_new words)
       | _ => Throws (mkError TypeError (js "text.toLowerCase is not a function"))
       end.

(** *** The algorithm as the specification words it *)

(** "strip non-word characters to whitespace" *)
Definition spec_strip_nonword (s : jsstring) : jsstring :=
  map (fun c => if isWordChar c then c else SPACE) s.

(** "split on whitespace": the maximal runs of non-white-space code
    units, in order. *)
Fixpoint spec_words_from (cur : jsstring) (s : jsstring) : list jsstring :=
  match s with
  | [] => match cur with [] => [] | _ => [reverse cur] end
  | c :: s' =>
      if isSpaceChar c
      then match cur with
           | [] => spec_words_from [] s'
           | _ => reverse cur :: spec_words_from [] s'
           end
      else spec_words_from (c :: cur) s'
  end.

Definition spec_split_whitespace (s : jsstring) : list jsstring :=
  spec_words_from [] s.

(** "deduplicate preserving first-seen order" *)
Fixpoint spec_dedup (l : list jsstring) : list jsstring :=
  match l with
  | [] => []
  | x :: r => x :: List.filter (fun y => negb (bool_decide (y = x))) (spec_dedup r)
  end.

Definition spec_extractKeywords (text : jsstring) : list jsstring :=
  let lowered := toLowerCase text in
  let stripped := spec_strip_nonword lowered in
  let tokens := spec_split_whitespace stripped in
  let long := List.filter (fun w => negb (length w <=? 2)%nat) tokens in
  let kept := List.filter (fun w => negb (bool_decide (w ∈ stopWords))) long in
  spec_dedup kept.

End WithEngine.
End Keywords.
Export Keywords.

(* ===================================================================== *)
(** ** Arrays *)
(* ===================================================================== *)

Module JsArray.

Definition Qlt_bool (x y : Q) : bool := negb (Qle_bool y x).

(** [Array.prototype.sort(compare)] is stable; on a comparator that is a
    consistent ordering its result is the one computed here: each element
    goes in front of the first element of the sorted rest it does not
    compare greater than. *)
Fixpoint sort_insert {A} (compare : A -> A -> Q) (x : A) (sorted : list A)
  : list A :=
  match sorted with
  | [] => [x]
  | y :: rest =>
      if Qle_bool (compare x y) 0 then x :: y :: rest
      else y :: sort_insert compare x rest
  end.

Fixpoint Array_sort {A} (compare : A -> A -> Q) (l : list A) : list A :=
  match l with
  | [] => []
  | x :: rest => sort_insert compare x (Array_sort compare rest)
  end.

(** [l.slice(0, end)]: a negative [end] counts from the end of the array. *)
Definition Array_slice0 {A} (l : list A) (end_ : Z) : list A :=
  let len := Z.of_nat (length l) in
  let final := if end_ <? 0 then Z.max (len + end_) 0 else Z.min end_ len in
  take (Z.to_nat final) l.

(** [l.filter(x => x !== undefined)] on the results of [Map.get]. *)
Fixpoint filter_defined {A} (l : list (option A)) : list A :=
  match l with
  | [] => []
  | Some x :: rest => x :: filter_defined rest
  | None :: rest => filter_defined rest
  end.

(** [new Map(entries)]: a later entry replaces an earlier one with the
    same key. *)
Definition Map_new {A} (entries : list (jsstring * A)) : gmap jsstring A :=
  foldl (fun m entry => <[entry.1 := entry.2]> m) ∅ entries.

(** [map.get(key)] on a map whose keys are strings: a key of another type
    is never found. *)
Definition Map_get {A} (m : gmap jsstring A) (key : value) : option A :=
  match key with
  | Str s => m !! s
  | _ => None
  end.

(** [l.map(f)] for a callback that logs what it calls. *)
Fixpoint mapM {A B} (f : A -> M B) (l : list A) : M (list B) :=
  match l with
  | [] => ret []
  | x :: rest =>
      let! y := f x in
      let! ys := mapM f rest in
      ret (y :: ys)
  end.

End JsArray.
Export JsArray.

(* ===================================================================== *)
(** ** recommendationService *)
(* ===================================================================== *)

Module Recommendation.

(** The fields of a [User] document this service reads. *)
Record User := {
  user_skills : option (list jsstring);
  user_resumeKeywords : option (list jsstring);
  user_experience : Q;
}.

(** The fields of a [Job] document this service reads; [_id] is
    [job._id.toString()]. *)
Record Job := {
  _id : jsstring;
  title : jsstring;
  description : option jsstring;
  skills : option (list jsstring);
  requirements : option (list jsstring);
}.

(** The collaborators of [getRecommendations]. *)
Record World := {
  (** [process.env.OPENAI_API_KEY] is set *)
  OPENAI_API_KEY : bool;
  (** [User.findById(userId)] *)
  User_findById : jsstring -> outcome (option User);
  (** [Job.find({ status: 'active' }).populate(...)] *)
  Job_find_active : outcome (list Job);
  (** [openai.chat.completions.create(...)] followed by
      [response.choices[0].message.content]; it throws on a network error
      or on a response of another shape. *)
  openai_chat : User -> list Job -> outcome jsstring;
}.

Section WithRuntime.
Context `{Engine} `{Natural}.

(** The [jobText] of [calculateTFIDFScore]: description, skills and
    requirements joined by spaces, in lower case. *)
Definition jobTextOf (jobDescription : option jsstring)
    (jobSkills jobRequirements : option (list jsstring)) : jsstring :=
  toLowerCase (join_space (default [] jobDescription ::
                           default [] jobSkills ++ default [] jobRequirements)).

(** Its [userText]: skills and keywords joined by spaces, in lower case. *)
Definition userTextOf (userSkills userKeywords : option (list jsstring))
  : jsstring :=
  toLowerCase (join_space (default [] userSkills ++ default [] userKeywords)).

(** [calculateTFIDFScore(userSkills, userKeywords, jobDescription,
    jobSkills, jobRequirements)] *)
Definition calculateTFIDFScore
    (userSkills userKeywords : option (list jsstring))
    (jobDescription : option jsstring)
    (jobSkills jobRequirements : option (list jsstring)) : Number.number :=
  let jobText := jobTextOf jobDescription jobSkills jobRequirements in
  let userText := userTextOf userSkills userKeywords in
  if bool_decide (trim jobText = []) || bool_decide (trim userText = [])
  then Number.zero
  else
    match WordTokenizer_tokenize userText, WordTokenizer_tokenize jobText with
    | Some userTokens, Some jobTokens =>
        if (length userTokens =? 0)%nat || (length jobTokens =? 0)%nat
        then Number.zero
        else
          let userSkillSet := Set_new userTokens in
          foldl (fun score skill =>
                   let tfidfScore := TfIdf_tfidf jobTokens skill in
                   if Number.lt Number.zero tfidfScore
                   then Number.add score tfidfScore
                   else score)
                Number.zero userSkillSet
    | _, _ => Number.zero
    end.

(** *** The scorer as the specification words it *)


(** Building the prompt reads [job.description.substring(0, 200)] of every
    job, which throws when a description is missing. *)
Definition build_prompt (jobs : list Job) : outcome unit :=
  if forallb (fun job => bool_decide (is_Some (description job))) jobs
  then Returns tt
  else Throws (mkError TypeError
                 (js "Cannot read properties of undefined (reading 'substring')")).

(** [getOpenAIRecommendations(user, jobs)] *)
Definition getOpenAIRecommendations (w : World) (user : User) (jobs : list Job)
  : M value :=
  if negb (OPENAI_API_KEY w) then ret Null
  else
    try_catch
      (lift (build_prompt jobs);;
       emit EvOpenAIRequest;;
       let! content := lift (openai_chat w user jobs) in
       let! rankedIds := lift (JSON_parse (trim content)) in
       ret rankedIds)
      (fun error => emit EvConsoleError;; ret Null).

(** The score a job gets for a user in the fallback. *)
Definition scoreOf (user : User) (job : Job) : Number.number :=
  calculateTFIDFScore (user_skills user) (user_resumeKeywords user)
    (description job) (skills job) (requirements job).

(** [(a, b) => b.score - a.score], as the sort reads it *)
Definition byScoreDescending (a b : Job * Number.number) : Q :=
  Number.sortSign (Number.sub b.2 a.2).

(** The fallback of [getRecommendations]: score, sort, take the ids. *)
Definition tfidfRanking (user : User) (jobs : list Job) : M value :=
  let! scoredJobs :=
    mapM (fun job => emit (EvScore (_id job));; ret (job, scoreOf user job))
         jobs in
  let sorted := Array_sort byScoreDescending scoredJobs in
  ret (Arr (map (fun item => Str (_id item.1)) sorted)).

(** The ranked identifiers: the external ranking when it gives a truthy
    value, the fallback otherwise. *)
Definition rankJobIds (w : World) (user : User) (jobs : list Job) : M value :=
  let! rankedJobIds := getOpenAIRecommendations w user jobs in
  if negb (truthy rankedJobIds) then tfidfRanking user jobs
  else ret rankedJobIds.

(** The external ranking is unavailable: no credential is configured, or
    the request fails, or its reply is not JSON. *)
Definition rankingUnavailable (w : World) (user : User) (jobs : list Job)
  : Prop :=
  OPENAI_API_KEY w = false \/
  (exists e, openai_chat w user jobs = Throws e) \/
  (exists content e, openai_chat w user jobs = Returns content /\
                     JSON_parse (trim content) = Throws e).

(** The [jobMap] of [getRecommendations]. *)
Definition jobMapOf (jobs : list Job) : gmap jsstring Job :=
  Map_new (map (fun job => (_id job, job)) jobs).

(** Whether a ranked identifier names a listing of the collection: it is
    the string one of them has as [_id]. *)
Definition inCollection (jobs : list Job) (id : value) : bool :=
  match id with
  | Str s => bool_decide (s ∈ map _id jobs)
  | _ => false
  end.

(** The jobs in the order the fallback ranks them. *)
Definition fallbackOrder (user : User) (jobs : list Job) : list Job :=
  map fst (Array_sort byScoreDescending
             (map (fun job => (job, scoreOf user job)) jobs)).

(** [getRecommendations(userId, limit = 10)] *)
Definition getRecommendations (w : World) (userId : jsstring)
    (limit : option Z) : M (list Job) :=
  let limit := default 10 limit in
  try_catch
    (emit (EvFindUser userId);;
     let! user := lift (User_findById w userId) in
     match user with
     | None => throw (mkError PlainError (js "User not found"))
     | Some user =>
         emit EvFindActiveJobs;;
         let! jobs := lift (Job_find_active w) in
         if (length jobs =? 0)%nat then ret []
         else
           let! rankedJobIds := rankJobIds w user jobs in
           let jobMap := jobMapOf jobs in
           match rankedJobIds with
           | Arr ids =>
               let recommendedJobs :=
                 Array_slice0
                   (filter_defined (map (fun id => Map_get jobMap id) ids))
                   limit in
               ret recommendedJobs
           | _ => throw (mkError TypeError
                           (js "rankedJobIds.map is not a function"))
           end
     end)
    (fun error => emit EvConsoleError;; throw error).

End WithRuntime.
End Recommendation.

(* ===================================================================== *)
(** ** groqService *)
(* ===================================================================== *)

Module Groq.

(** The object returned by [processSearchQuery]; a property the object
    literal does not list reads as [Undefined]. *)
Record Intent := {
  originalQuery : value;
  processedQuery : value;
  keywords : value;
  skills : value;
  jobTitle : value;
  jobLevel : value;
  intent : value;
  searchTerms : value;
  useAI : value;
  error : value;
}.

(** The collaborators of [processSearchQuery]. *)
Record World := {
  (** [process.env.GROQ_API_KEY] is set, so [getGroqClient()] is not null *)
  GROQ_API_KEY : bool;
  (** [groqClient.chat.completions.create(...)] followed by
      [completion.choices[0]?.message?.content]; [None] is a missing
      content. *)
  groq_chat : value -> outcome (option jsstring);
}.

(** *** The two patterns that recover a JSON object from the reply *)

Fixpoint strip_prefix (prefix s : jsstring) : option jsstring :=
  match prefix, s with
  | [], _ => Some s
  | p :: prefix', c :: s' =>
      if bool_decide (p = c) then strip_prefix prefix' s' else None
  | _ :: _, [] => None
  end.

Definition BACKTICKS : jsstring := js "```".
Definition LBRACE : char16 := 123%N.
Definition RBRACE : char16 := 125%N.

(** The longest prefix of [s] that ends in [}] and satisfies [after] on
    what follows it, after [seen] (reversed): the greedy [[\s\S]*\}]. *)
Fixpoint greedy_to_rbrace (after : jsstring -> bool) (seen s : jsstring)
  : option jsstring :=
  match s with
  | [] => None
  | c :: s' =>
      match greedy_to_rbrace after (c :: seen) s' with
      | Some found => Some found
      | None =>
          if bool_decide (c = RBRACE) && after s'
          then Some (reverse (c :: seen)) else None
      end
  end.

(** The group 1 of a match of
    [/```(?:json)?\s*(\{[\s\S]*\})\s*```/] that starts at the head of [s]. *)
Definition fenced_at (s : jsstring) : option jsstring :=
  match strip_prefix BACKTICKS s with
  | None => None
  | Some r =>
      let r := default r (strip_prefix (js "json") r) in
      match trimStart r with
      | c :: body =>
          if bool_decide (c = LBRACE)
          then greedy_to_rbrace
                 (fun rest => bool_decide (is_Some (strip_prefix BACKTICKS (trimStart rest))))
                 [c] body
          else None
      | [] => None
      end
  end.

(** The leftmost match of the fenced pattern. *)
Fixpoint match_fenced (s : jsstring) : option jsstring :=
  match fenced_at s with
  | Some found => Some found
  | None => match s with
            | [] => None
            | _ :: s' => match_fenced s'
            end
  end.

(** Group 1 of the leftmost match of [/(\{[\s\S]*\})/]. *)
Fixpoint match_braces (s : jsstring) : option jsstring :=
  match s with
  | [] => None
  | c :: s' =>
      match (if bool_decide (c = LBRACE)
             then greedy_to_rbrace (fun _ => true) [c] s' else None) with
      | Some found => Some found
      | None => match_braces s'
      end
  end.

(** [responseContent.match(fenced) || responseContent.match(braces)],
    then [jsonMatch[1]] *)
Definition jsonMatch (responseContent : jsstring) : option jsstring :=
  match match_fenced responseContent with
  | Some found => Some found
  | None => match_braces responseContent
  end.

Section WithEngine.
Context `{Engine}.

(** [parsedResponse.key] for the seven keys read below, none of which a
    prototype defines: reading from [null] or [undefined] throws. *)
Definition read_field (parsedResponse : value) (key : string) : outcome value :=
  match parsedResponse with
  | Undefined | Null =>
      Throws (mkError TypeError (js "Cannot read properties of null"))
  | Obj props => Returns (default Undefined (own_prop props (js key)))
  | _ => Returns Undefined
  end.

(** [!searchText || searchText.trim() === ''] *)
Definition is_blank (searchText : value) : outcome bool :=
  if negb (truthy searchText) then Returns true
  else match searchText with
       | Str s => Returns (bool_decide (trim s = []))
       | _ => Throws (mkError TypeError (js "searchText.trim is not a function"))
       end.

Definition keywordArray (words : list jsstring) : value := Arr (map Str words).

(** The intent returned for an empty or blank search text. *)
Definition neutralIntent (searchText : value) : Intent :=
  {| originalQuery := searchText; processedQuery := Str [];
     keywords := Arr []; intent := Str (js "general"); useAI := Bool false;
     skills := Undefined; jobTitle := Undefined; jobLevel := Undefined;
     searchTerms := Undefined; error := Undefined |}.

(** The "direct search" intent of the two fallbacks; [error_] is
    [Undefined] where the object literal has no [error]. *)
Definition directSearchIntent (searchText : value) (extracted : list jsstring)
    (error_ : value) : Intent :=
  {| originalQuery := searchText; processedQuery := searchText;
     keywords := keywordArray extracted; intent := Str (js "general");
     useAI := Bool false; error := error_;
     skills := Undefined; jobTitle := Undefined; jobLevel := Undefined;
     searchTerms := Undefined |}.

(** The request and the parsing of its reply, up to [parsedResponse]. *)
Definition askGroq (w : World) (searchText : value) : M value :=
  emit EvGroqRequest;;
  let! responseContent := lift (groq_chat w searchText) in
  match responseContent with
  | None | Some [] => throw (mkError PlainError (js "No response from Groq"))
  | Some responseContent =>
      try_catch
        (lift (JSON_parse responseContent))
        (fun parseError =>
           match jsonMatch responseContent with
           | Some group1 => lift (JSON_parse group1)
           | None =>
               throw (mkError PlainError
                        (js "Unable to parse JSON from Groq response"))
           end)
  end.

(** The upstream failures: no credential, a failed request, a missing or
    empty content, or a content that is not JSON and from which no JSON
    object can be recovered. *)
Definition upstreamFailed (w : World) (searchText : value) : Prop :=
  GROQ_API_KEY w = false \/
  (exists e, groq_chat w searchText = Throws e) \/
  groq_chat w searchText = Returns None \/
  groq_chat w searchText = Returns (Some []) \/
  (exists content e,
     groq_chat w searchText = Returns (Some content) /\
     JSON_parse content = Throws e /\
     (jsonMatch content = None \/
      exists group1 e', jsonMatch content = Some group1 /\
                        JSON_parse group1 = Throws e')).

(** [processSearchQuery(searchText)] *)
Definition processSearchQuery (w : World) (searchText : value) : M Intent :=
  try_catch
    (let! blank := lift (is_blank searchText) in
     if blank then ret (neutralIntent searchText)
     else if negb (GROQ_API_KEY w) then
       let! extracted := lift (extractKeywords searchText) in
       ret (directSearchIntent searchText extracted Undefined)
     else
       let! parsedResponse := askGroq w searchText in
       let! improvedQuery := lift (read_field parsedResponse "improvedQuery") in
       let! keywords_ := lift (read_field parsedResponse "keywords") in
       let! skills_ := lift (read_field parsedResponse "skills") in
       let! jobTitle_ := lift (read_field parsedResponse "jobTitle") in
       let! jobLevel_ := lift (read_field parsedResponse "jobLevel") in
       let! intent_ := lift (read_field parsedResponse "intent") in
       let! searchTerms_ := lift (read_field parsedResponse "searchTerms") in
       ret {| originalQuery := searchText;
              processedQuery := or_else improvedQuery searchText;
              keywords := or_else keywords_ (Arr []);
              skills := or_else skills_ (Arr []);
              jobTitle := or_else jobTitle_ Null;
              jobLevel := or_else jobLevel_ Null;
              intent := or_else intent_ (Str (js "general"));
              searchTerms := or_else searchTerms_ (Arr []);
              useAI := Bool true;
              error := Undefined |})
    (fun error_ =>
       emit EvConsoleError;;
       let! extracted := lift (extractKeywords searchText) in
       ret (directSearchIntent searchText extracted (Str (message error_)))).

(** *** The query builder *)

(** [{ field: { $regex: pattern, $options: 'i' } }] *)
Definition regexCondition (field : string) (pattern : value) : value :=
  Obj [(js field, Obj [(js "$regex", pattern); (js "$options", Str (js "i"))])].

(** The three conditions on the whole phrase. *)
Definition phraseConditions (processedQuery_ : value) : list value :=
  [regexCondition "title" processedQuery_;
   regexCondition "description" processedQuery_;
   regexCondition "company" processedQuery_].

(** [v > 0] *)
Definition gt_zero (v : value) : outcome bool :=
  match v with
  | Num q => Returns (Qlt_bool 0 q)
  | Undefined | Null => Returns false
  | Bool b => Returns b
  | _ => if hasPrimitive v
         then Returns match ToNumber v with
                      | Some q => Qlt_bool 0 q
                      | None => false
                      end
         else Throws noPrimitive
  end.

(** [v.length > 0] for a truthy [v] *)
Definition length_positive (v : value) : outcome bool :=
  match v with
  | Str s => Returns (0 <? length s)%nat
  | Arr items => Returns (0 <? length items)%nat
  | Obj props => gt_zero (default Undefined (own_prop props (js "length")))
  | Native name => gt_zero (Native_length name)
  | _ => Returns false
  end.

(** [v && v.length > 0] *)
Definition nonEmpty (v : value) : outcome bool :=
  if truthy v then length_positive v else Returns false.

(** [v.forEach(item => conditions.push(...each item))]: only an array has
    a [forEach]. *)
Definition forEach_push (v : value) (each : value -> outcome (list value))
    (conditions : list value) : outcome (list value) :=
  match v with
  | Arr items =>
      foldl (fun acc item =>
               match acc with
               | Returns conds =>
                   match each item with
                   | Returns new => Returns (conds ++ new)
                   | Throws e => Throws e
                   end
               | Throws e => Throws e
               end)
            (Returns conditions) items
  | _ => Throws (mkError TypeError (js "forEach is not a function"))
  end.

(** [if (v && v.length > 0) { v.forEach(item => conditions.push(...)) }] *)
Definition guardedLoop (v : value) (each : value -> outcome (list value))
    (conditions : list value) : outcome (list value) :=
  match nonEmpty v with
  | Throws e => Throws e
  | Returns true => forEach_push v each conditions
  | Returns false => Returns conditions
  end.

(** Whether the guarded loop gets through its guard and finds a
    [forEach] when it needs one: [v] is falsy, or its length compares
    with 0 and is not positive, or [v] is an array. *)
Definition loopable (v : value) : bool :=
  match nonEmpty v with
  | Returns false => true
  | Returns true => match v with Arr _ => true | _ => false end
  | Throws _ => false
  end.

(** [{ skills: { $in: [new RegExp(skill, 'i')] } }] *)
Definition skillCondition (skill : value) : outcome (list value) :=
  if RegExp_compiles skill
  then Returns [Obj [(js "skills",
                      Obj [(js "$in", Arr [RegExpObj skill (js "i")])])]]
  else Throws (mkError SyntaxError (js "Invalid regular expression")).

(** [(existing || []).concat(searchConditions)]: an array is extended, a
    non-empty string is concatenated with the array's text, and no other
    truthy value has a [concat]. *)
Definition or_concat (existing : value) (searchConditions : list value)
  : outcome value :=
  if negb (truthy existing) then Returns (Arr searchConditions)
  else match existing with
       | Arr items => Returns (Arr (items ++ searchConditions))
       | Str s => Returns (Str (s ++ ToString (Arr searchConditions)))
       | _ => Throws (mkError TypeError (js "concat is not a function"))
       end.

(** The names [Object.prototype] defines, which every object literal
    inherits. *)
Definition objectPrototypeMembers : list jsstring :=
  map js ["constructor"; "__defineGetter__"; "__defineSetter__";
          "hasOwnProperty"; "__lookupGetter__"; "__lookupSetter__";
          "isPrototypeOf"; "propertyIsEnumerable"; "toString"; "valueOf";
          "__proto__"; "toLocaleString"]%string.

(** [levelMap[jobLevel]] *)
Definition levelMap : list (jsstring * value) :=
  [(js "entry", Obj [(js "$lte", Num 2)]);
   (js "mid", Obj [(js "$gte", Num 2); (js "$lte", Num 5)]);
   (js "senior", Obj [(js "$gte", Num 5); (js "$lte", Num 10)]);
   (js "executive", Obj [(js "$gte", Num 10)])].

Definition levelMap_get (jobLevel_ : value) : outcome value :=
  let key :=
    match jobLevel_ with
    | Str s => Returns s
    | v => if hasPrimitive v then Returns (ToString v) else Throws noPrimitive
    end in
  match key with
  | Throws e => Throws e
  | Returns key =>
      Returns match own_prop levelMap key with
              | Some range => range
              | None => if bool_decide (key ∈ objectPrototypeMembers)
                        then Native key else Undefined
              end
  end.

(** [buildEnhancedQuery(processedData, existingQuery = {})];
    [processedData] is [None] for [null] or [undefined]. *)
Definition buildEnhancedQuery (processedData : option Intent)
    (existingQuery : gmap jsstring value) : outcome (gmap jsstring value) :=
  let query := existingQuery in
  match processedData with
  | None => Returns query
  | Some processedData =>
      if negb (truthy (useAI processedData)) then
        if truthy (processedQuery processedData)
        then Returns (<[js "$or" := Arr (phraseConditions (processedQuery processedData))]> query)
        else Returns query
      else
        let searchConditions :=
          if truthy (processedQuery processedData)
          then phraseConditions (processedQuery processedData) else [] in
        let after_keywords :=
          guardedLoop (keywords processedData)
            (fun keyword => Returns [regexCondition "title" keyword;
                                     regexCondition "description" keyword])
            searchConditions in
        match after_keywords with
        | Throws e => Throws e
        | Returns searchConditions =>
            let searchConditions :=
              if truthy (jobTitle processedData)
              then searchConditions ++ [regexCondition "title" (jobTitle processedData)]
              else searchConditions in
            let after_skills :=
              guardedLoop (skills processedData) skillCondition
                searchConditions in
            match after_skills with
            | Throws e => Throws e
            | Returns searchConditions =>
                let with_or :=
                  if (0 <? length searchConditions)%nat
                  then match or_concat (default Undefined (query !! js "$or"))
                               searchConditions with
                       | Returns disjuncts => Returns (<[js "$or" := disjuncts]> query)
                       | Throws e => Throws e
                       end
                  else Returns query in
                match with_or with
                | Throws e => Throws e
                | Returns query =>
                    if truthy (jobLevel processedData) then
                      match levelMap_get (jobLevel processedData) with
                      | Throws e => Throws e
                      | Returns range =>
                          if truthy range
                          then Returns (<[js "experience" := range]> query)
                          else Returns query
                      end
                    else Returns query
                end
            end
        end
  end.

(** The seniority table as the specification gives it: inclusive lower
    bound, inclusive upper bound or [None] when there is none. *)
Definition spec_levelRange (level : jsstring) : option (Q * option Q) :=
  if bool_decide (level = js "entry") then Some (0%Q, Some 2%Q)
  else if bool_decide (level = js "mid") then Some (2%Q, Some 5%Q)
  else if bool_decide (level = js "senior") then Some (5%Q, Some 10%Q)
  else if bool_decide (level = js "executive") then Some (10%Q, None)
  else None.

Definition in_range (range : Q * option Q) (x : Q) : bool :=
  Qle_bool range.1 x &&
  match range.2 with Some hi => Qle_bool x hi | None => true end.

(** How the job store reads a range filter on a number: every operator
    of the filter must hold. *)
Definition satisfies_range (range : value) (x : Q) : bool :=
  match range with
  | Obj props =>
      forallb (fun '(op, bound) =>
                 match bound with
                 | Num b =>
                     if bool_decide (op = js "$gte") then Qle_bool b x
                     else if bool_decide (op = js "$lte") then Qle_bool x b
                     else false
                 | _ => false
                 end) props
  | _ => false
  end.

End WithEngine.
End Groq.

(* ===================================================================== *)
(** ** webSearchService *)
(* ===================================================================== *)

(** Global functions of the engine used outside the two services. *)
Class Globals := {
  (** [encodeURIComponent]; it throws a [URIError] on a lone surrogate. *)
  encodeURIComponent : jsstring -> outcome jsstring;
  (** [parseInt] on a value that has a primitive value *)
  parseInt : value -> value;
}.

(** [!text || text.trim() === ''] for a variable called [name]: a truthy
    value that is not a string has no [trim]. *)
Definition blankText (name : string) (text : value) : outcome bool :=
  if negb (truthy text) then Returns true
  else match text with
       | Str s => Returns (bool_decide (trim s = []))
       | _ => Throws (mkError TypeError (js name ++ js ".trim is not a function"))
       end.

Module WebSearch.

Record ExternalLink := {
  title : jsstring;
  url : jsstring;
  description : jsstring;
  source : jsstring;
  relevance : jsstring;
}.

(** An entry of [commonJobSites]. *)
Record JobSite := {
  site_name : jsstring;
  site_url : jsstring;
  site_description : jsstring;
  site_relevance : jsstring;
}.

(** The array [commonJobSites], given [encodeURIComponent(query)]. *)
Definition commonJobSites (encoded : jsstring) : list JobSite :=
  [ {| site_name := js "LinkedIn";
       site_url := js "https://www.linkedin.com/jobs/search/?keywords=" ++ encoded;
       site_description := js "Search for jobs on LinkedIn";
       site_relevance := js "high" |};
    {| site_name := js "Indeed";
       site_url := js "https://www.indeed.com/jobs?q=" ++ encoded;
       site_description := js "Find jobs on Indeed";
       site_relevance := js "high" |};
    {| site_name := js "Glassdoor";
       site_url := js "https://www.glassdoor.com/Job/jobs.htm?sc.keyword=" ++ encoded;
       site_description := js "Job search on Glassdoor";
       site_relevance := js "high" |};
    {| site_name := js "Monster";
       site_url := js "https://www.monster.com/jobs/search/?q=" ++ encoded;
       site_description := js "Job opportunities on Monster";
       site_relevance := js "medium" |};
    {| site_name := js "ZipRecruiter";
       site_url := js "https://www.ziprecruiter.com/jobs-search?search=" ++ encoded;
       site_description := js "Job listings on ZipRecruiter";
       site_relevance := js "medium" |} ].

Section WithGlobals.
Context `{Engine} `{Globals}.

(** [searchExternalLinks(query, maxResults = 5)] *)
Definition searchExternalLinks (query : value) (maxResults : option Z)
  : M (list ExternalLink) :=
  let maxResults := default 5 maxResults in
  try_catch
    (let! blank := lift (blankText "query" query) in
     if blank then ret []
     else
       match query with
       | Str text =>
           let! encoded := lift (encodeURIComponent text) in
           ret (map (fun site =>
                       {| title := text ++ js " - " ++ site_name site;
                          url := site_url site;
                          description := site_description site;
                          source := site_name site;
                          relevance := site_relevance site |})
                    (Array_slice0 (commonJobSites encoded) maxResults))
       | _ => throw (mkError TypeError (js "query.trim is not a function"))
       end)
    (fun error => emit EvConsoleError;; ret []).

(** [searchExternalLinksWithAI(query)] *)
Definition searchExternalLinksWithAI (query : value) : M (list ExternalLink) :=
  try_catch
    (let! basicLinks := searchExternalLinks query (Some 5) in
     ret basicLinks)
    (fun error => emit EvConsoleError;; searchExternalLinks query (Some 5)).

End WithGlobals.
End WebSearch.

(* ===================================================================== *)
(** ** groqService: the lazily created client *)
(* ===================================================================== *)

Module GroqClient.

(** A [Groq] client remembers the key it was created with. *)
Record Client := { apiKey : jsstring }.

(** [getGroqClient()]: [env_key] is [process.env.GROQ_API_KEY], [groq] the
    module variable; the result comes with the new value of [groq]. *)
Definition getGroqClient (env_key : option jsstring) (groq : option Client)
  : option Client * option Client :=
  match env_key with
  | None | Some [] => (None, groq)
  | Some key =>
      match groq with
      | None => let created := {| apiKey := key |} in (Some created, Some created)
      | Some client => (Some client, Some client)
      end
  end.

(** A sequence of calls, one per value of the environment variable. *)
Fixpoint calls (env_keys : list (option jsstring)) (groq : option Client)
  : list (option Client) * option Client :=
  match env_keys with
  | [] => ([], groq)
  | env_key :: rest =>
      let '(client, groq) := getGroqClient env_key groq in
      let '(clients, groq) := calls rest groq in
      (client :: clients, groq)
  end.

End GroqClient.

(* ===================================================================== *)
(** ** utils/validation *)
(* ===================================================================== *)

Module Regex.

(** Regular expressions over code units, matched against a whole string
    as a pattern anchored by [^] and [$] is. *)
Inductive regex : Type :=
| Nothing
| Eps
| Class (p : char16 -> bool)
| Seq (r1 r2 : regex)
| Alt (r1 r2 : regex)
| Star (r : regex).

Definition Plus (r : regex) : regex := Seq r (Star r).
Definition Lit (c : char16) : regex := Class (N.eqb c).

Fixpoint nullable (r : regex) : bool :=
  match r with
  | Nothing => false
  | Eps => true
  | Class _ => false
  | Seq r1 r2 => nullable r1 && nullable r2
  | Alt r1 r2 => nullable r1 || nullable r2
  | Star _ => true
  end.

(** The expression for what may follow the code unit [c]. *)
Fixpoint deriv (c : char16) (r : regex) : regex :=
  match r with
  | Nothing => Nothing
  | Eps => Nothing
  | Class p => if p c then Eps else Nothing
  | Seq r1 r2 =>
      if nullable r1 then Alt (Seq (deriv c r1) r2) (deriv c r2)
      else Seq (deriv c r1) r2
  | Alt r1 r2 => Alt (deriv c r1) (deriv c r2)
  | Star r1 => Seq (deriv c r1) (Star r1)
  end.

(** [/^r$/.test(s)] *)
Definition test (r : regex) (s : jsstring) : bool :=
  nullable (foldl (fun r c => deriv c r) r s).

(** The strings an expression denotes. *)
Inductive matches : regex -> jsstring -> Prop :=
| matches_eps : matches Eps []
| matches_class p c : p c = true -> matches (Class p) [c]
| matches_seq r1 r2 s1 s2 :
    matches r1 s1 -> matches r2 s2 -> matches (Seq r1 r2) (s1 ++ s2)
| matches_alt_l r1 r2 s : matches r1 s -> matches (Alt r1 r2) s
| matches_alt_r r1 r2 s : matches r2 s -> matches (Alt r1 r2) s
| matches_star_nil r : matches (Star r) []
| matches_star_app r s1 s2 :
    matches r s1 -> matches (Star r) s2 -> matches (Star r) (s1 ++ s2).

End Regex.

Module Validation.
Import Regex.

Definition AT : char16 := 64%N.
Definition DOT : char16 := 46%N.

(** The class [[^\s@]]. *)
Definition notSpaceNorAt (c : char16) : bool :=
  negb (isSpaceChar c) && negb (c =? AT)%N.

(** [/^[^\s@]+@[^\s@]+\.[^\s@]+$/] *)
Definition emailRegex : regex :=
  Seq (Plus (Class notSpaceNorAt))
    (Seq (Lit AT)
       (Seq (Plus (Class notSpaceNorAt))
          (Seq (Lit DOT) (Plus (Class notSpaceNorAt))))).

(** The three fields [validateUserInput] reads. *)
Record UserInput := { name : value; email : value; password : value }.

Record ValidationResult := { isValid : bool; errors : list jsstring }.

Section WithEngine.
Context `{Engine}.

(** [validateEmail(email)]: [test] converts its argument to a string. *)
Definition validateEmail (email_ : value) : outcome bool :=
  match email_ with
  | Str s => Returns (test emailRegex s)
  | v => if hasPrimitive v then Returns (test emailRegex (ToString v))
         else Throws noPrimitive
  end.

(** [v >= 6] *)
Definition ge_six (v : value) : outcome bool :=
  match v with
  | Num q => Returns (Qle_bool 6 q)
  | Undefined | Null | Bool _ => Returns false
  | _ => if hasPrimitive v
         then Returns match ToNumber v with
                      | Some q => Qle_bool 6 q
                      | None => false
                      end
         else Throws noPrimitive
  end.

(** [validatePassword(password)], which is [password && password.length >= 6] *)
Definition validatePassword (password_ : value) : outcome value :=
  if negb (truthy password_) then Returns password_
  else
    let long_enough :=
      match password_ with
      | Str s => Returns (6 <=? length s)%nat
      | Arr items => Returns (6 <=? length items)%nat
      | Obj props => ge_six (default Undefined (own_prop props (js "length")))
      | Native n => ge_six (Native_length n)
      | _ => Returns false
      end in
    match long_enough with
    | Returns b => Returns (Bool b)
    | Throws e => Throws e
    end.

(** [!data.name || data.name.trim().length < 2] *)
Definition nameTooShort (name_ : value) : outcome bool :=
  if negb (truthy name_) then Returns true
  else match name_ with
       | Str s => Returns (length (trim s) <? 2)%nat
       | _ => Throws (mkError TypeError (js "data.name.trim is not a function"))
       end.

(** [!data.email || !validateEmail(data.email)] *)
Definition emailRejected (email_ : value) : outcome bool :=
  if negb (truthy email_) then Returns true
  else match validateEmail email_ with
       | Returns accepted => Returns (negb accepted)
       | Throws e => Throws e
       end.

(** [!data.password || !validatePassword(data.password)] *)
Definition passwordRejected (password_ : value) : outcome bool :=
  if negb (truthy password_) then Returns true
  else match validatePassword password_ with
       | Returns verdict => Returns (negb (truthy verdict))
       | Throws e => Throws e
       end.

(** [validateUserInput(data)] *)
Definition validateUserInput (data : UserInput) : outcome ValidationResult :=
  match nameTooShort (name data) with
  | Throws e => Throws e
  | Returns badName =>
      let errors := [] in
      let errors :=
        if badName
        then errors ++ [js "Name must be at least 2 characters long"]
        else errors in
      match emailRejected (email data) with
      | Throws e => Throws e
      | Returns badEmail =>
          let errors :=
            if badEmail
            then errors ++ [js "Valid email is required"]
            else errors in
          match passwordRejected (password data) with
          | Throws e => Throws e
          | Returns badPassword =>
              let errors :=
                if badPassword
                then errors ++ [js "Password must be at least 6 characters long"]
                else errors in
              Returns {| isValid := (length errors =? 0)%nat; errors := errors |}
          end
      end
  end.

End WithEngine.
End Validation.

(* ===================================================================== *)
(** ** routes/jobs: the listing, recommendation and search handlers *)
(* ===================================================================== *)

Module JobsRouter.

(** The query-string parameters the handlers read; [search] is the
    parameter [search] of [GET /] and [q] of [GET /search]. *)
Record Query := {
  search : value;
  location : value;
  skills : value;
  minExperience : value;
  status : value;
}.

Inductive body : Type :=
| Jobs (jobs : list Recommendation.Job)
| Message (message : jsstring)
| SearchRequired
| SearchResults (processedSearch : Groq.Intent)
    (jobs : list Recommendation.Job) (totalResults : nat)
    (externalLinks : list WebSearch.ExternalLink).

(** A response: its status code and its JSON body. *)
Record response := { code : Z; json : body }.

(** The collaborators of the handlers. *)
Record World := {
  groqWorld : Groq.World;
  recommendationWorld : Recommendation.World;
  (** [Job.find(query).populate(...).sort(...)] *)
  Job_find : gmap jsstring value -> outcome (list Recommendation.Job);
  (** the text-understanding request settles before the 2 s timer *)
  groq_in_time : bool;
}.

Definition COMMA : char16 := 44%N.

(** [s.split(',')] *)
Fixpoint split_comma_from (cur : jsstring) (s : jsstring) : list jsstring :=
  match s with
  | [] => [reverse cur]
  | c :: s' =>
      if (c =? COMMA)%N then reverse cur :: split_comma_from [] s'
      else split_comma_from (c :: cur) s'
  end.

Definition split_comma (s : jsstring) : list jsstring := split_comma_from [] s.

(** [{ $regex: pattern, $options: 'i' }] *)
Definition regexMatch (pattern : value) : value :=
  Obj [(js "$regex", pattern); (js "$options", Str (js "i"))].

(** [query.status = status ? status : 'active'] on a fresh object *)
Definition statusQuery (p : Query) : gmap jsstring value :=
  <[js "status" := if truthy (status p) then status p else Str (js "active")]> ∅.

(** [Object.assign(target, source)] *)
Definition Object_assign (target source : gmap jsstring value)
  : gmap jsstring value := source ∪ target.

Section WithRuntime.
Context `{Engine} `{Natural} `{Globals}.

(** [Array.isArray(skills) ? skills : skills.split(',')] *)
Definition skillArray (skills_ : value) : outcome value :=
  match skills_ with
  | Arr _ => Returns skills_
  | Str s => Returns (Arr (map Str (split_comma s)))
  | _ => Throws (mkError TypeError (js "skills.split is not a function"))
  end.

(** The block "additional filters" that both handlers run. *)
Definition additionalFilters (p : Query) (query : gmap jsstring value)
  : outcome (gmap jsstring value) :=
  let query :=
    if truthy (location p)
    then <[js "location" := regexMatch (location p)]> query else query in
  let with_skills :=
    if truthy (skills p)
    then match skillArray (skills p) with
         | Returns array => Returns (<[js "skills" := Obj [(js "$in", array)]]> query)
         | Throws e => Throws e
         end
    else Returns query in
  match with_skills with
  | Throws e => Throws e
  | Returns query =>
      if truthy (minExperience p) then
        if hasPrimitive (minExperience p)
        then Returns (<[js "experience" :=
                          Obj [(js "$lte", parseInt (minExperience p))]]> query)
        else Throws noPrimitive
      else Returns query
  end.

(** The query [GET /] builds before it asks the store. *)
Definition getJobsQuery (w : World) (p : Query) : M (gmap jsstring value) :=
  let query := statusQuery p in
  let! blank := lift (blankText "search" (search p)) in
  let! query :=
    if negb blank then
      try_catch
        (let! processedSearch := Groq.processSearchQuery (groqWorld w) (search p) in
         let! enhancedQuery :=
           lift (Groq.buildEnhancedQuery (Some processedSearch) ∅) in
         ret (Object_assign query enhancedQuery))
        (fun error =>
           emit EvConsoleError;;
           ret (<[js "$or" := Arr (Groq.phraseConditions (search p))]> query))
    else ret query in
  lift (additionalFilters p query).

(** The handler of [GET /]. *)
Definition getJobs (w : World) (p : Query) : M response :=
  try_catch
    (let! query := getJobsQuery w p in
     let! jobs := lift (Job_find w query) in
     ret {| code := 200; json := Jobs jobs |})
    (fun error => ret {| code := 500; json := Message (message error) |}).

(** The handler of [GET /recommended] for the authenticated user. *)
Definition getRecommended (w : World) (userId : jsstring) : M response :=
  try_catch
    (let! recommendations :=
       Recommendation.getRecommendations (recommendationWorld w) userId None in
     ret {| code := 200; json := Jobs recommendations |})
    (fun error => ret {| code := 500; json := Message (message error) |}).

(** [Promise.race([groqPromise, timeoutPromise])]: [processSearchQuery]
    is pending after its first step only while it waits for the request,
    so the timer can win only when a client is configured; the request
    has then been sent. *)
Definition raceWithTimeout (w : World) (searchQuery : value) : M Groq.Intent :=
  if Groq.GROQ_API_KEY (groqWorld w) && negb (groq_in_time w)
  then emit EvGroqRequest;; throw (mkError PlainError (js "Groq timeout"))
  else Groq.processSearchQuery (groqWorld w) searchQuery.

(** [searchQuery.split(/\s+/).filter(term => term.length > 2)] *)
Definition longTerms (searchQuery : value) : outcome (list jsstring) :=
  match searchQuery with
  | Str s => Returns (List.filter (fun term => (2 <? length term)%nat) (split_ws s))
  | _ => Throws (mkError TypeError (js "searchQuery.split is not a function"))
  end.

(** The [$or] of the fast search: the phrase, and every term when there
    are at least two. *)
Definition fastConditions (searchQuery : value) (searchTerms : list jsstring)
  : list value :=
  Groq.phraseConditions searchQuery ++
  (if (1 <? length searchTerms)%nat
   then flat_map (fun term => [Groq.regexCondition "title" (Str term);
                               Groq.regexCondition "description" (Str term)])
          searchTerms
   else []).

(** The [processedSearch] of the fast search. *)
Definition fastIntent (searchQuery : value) (searchTerms : list jsstring)
  : Groq.Intent :=
  {| Groq.originalQuery := searchQuery; Groq.processedQuery := searchQuery;
     Groq.keywords := Groq.keywordArray searchTerms;
     Groq.searchTerms := Groq.keywordArray searchTerms;
     Groq.intent := Str (js "Fast search - matching your description");
     Groq.useAI := Bool false;
     Groq.skills := Undefined; Groq.jobTitle := Undefined;
     Groq.jobLevel := Undefined; Groq.error := Undefined |}.

(** The [processedSearch] of the response body. *)
Definition reportedSearch (processedSearch : Groq.Intent) : Groq.Intent :=
  {| Groq.originalQuery := Groq.originalQuery processedSearch;
     Groq.processedQuery := Groq.processedQuery processedSearch;
     Groq.keywords := or_else (Groq.keywords processedSearch) (Arr []);
     Groq.skills := or_else (Groq.skills processedSearch) (Arr []);
     Groq.intent := Groq.intent processedSearch;
     Groq.jobTitle := Groq.jobTitle processedSearch;
     Groq.jobLevel := Groq.jobLevel processedSearch;
     Groq.searchTerms := or_else (Groq.searchTerms processedSearch) (Arr []);
     Groq.useAI := or_else (Groq.useAI processedSearch) (Bool false);
     Groq.error := Undefined |}.

(** The query and the processed search [GET /search] arrives at for a
    search text that is not blank. *)
Definition searchJobsQuery (w : World) (p : Query)
  : M (gmap jsstring value * Groq.Intent) :=
  let searchQuery := search p in
  let query := statusQuery p in
  let! found :=
    try_catch
      (let! processedSearch := raceWithTimeout w searchQuery in
       let! enhancedQuery :=
         lift (Groq.buildEnhancedQuery (Some processedSearch) ∅) in
       ret (Object_assign query enhancedQuery, processedSearch))
      (fun error =>
         emit EvConsoleError;;
         let! searchTerms := lift (longTerms searchQuery) in
         ret (<[js "$or" := Arr (fastConditions searchQuery searchTerms)]> query,
              fastIntent searchQuery searchTerms)) in
  let! query := lift (additionalFilters p found.1) in
  ret (query, found.2).

(** The handler of [GET /search]. *)
Definition searchJobs (w : World) (p : Query) : M response :=
  let searchQuery := search p in
  try_catch
    (let! blank := lift (blankText "searchQuery" searchQuery) in
     if blank then ret {| code := 400; json := SearchRequired |}
     else
       let! found := searchJobsQuery w p in
       let! jobs := lift (Job_find w found.1) in
       let! externalLinks :=
         try_catch (WebSearch.searchExternalLinksWithAI searchQuery)
                   (fun error => emit EvConsoleError;; ret []) in
       ret {| code := 200;
              json := SearchResults (reportedSearch found.2) jobs (length jobs)
                        externalLinks |})
    (fun error => ret {| code := 500; json := Message (message error) |}).

End WithRuntime.
End JobsRouter.

(* ===================================================================== *)
(** ** resumeParser *)
(* ===================================================================== *)

Module ResumeParser.
Import Regex.

(** The collaborators of the parser. *)
Record World := {
  (** [(await pdfParse(buffer)).text] for the uploaded buffer *)
  pdfParse_text : outcome value;
  (** [natural.stopwords] *)
  stopwords : list jsstring;
}.

(** The class [[a-z]] under the flag [i]. *)
Definition isAlpha (c : char16) : bool :=
  ((65 <=? c) && (c <=? 90) || (97 <=? c) && (c <=? 122))%N.

(** [/^[a-z]+$/i] *)
Definition alphabetic : regex := Plus (Class isAlpha).

(** [wordFreq[word] = (wordFreq[word] || 0) + 1] on an object literal,
    whose entries stay in insertion order.  A count is [Some n].  A word
    that names a member of [Object.prototype] finds a function there, and
    its entry is a string from then on: [None]. *)
Fixpoint count_word (wordFreq : list (jsstring * option nat)) (word : jsstring)
  : list (jsstring * option nat) :=
  match wordFreq with
  | [] =>
      [(word, if bool_decide (word ∈ Groq.objectPrototypeMembers)
              then None else Some 1%nat)]
  | (key, count) :: rest =>
      if bool_decide (key = word) then (key, S <$> count) :: rest
      else (key, count) :: count_word rest word
  end.

(** The number of occurrences of a word among the words counted. *)
Definition occurrences (words : list jsstring) (word : jsstring) : nat :=
  length (List.filter (fun w => bool_decide (w = word)) words).

(** [(a, b) => b[1] - a[1]]; [sort] takes a difference that is [NaN],
    as with an entry that is not a number, for 0.  With such an entry the
    comparator is no consistent ordering, and the order [sort] leaves the
    entries in is the engine's choice: [Array_sort] then computes one of
    the possible orders. *)
Definition byFrequency (a b : jsstring * option nat) : Q :=
  match a.2, b.2 with
  | Some x, Some y => inject_Z (Z.of_nat y) - inject_Z (Z.of_nat x)
  | _, _ => 0
  end.

Section WithRuntime.
Context `{Engine} `{Natural}.

(** The tokens kept for counting: longer than three code units, no stop
    word, alphabetic; the first fifty of them. *)
Definition keptTokens (w : World) (tokens : list jsstring) : list jsstring :=
  let stopWords := Set_new (stopwords w) in
  Array_slice0
    (List.filter (fun token => test alphabetic token)
       (List.filter (fun token => (3 <? length token)%nat &&
                                  negb (Set_has stopWords token))
          tokens))
    50.

(** [extractKeywordsFromResume(buffer, mimeType)]; only a PDF yields a
    text, and [includes] exists on strings and arrays only. *)
Definition extractKeywordsFromResume (w : World) (mimeType : value)
  : M (list jsstring) :=
  try_catch
    (let! text :=
       match mimeType with
       | Str type =>
           if bool_decide (type = js "application/pdf")
           then lift (pdfParse_text w)
           else ret (Str [])
       | Arr _ => ret (Str [])
       | Undefined | Null =>
           throw (mkError TypeError
                    (js "Cannot read properties of undefined (reading 'includes')"))
       | _ => throw (mkError TypeError (js "mimeType.includes is not a function"))
       end in
     if negb (truthy text) then ret []
     else
       match text with
       | Str text =>
           match WordTokenizer_tokenize (toLowerCase text) with
           | None => ret []
           | Some tokens =>
               if (length tokens =? 0)%nat then ret []
               else
                 let keywords := keptTokens w tokens in
                 let wordFreq := foldl count_word [] keywords in
                 let sortedKeywords :=
                   map fst (Array_slice0 (Array_sort byFrequency wordFreq) 20) in
                 ret sortedKeywords
           end
       | _ => throw (mkError TypeError (js "text.toLowerCase is not a function"))
       end)
    (fun error => emit EvConsoleError;; ret []).

End WithRuntime.
End ResumeParser.

(* ===================================================================== *)
(** ** A concrete run-time and concrete collaborators, for examples *)
(* ===================================================================== *)

Module Samples.
Import Recommendation.

(** Lower case on the ASCII letters. *)
Definition asciiLower (c : char16) : char16 :=
  if ((65 <=? c) && (c <=? 90))%N then (c + 32)%N else c.

Definition QUOTE : char16 := 34%N.
Definition quoted (s : jsstring) : jsstring := QUOTE :: s ++ [QUOTE].

(** The text of a JSON array of strings. *)
Fixpoint arrayItems (items : list jsstring) : jsstring :=
  match items with
  | [] => []
  | [x] => quoted x
  | x :: rest => quoted x ++ js "," ++ arrayItems rest
  end.

Definition arrayText (items : list jsstring) : jsstring :=
  js "[" ++ arrayItems items ++ js "]".

(** A [JSON.parse] that knows two array texts and the empty object, and
    rejects everything else. *)
Definition parseKnown (text : jsstring) : outcome value :=
  if bool_decide (text = arrayText [js "j1"; js "j1"])
  then Returns (Arr [Str (js "j1"); Str (js "j1")])
  else if bool_decide (text = arrayText [js "j2"; js "zz"; js "j1"])
  then Returns (Arr [Str (js "j2"); Str (js "zz"); Str (js "j1")])
  else if bool_decide (text = js "{}")
  then Returns (Obj [])
  else Throws (mkError SyntaxError (js "Unexpected token")).

Definition asciiEngine : Engine := {|
  toLowerCase := map asciiLower;
  toLowerCase_empty := eq_refl;
  JSON_parse := parseKnown;
  RegExp_compiles := fun _ => true;
  ToString := fun _ => js "[object Object]";
  ToNumber := fun _ => None;
  Native_length := fun _ => Num 1;
|}.

(** Maximal runs of word characters. *)
Fixpoint wordRuns (cur : jsstring) (s : jsstring) : list jsstring :=
  match s with
  | [] => match cur with [] => [] | _ => [reverse cur] end
  | c :: s' =>
      if isWordChar c then wordRuns (c :: cur) s'
      else match cur with
           | [] => wordRuns [] s'
           | _ => reverse cur :: wordRuns [] s'
           end
  end.

(** A tokenizer and a term weight of the shape [natural] has: the weight
    of a term is its number of occurrences in the document, times a
    constant. *)
(** [1 + Math.log(1 / 2)], which is 0.3068528194400547: the inverse
    document frequency of a term of the only document. *)
Definition idfPresent : Number.number :=
  S754_finite false 5527768973151266 (-54).

(** The weight of a term that occurs [count] times: [count * idf]. *)
Definition weightOf (count : nat) : Number.number :=
  Number.mul (Number.ofNat count) idfPresent.

(** A number as it is when it is a binary64 number, which a product of
    two of them is. *)
Definition asDouble (x : Number.number) : Number.number :=
  if Number.isDouble x then x else Number.zero.

Definition asDouble_isDouble (x : Number.number)
  : Number.isDouble (asDouble x) = true :=
  match Number.isDouble x as b
        return Number.isDouble x = b ->
               Number.isDouble (if b then x else Number.zero) = true with
  | true => fun Hx => Hx
  | false => fun _ => eq_refl
  end eq_refl.

Definition countingNatural : Natural := {|
  WordTokenizer_tokenize := fun text => Some (wordRuns [] text);
  TfIdf_tfidf := fun tokens term =>
    asDouble
      (weightOf (length (List.filter (fun t => bool_decide (t = term)) tokens)));
  TfIdf_double := fun tokens term => asDouble_isDouble _;
|}.

Definition alice : User :=
  {| user_skills := Some [js "Python"; js "Django"];
     user_resumeKeywords := Some [];
     user_experience := 3 |}.

Definition jobA : Job :=
  {| _id := js "j1"; title := js "Backend";
     description := Some (js "Python backend role");
     skills := Some [js "Python"; js "AWS"]; requirements := Some [] |}.

Definition jobB : Job :=
  {| _id := js "j2"; title := js "Enterprise";
     description := Some (js "Java enterprise role");
     skills := Some [js "Java"]; requirements := Some [] |}.

Definition jobC : Job :=
  {| _id := js "j3"; title := js "Data";
     description := Some (js "Python and Django data role");
     skills := Some [js "Django"]; requirements := Some [] |}.

(** No credential for the external ranking. *)
Definition offlineWorld (jobs : list Job) : World :=
  {| OPENAI_API_KEY := false;
     User_findById := fun userId =>
       Returns (if bool_decide (userId = js "alice") then Some alice else None);
     Job_find_active := Returns jobs;
     openai_chat := fun _ _ => Throws (mkError PlainError (js "offline")) |}.

(** An external ranking that answers with the given text. *)
Definition onlineWorld (jobs : list Job) (reply : jsstring) : World :=
  {| OPENAI_API_KEY := true;
     User_findById := fun userId =>
       Returns (if bool_decide (userId = js "alice") then Some alice else None);
     Job_find_active := Returns jobs;
     openai_chat := fun _ _ => Returns reply |}.

Definition threeJobs : list Job := [jobB; jobA; jobC].

(** Two jobs whose scores for [alice] are equal as binary64 numbers,
    [w5 + w5] and [w4 + w6] for the weights of 4, 5 and 6 occurrences,
    while the exact sums of these weights differ. *)
Definition jobP : Job :=
  {| _id := js "p";
     title := js "Python and Django";
     description :=
       Some (js ("python python python python python " ++
                 "django django django django django"));
     skills := None; requirements := None |}.

Definition jobQ : Job :=
  {| _id := js "q";
     title := js "Django and Python";
     description :=
       Some (js ("python python python python " ++
                 "django django django django django django"));
     skills := None; requirements := None |}.

(** Three active jobs, no credential. *)
Definition offlineThree : World := offlineWorld threeJobs.

(** A configured external ranking, and no active job. *)
Definition noJobsWorld : World := onlineWorld [] (arrayText [js "j1"; js "j1"]).

(** An external ranking that names the same job twice. *)
Definition repeatingWorld : World :=
  onlineWorld [jobA; jobB] (arrayText [js "j1"; js "j1"]).

(** An external ranking that names a job that does not exist. *)
Definition strayIdWorld : World :=
  onlineWorld [jobA; jobB] (arrayText [js "j2"; js "zz"; js "j1"]).

(** No credential for the text-understanding service. *)
Definition groqOffline : Groq.World :=
  {| Groq.GROQ_API_KEY := false;
     Groq.groq_chat := fun _ => Returns None |}.

(** A text-understanding service whose request fails. *)
Definition groqFailing : Groq.World :=
  {| Groq.GROQ_API_KEY := true;
     Groq.groq_chat := fun _ =>
       Throws (mkError PlainError (js "Connection error.")) |}.

(** An AI-derived intent for the search text "jobs" that carries a
    seniority level. *)
Definition levelIntent (level : string) : Groq.Intent :=
  {| Groq.originalQuery := Str (js "jobs"); Groq.processedQuery := Str (js "jobs");
     Groq.keywords := Arr []; Groq.skills := Arr [];
     Groq.jobTitle := Null; Groq.jobLevel := Str (js level);
     Groq.intent := Str (js "general"); Groq.searchTerms := Arr [];
     Groq.useAI := Bool true; Groq.error := Undefined |}.

(** An AI-derived intent for the search text "senior python developer":
    two keywords, a job title, two skills and a level. *)
Definition pythonIntent : Groq.Intent :=
  {| Groq.originalQuery := Str (js "senior python developer");
     Groq.processedQuery := Str (js "senior python developer");
     Groq.keywords := Arr [Str (js "python"); Str (js "backend")];
     Groq.skills := Arr [Str (js "Python"); Str (js "Django")];
     Groq.jobTitle := Str (js "Developer"); Groq.jobLevel := Str (js "senior");
     Groq.intent := Str (js "find a job"); Groq.searchTerms := Arr [];
     Groq.useAI := Bool true; Groq.error := Undefined |}.

(** Base filters [{ status: 'active', experience: { $lte: 3 } }]. *)
Definition baseFilters : gmap jsstring value :=
  <[js "experience" := Obj [(js "$lte", Num 3)]]>
    (<[js "status" := Str (js "active")]> ∅).

(** A JSON object text with one string member. *)
Definition memberText (key val : jsstring) : jsstring :=
  js "{" ++ quoted key ++ js ":" ++ quoted val ++ js "}".

Definition seniorReply : jsstring := memberText (js "jobLevel") (js "senior").

(** An engine whose [JSON.parse] also knows [seniorReply]. *)
Definition richEngine : Engine := {|
  toLowerCase := map asciiLower;
  toLowerCase_empty := eq_refl;
  JSON_parse := fun text =>
    if bool_decide (text = seniorReply)
    then Returns (Obj [(js "jobLevel", Str (js "senior"))])
    else parseKnown text;
  RegExp_compiles := fun v =>
    match v with
    | Str s => negb (bool_decide (s = js "C++"))
    | _ => true
    end;
  ToString := fun _ => js "[object Object]";
  ToNumber := fun _ => None;
  Native_length := fun _ => Num 1;
|}.

(** The value of a string of decimal digits. *)
Definition decimal (s : jsstring) : Z :=
  foldl (fun acc c => 10 * acc + (Z.of_N c - 48)) 0 s.

(** Globals for examples: an [encodeURIComponent] that leaves its argument
    alone and rejects surrogates, a [parseInt] for digit strings. *)
Definition plainGlobals : Globals := {|
  encodeURIComponent := fun s =>
    if existsb (fun c => (55296 <=? c) && (c <=? 57343))%N s
    then Throws (mkError PlainError (js "URI malformed"))
    else Returns s;
  parseInt := fun v =>
    match v with
    | Str s => Num (inject_Z (decimal s))
    | other => other
    end;
|}.

(** A text-understanding service that answers with the given content. *)
Definition groqAnswering (content : jsstring) : Groq.World :=
  {| Groq.GROQ_API_KEY := true;
     Groq.groq_chat := fun _ => Returns (Some content) |}.

(** The content wrapped in a fenced block tagged [json]. *)
Definition fenced (content : jsstring) : jsstring :=
  Groq.BACKTICKS ++ js "json" ++ [10%N] ++ content ++ [10%N] ++ Groq.BACKTICKS.

(** A resume whose text repeats some words; the stop words are a few
    of the package's. *)
Definition resumeWorld : ResumeParser.World :=
  {| ResumeParser.pdfParse_text :=
       Returns (Str (js "Python developer with Django; python and more Python, about Django"));
     ResumeParser.stopwords := map js ["with"; "about"; "and"]%string |}.

(** A store that answers every query with the three sample jobs. *)
Definition routerWorld (groq : Groq.World) (in_time : bool) : JobsRouter.World :=
  {| JobsRouter.groqWorld := groq;
     JobsRouter.recommendationWorld := offlineThree;
     JobsRouter.Job_find := fun _ => Returns threeJobs;
     JobsRouter.groq_in_time := in_time |}.

(** The parameters [?search=text&minExperience=3]. *)
Definition searchFor (text : string) : JobsRouter.Query :=
  {| JobsRouter.search := Str (js text);
     JobsRouter.location := Undefined;
     JobsRouter.skills := Undefined;
     JobsRouter.minExperience := Str (js "3");
     JobsRouter.status := Undefined |}.

End Samples.


(* ===================================================================== *)
(** * Properties *)
(* ===================================================================== *)

(** ** Numbers *)

Section NumberFacts.
Import Number.

Lemma digits2_log2 m : Zpos (digits2_pos m) = Z.log2 (Zpos m) + 1.
Proof.
  assert (Hsize : forall p, digits2_pos p = Pos.size p).
  { induction p as [p IH|p IH|]; simpl; congruence. }
  destruct m; simpl; rewrite ?Hsize; lia.
Qed.

Lemma iter_xO m d : Zpos (Pos.iter xO m d) = Zpos m * 2 ^ Zpos d.
Proof.
  induction d as [|d IH] using Pos.peano_ind.
  - simpl. lia.
  - rewrite Pos.iter_succ, Pos2Z.inj_succ, Z.pow_succ_r by lia.
    rewrite Pos2Z.inj_xO, IH. lia.
Qed.

Lemma shr_1_m mrs :
  0 <= shr_m mrs -> shr_m (shr_1 mrs) = shr_m mrs / 2 /\ 0 <= shr_m (shr_1 mrs).
Proof.
  destruct mrs as [m r s]. cbn [shr_m]. intros Hm.
  rewrite <- Z.div2_div.
  destruct m as [|[p|p|]|p]; cbn; try lia.
Qed.

Lemma pow2_xI n : 2 ^ Zpos n~1 = 2 * 2 ^ Zpos n * 2 ^ Zpos n.
Proof.
  rewrite (Pos2Z.inj_xI n).
  replace (2 * Z.pos n + 1) with (1 + Z.pos n + Z.pos n) by lia.
  rewrite !Z.pow_add_r by lia. reflexivity.
Qed.

Lemma pow2_xO n : 2 ^ Zpos n~0 = 2 ^ Zpos n * 2 ^ Zpos n.
Proof.
  rewrite (Pos2Z.inj_xO n).
  replace (2 * Z.pos n) with (Z.pos n + Z.pos n) by lia.
  rewrite !Z.pow_add_r by lia. reflexivity.
Qed.

Lemma shr_iter_m n : forall mrs,
  0 <= shr_m mrs ->
  shr_m (SpecFloat.iter_pos shr_1 n mrs) = shr_m mrs / 2 ^ Zpos n /\
  0 <= shr_m (SpecFloat.iter_pos shr_1 n mrs).
Proof.
  induction n as [n IH|n IH|]; intros mrs Hm; cbn [SpecFloat.iter_pos].
  - destruct (shr_1_m mrs Hm) as [H1 H1'].
    destruct (IH _ H1') as [H2 H2']. destruct (IH _ H2') as [H3 H3'].
    split; [|exact H3']. rewrite H3, H2, H1, pow2_xI.
    assert (0 < 2 ^ Z.pos n) by (apply Z.pow_pos_nonneg; lia).
    rewrite !Z.div_div by lia. f_equal. ring.
  - destruct (IH _ Hm) as [H2 H2']. destruct (IH _ H2') as [H3 H3'].
    split; [|exact H3']. rewrite H3, H2, pow2_xO.
    assert (0 < 2 ^ Z.pos n) by (apply Z.pow_pos_nonneg; lia).
    rewrite !Z.div_div by lia. reflexivity.
  - destruct (shr_1_m mrs Hm) as [H1 H1']. split; [|exact H1'].
    rewrite H1. reflexivity.
Qed.

Lemma shr_fexp_spec m e l :
  0 <= m ->
  let n := Z.max 0 (fexp prec emax (Zdigits2 m + e) - e) in
  shr_m (fst (shr_fexp prec emax m e l)) = Z.shiftr m n /\
  snd (shr_fexp prec emax m e l) = e + n.
Proof.
  intros Hm n. unfold shr_fexp, shr.
  assert (Hrec : shr_m (shr_record_of_loc m l) = m) by (destruct l as [|[]]; reflexivity).
  subst n. destruct (fexp prec emax (Zdigits2 m + e) - e) as [|p|p] eqn:Hn; cbn [fst snd].
  - rewrite Hrec. split; [rewrite Z.shiftr_0_r; reflexivity | lia].
  - destruct (shr_iter_m p (shr_record_of_loc m l)) as [Hs _]; [rewrite Hrec; exact Hm|].
    rewrite Hs, Hrec. split; [|lia].
    rewrite Z.max_r by lia. rewrite Z.shiftr_div_pow2 by lia. reflexivity.
  - rewrite Hrec. split; [rewrite Z.max_l by lia; rewrite Z.shiftr_0_r; reflexivity | lia].
Qed.

Lemma round_nearest_even_bounds m l :
  m <= round_nearest_even m l <= m + 1.
Proof. destruct l as [|[]]; simpl; try destruct (Z.even m); lia. Qed.

(** Rounding a mantissa whose exponent is not below the least one gives
    a double of the same sign, or the infinity of that sign. *)
Lemma binary_round_aux_valid s mz ez l :
  SpecFloat.emin prec emax <= ez ->
  ez <= fexp prec emax (Zpos (digits2_pos mz) + ez) ->
  binary_round_aux prec emax s (Zpos mz) ez l = S754_infinity s \/
  exists m e, binary_round_aux prec emax s (Zpos mz) ez l = S754_finite s m e /\
              bounded prec emax m e = true.
Proof.
  intros Hmin Hle. unfold binary_round_aux.
  destruct (shr_fexp_spec (Zpos mz) ez l) as [Hm1 He1]; [lia|].
  destruct (shr_fexp prec emax (Z.pos mz) ez l) as [mrs1 e1].
  cbn [fst snd] in Hm1, He1. cbn [Zdigits2] in Hm1, He1.
  set (m2 := round_nearest_even (shr_m mrs1) (loc_of_shr_record mrs1)).
  pose proof (round_nearest_even_bounds (shr_m mrs1) (loc_of_shr_record mrs1)) as Hm2.
  fold m2 in Hm2.
  rewrite digits2_log2 in Hle, Hm1, He1.
  pose proof (Z.log2_nonneg (Zpos mz)) as HL.
  set (L := Z.log2 (Zpos mz)) in *.
  set (n1 := Z.max 0 (fexp prec emax (L + 1 + ez) - ez)) in *.
  assert (Hn1 : 0 <= n1 <= L).
  { subst n1. unfold fexp, SpecFloat.emin, prec, emax in *. lia. }
  assert (HL1 : Z.log2 (shr_m mrs1) = L - n1).
  { rewrite Hm1, Z.log2_shiftr by lia. fold L. lia. }
  assert (Hpos1 : 0 < shr_m mrs1).
  { rewrite Hm1. destruct (Z.shiftr_eq_0_iff (Zpos mz) n1) as [Hz _].
    pose proof (Z.shiftr_nonneg (Zpos mz) n1).
    destruct (Z.eq_dec (Z.shiftr (Zpos mz) n1) 0) as [H0|H0]; [|lia].
    destruct (Hz H0) as [Hf | [_ Hf]]; [discriminate | fold L in Hf; lia]. }
  assert (HL2 : Z.log2 (shr_m mrs1) <= Z.log2 m2 <= Z.log2 (shr_m mrs1) + 1).
  { split; [apply Z.log2_le_mono; lia|].
    etransitivity; [apply (Z.log2_le_mono m2 (Z.succ (shr_m mrs1))); lia|].
    pose proof (Z.log2_succ_le (shr_m mrs1)). lia. }
  destruct (shr_fexp_spec m2 e1 loc_Exact) as [Hm3 He3]; [lia|].
  destruct (shr_fexp prec emax m2 e1 loc_Exact) as [mrs3 e3].
  cbn [fst snd] in Hm3, He3.
  assert (Hd2 : Zdigits2 m2 = Z.log2 m2 + 1).
  { destruct m2 as [|p|p] eqn:Hp; [lia | apply digits2_log2 | lia]. }
  rewrite Hd2 in Hm3, He3.
  set (L2 := Z.log2 m2) in *.
  set (n2 := Z.max 0 (fexp prec emax (L2 + 1 + e1) - e1)) in *.
  assert (Hn2 : 0 <= n2 <= L2 /\ fexp prec emax (L2 - n2 + 1 + e3) = e3).
  { subst n2 n1. unfold fexp, SpecFloat.emin, prec, emax in *. lia. }
  destruct Hn2 as [Hn2 Hcanon].
  assert (HL3 : Z.log2 (shr_m mrs3) = L2 - n2).
  { rewrite Hm3, Z.log2_shiftr by lia. fold L2. lia. }
  assert (Hpos3 : 0 < shr_m mrs3).
  { rewrite Hm3. destruct (Z.shiftr_eq_0_iff m2 n2) as [Hz _].
    pose proof (Z.shiftr_nonneg m2 n2).
    destruct (Z.eq_dec (Z.shiftr m2 n2) 0) as [H0|H0]; [|lia].
    destruct (Hz H0) as [Hf | [_ Hf]]; [lia | fold L2 in Hf; lia]. }
  destruct (shr_m mrs3) as [|m3|m3] eqn:Hm; [lia | | lia].
  destruct (Z.leb_spec e3 (emax - prec)) as [Hfin|Hinf]; [right | left; reflexivity].
  exists m3, e3. split; [reflexivity|].
  unfold bounded, canonical_mantissa. rewrite digits2_log2, HL3, Hcanon.
  rewrite Z.eqb_refl. apply Z.leb_le. exact Hfin.
Qed.


Lemma shl_align_spec m e e' :
  Zpos (fst (shl_align m e e')) = Zpos m * 2 ^ (e - Z.min e e') /\
  snd (shl_align m e e') = Z.min e e'.
Proof.
  unfold shl_align. destruct (e' - e) as [|p|p] eqn:Hd; cbn [fst snd].
  - replace (e - Z.min e e') with 0 by lia. split; lia.
  - replace (e - Z.min e e') with 0 by lia. split; lia.
  - replace (e - Z.min e e') with (Zpos p) by lia. split; [apply iter_xO | lia].
Qed.

Lemma binary_round_valid s m e :
  SpecFloat.emin prec emax <= e ->
  binary_round prec emax s m e = S754_infinity s \/
  exists m' e', binary_round prec emax s m e = S754_finite s m' e' /\
                bounded prec emax m' e' = true.
Proof.
  intros Hmin. unfold binary_round.
  destruct (shl_align_spec m e (fexp prec emax (Zpos (digits2_pos m) + e)))
    as [Hmz Hez].
  destruct (shl_align m e (fexp prec emax (Zpos (digits2_pos m) + e))) as [mz ez].
  cbn [fst snd] in Hmz, Hez.
  apply binary_round_aux_valid.
  - rewrite Hez. unfold fexp, SpecFloat.emin, prec, emax in *. lia.
  - rewrite (digits2_log2 m) in Hmz, Hez.
    rewrite digits2_log2, Hmz, Z.log2_mul_pow2 by lia.
    pose proof (Z.log2_nonneg (Zpos m)).
    unfold fexp, SpecFloat.emin, prec, emax in *. lia.
Qed.

Lemma bounded_spec m e :
  bounded prec emax m e = true ->
  -1074 <= e <= 971 /\ Zpos m < 2 ^ 53 /\ (-1074 < e -> 2 ^ 52 <= Zpos m).
Proof.
  unfold bounded, canonical_mantissa. intros Hb.
  apply andb_prop in Hb. destruct Hb as [Hc He].
  apply Z.eqb_eq in Hc. apply Z.leb_le in He.
  rewrite digits2_log2 in Hc.
  pose proof (Z.log2_nonneg (Zpos m)) as HL.
  destruct (Z.log2_spec (Zpos m)) as [Hlo Hhi]; [lia|].
  set (L := Z.log2 (Zpos m)) in *.
  unfold fexp, SpecFloat.emin, prec, emax in *.
  split; [lia|]. split.
  - eapply Z.lt_le_trans; [exact Hhi|]. apply Z.pow_le_mono_r; lia.
  - intros Hnorm. replace 52 with L by lia. exact Hlo.
Qed.

Lemma nonNegative_cases x :
  nonNegative x = true ->
  x = zero \/ x = S754_infinity false \/
  exists m e, x = S754_finite false m e /\ bounded prec emax m e = true.
Proof.
  destruct x as [[]|[]| |[] m e]; cbn; intros Hx; try discriminate; auto.
  right. right. eauto.
Qed.

Lemma units_finite m e :
  bounded prec emax m e = true ->
  0 < units (S754_finite false m e) < 2 ^ 2098.
Proof.
  intros Hb. destruct (bounded_spec m e Hb) as (He & Hm & _). cbn [units].
  assert (Hp : 0 < 2 ^ (e + 1074)) by (apply Z.pow_pos_nonneg; lia).
  split; [lia|].
  replace 2098 with (53 + 2045) by lia. rewrite (Z.pow_add_r 2 53 2045) by lia.
  assert (Hq : 2 ^ (e + 1074) <= 2 ^ 2045) by (apply Z.pow_le_mono_r; lia).
  assert (H53 : 0 < 2 ^ 53) by (apply Z.pow_pos_nonneg; lia).
  eapply Z.lt_le_trans; [apply Z.mul_lt_mono_pos_r; [exact Hp | exact Hm]|].
  apply Z.mul_le_mono_nonneg_l; lia.
Qed.

(** Among doubles, a larger exponent means a larger value. *)
Lemma units_exponent m1 e1 m2 e2 :
  bounded prec emax m1 e1 = true -> bounded prec emax m2 e2 = true ->
  e1 < e2 ->
  units (S754_finite false m1 e1) < units (S754_finite false m2 e2).
Proof.
  intros H1 H2 Hlt. cbn [units].
  destruct (bounded_spec m1 e1 H1) as (He1 & Hm1 & _).
  destruct (bounded_spec m2 e2 H2) as (He2 & _ & Hm2).
  specialize (Hm2 ltac:(lia)).
  replace (e2 + 1074) with ((e2 - e1) + (e1 + 1074)) by lia.
  rewrite (Z.pow_add_r 2 (e2 - e1) (e1 + 1074)) by lia.
  assert (Hp : 0 < 2 ^ (e1 + 1074)) by (apply Z.pow_pos_nonneg; lia).
  assert (Hk : 2 ^ 1 <= 2 ^ (e2 - e1)) by (apply Z.pow_le_mono_r; lia).
  change (2 ^ 1) with 2 in Hk.
  assert (H53 : 2 ^ 53 = 2 * 2 ^ 52) by reflexivity.
  set (P := 2 ^ (e1 + 1074)) in *. set (K := 2 ^ (e2 - e1)) in *.
  rewrite Z.mul_assoc. apply Z.mul_lt_mono_pos_r; [exact Hp|].
  apply Z.lt_le_trans with (2 * Zpos m2); [lia|].
  rewrite (Z.mul_comm 2). apply Z.mul_le_mono_nonneg_l; lia.
Qed.

(** Comparing two non-negative doubles compares their values. *)
Lemma compare_units x y :
  nonNegative x = true -> nonNegative y = true ->
  SFcompare x y = Some (units x ?= units y).
Proof.
  intros Hx Hy.
  destruct (nonNegative_cases x Hx) as [-> | [-> | (m1 & e1 & -> & H1)]];
    destruct (nonNegative_cases y Hy) as [-> | [-> | (m2 & e2 & -> & H2)]];
    try reflexivity;
    try pose proof (units_finite m1 e1 H1) as Hu1;
    try pose proof (units_finite m2 e2 H2) as Hu2;
    unfold zero; cbn [SFcompare];
    change (units (S754_zero false)) with 0;
    change (units (S754_infinity false)) with (2 ^ 2098);
    f_equal; symmetry.
  - apply Z.compare_lt_iff. lia.
  - apply Z.compare_gt_iff. lia.
  - apply Z.compare_gt_iff. lia.
  - apply Z.compare_lt_iff. lia.
  - destruct (Z.compare_spec e1 e2) as [->|Hlt|Hgt].
    + cbn [units]. destruct (bounded_spec m2 e2 H2) as (He2 & _ & _).
      assert (Hp : 0 < 2 ^ (e2 + 1074)) by (apply Z.pow_pos_nonneg; lia).
      rewrite <- Zmult_compare_compat_r by lia. reflexivity.
    + apply Z.compare_lt_iff. apply units_exponent; assumption.
    + apply Z.compare_gt_iff. apply units_exponent; assumption.
Qed.

(** The sum of two non-negative doubles is a non-negative double,
    positive exactly when one of the two is. *)
Lemma add_nonNegative x y :
  nonNegative x = true -> nonNegative y = true ->
  nonNegative (add x y) = true /\
  lt zero (add x y) = lt zero x || lt zero y.
Proof.
  intros Hx Hy.
  destruct (nonNegative_cases x Hx) as [-> | [-> | (m1 & e1 & -> & H1)]];
    destruct (nonNegative_cases y Hy) as [-> | [-> | (m2 & e2 & -> & H2)]];
    try (split; reflexivity);
    try (split; [exact Hx | reflexivity]);
    try (split; [exact Hy | reflexivity]).
  unfold add. cbn [SFadd cond_Zopp]. rewrite <- Pos2Z.inj_add.
  cbn [binary_normalize].
  destruct (bounded_spec m1 e1 H1) as (He1 & _ & _).
  destruct (bounded_spec m2 e2 H2) as (He2 & _ & _).
  match goal with
  | |- context [binary_round prec emax false ?m ?e] =>
      destruct (binary_round_valid false m e) as [-> | (m' & e' & -> & Hb)];
        [unfold SpecFloat.emin, prec, emax; lia | |]
  end.
  - split; reflexivity.
  - split; [exact Hb | reflexivity].
Qed.

(** The sign of a difference of two non-negative doubles is the order of
    their values; the difference of +∞ and +∞ has no sign. *)
Lemma sub_sortSign x y :
  nonNegative x = true -> nonNegative y = true ->
  sortSign (sub y x) =
  match units y ?= units x with Lt => (-1)%Q | Eq => 0%Q | Gt => 1%Q end.
Proof.
  intros Hx Hy.
  destruct (nonNegative_cases x Hx) as [-> | [-> | (m1 & e1 & -> & H1)]];
    destruct (nonNegative_cases y Hy) as [-> | [-> | (m2 & e2 & -> & H2)]];
    try reflexivity;
    try pose proof (units_finite m1 e1 H1) as Hu1;
    try pose proof (units_finite m2 e2 H2) as Hu2;
    unfold sub, zero; cbn [SFsub sortSign negb];
    change (units (S754_zero false)) with 0;
    change (units (S754_infinity false)) with (2 ^ 2098).
  - rewrite (proj2 (Z.compare_gt_iff _ _)) by lia. reflexivity.
  - rewrite (proj2 (Z.compare_lt_iff _ _)) by lia. reflexivity.
  - rewrite (proj2 (Z.compare_lt_iff _ _)) by lia. reflexivity.
  - rewrite (proj2 (Z.compare_gt_iff _ _)) by lia. reflexivity.
  - destruct (bounded_spec m1 e1 H1) as (He1 & _ & _).
    destruct (bounded_spec m2 e2 H2) as (He2 & _ & _).
    destruct (shl_align_spec m2 e2 (Z.min e2 e1)) as [Ha _].
    destruct (shl_align_spec m1 e1 (Z.min e2 e1)) as [Hb _].
    set (a := fst (shl_align m2 e2 (Z.min e2 e1))) in *.
    set (b := fst (shl_align m1 e1 (Z.min e2 e1))) in *.
    assert (Hcmp : (units (S754_finite false m2 e2) ?= units (S754_finite false m1 e1)) =
                   (Zpos a ?= Zpos b)).
    { assert (Hy2 : Zpos m2 * 2 ^ (e2 + 1074) =
                    Zpos a * 2 ^ (Z.min e2 e1 + 1074)).
      { rewrite Ha, <- Z.mul_assoc, <- Z.pow_add_r by lia.
        f_equal. f_equal. lia. }
      assert (Hx2 : Zpos m1 * 2 ^ (e1 + 1074) =
                    Zpos b * 2 ^ (Z.min e2 e1 + 1074)).
      { rewrite Hb, <- Z.mul_assoc, <- Z.pow_add_r by lia.
        f_equal. f_equal. lia. }
      cbn [units]. rewrite Hy2, Hx2. symmetry.
      apply Zmult_compare_compat_r, Z.lt_gt, Z.pow_pos_nonneg; lia. }
    rewrite Hcmp. cbn [cond_Zopp].
    destruct (Zpos a - Zpos b) as [|p|p] eqn:Hd; cbn [binary_normalize].
    + rewrite (proj2 (Z.compare_eq_iff _ _)) by lia. reflexivity.
    + rewrite (proj2 (Z.compare_gt_iff _ _)) by lia.
      destruct (binary_round_valid false p (Z.min e2 e1)) as [-> | (m' & e' & -> & _)];
        [unfold SpecFloat.emin, prec, emax; lia | |]; reflexivity.
    + rewrite (proj2 (Z.compare_lt_iff _ _)) by lia.
      destruct (binary_round_valid true p (Z.min e2 e1)) as [-> | (m' & e' & -> & _)];
        [unfold SpecFloat.emin, prec, emax; lia | |]; reflexivity.
Qed.

(** What the sort reads in a difference of scores. *)
Lemma sub_sortSign_le x y :
  nonNegative x = true -> nonNegative y = true ->
  Qle_bool (sortSign (sub y x)) 0 =
  Qle_bool (inject_Z (units y) - inject_Z (units x)) 0.
Proof.
  intros Hx Hy. rewrite (sub_sortSign x y Hx Hy).
  destruct (Z.compare_spec (units y) (units x)) as [Heq|Hlt|Hgt].
  - rewrite Heq. symmetry. apply Qle_bool_iff. lra.
  - symmetry. apply Qle_bool_iff.
    assert (inject_Z (units y) <= inject_Z (units x))%Q by (rewrite <- Zle_Qle; lia).
    lra.
  - symmetry. destruct (Qle_bool _ 0) eqn:Hle; [|reflexivity].
    apply Qle_bool_iff in Hle.
    assert (inject_Z (units y) <= inject_Z (units x))%Q as Hq by lra.
    rewrite <- Zle_Qle in Hq. lia.
Qed.

Lemma le_units x y :
  nonNegative x = true -> nonNegative y = true ->
  le x y = true <-> units x <= units y.
Proof.
  intros Hx Hy. unfold le, SFleb. rewrite (compare_units x y Hx Hy).
  destruct (Z.compare_spec (units x) (units y)); split; intros; try lia;
    try reflexivity; discriminate.
Qed.


(** A weight that is a double and above 0 is one of the non-negative
    numbers. *)
Lemma positive_nonNegative w :
  isDouble w = true -> lt zero w = true -> nonNegative w = true.
Proof.
  destruct w as [[]|[]| |[] m e]; cbn; intros Hd Hp;
    first [discriminate Hp | reflexivity | exact Hd].
Qed.



End NumberFacts.

(** ** Strings and sets *)

Section StringFacts.

Lemma word_char_not_space c : isWordChar c = true -> isSpaceChar c = false.
Proof.
  intros Hw. apply not_true_iff_false. intros Hs. revert Hw Hs.
  unfold isWordChar, isSpaceChar.
  rewrite !orb_true_iff, !andb_true_iff, !N.leb_le, !N.eqb_eq. lia.
Qed.

Lemma filter_filter_andb {A} (f g : A -> bool) (l : list A) :
  List.filter g (List.filter f l) = List.filter (fun x => f x && g x) l.
Proof.
  induction l as [|x l IH]; simpl; [reflexivity|].
  destruct (f x); simpl; [destruct (g x)|]; congruence.
Qed.

Lemma filter_ext_bool {A} (f g : A -> bool) (l : list A) :
  (forall x, f x = g x) -> List.filter f l = List.filter g l.
Proof.
  intros E. induction l as [|x l IH]; simpl; [reflexivity|].
  rewrite E, IH. reflexivity.
Qed.

(** Pieces of [split] that a filter rejecting the empty string keeps are
    the white-space separated words. *)
Lemma split_ws_from_words (P : jsstring -> bool) cur in_sep s :
  P [] = false ->
  (in_sep = true -> cur = []) ->
  List.filter P (split_ws_from cur in_sep s) =
  List.filter P (spec_words_from cur s).
Proof.
  intros HP. revert cur in_sep.
  induction s as [|c s IH]; intros cur in_sep Hinv; simpl.
  - destruct cur as [|d cur]; [cbn; rewrite HP|]; reflexivity.
  - destruct (isSpaceChar c).
    + destruct in_sep.
      * rewrite (Hinv eq_refl). apply IH. reflexivity.
      * destruct cur as [|d cur].
        -- cbn. rewrite HP. apply IH. reflexivity.
        -- cbn [List.filter]. rewrite (IH [] true); reflexivity.
    + apply IH. discriminate.
Qed.

(** The program keeps white space and blanks the other non-word code
    units; the specification blanks every non-word code unit.  The words
    are the same. *)
Lemma words_of_replacements cur t :
  spec_words_from cur (replace_nonword_nonspace t) =
  spec_words_from cur (spec_strip_nonword t).
Proof.
  revert cur. induction t as [|c t IH]; intros cur; [reflexivity|].
  unfold replace_nonword_nonspace, spec_strip_nonword in *. simpl.
  destruct (isWordChar c) eqn:Hw; simpl.
  - rewrite (word_char_not_space c Hw). apply IH.
  - destruct (isSpaceChar c) eqn:Hs; simpl; rewrite ?Hs, IH; reflexivity.
Qed.

Lemma Set_new_from acc l :
  foldl Set_add acc l =
  acc ++ List.filter (fun y => negb (bool_decide (y ∈ acc))) (spec_dedup l).
Proof.
  revert acc. induction l as [|x l IH]; intros acc; simpl.
  - rewrite app_nil_r. reflexivity.
  - rewrite IH. unfold Set_add, Set_has.
    rewrite !filter_filter_andb.
    destruct (bool_decide (x ∈ acc)) eqn:Hx; simpl.
    + f_equal. apply filter_ext_bool. intros y.
      destruct (bool_decide (y = x)) eqn:Hy; simpl; [|reflexivity].
      apply bool_decide_eq_true in Hy. subst y. rewrite Hx. reflexivity.
    + rewrite <- app_assoc. simpl. do 2 f_equal.
      apply filter_ext_bool. intros y.
      destruct (bool_decide (y = x)) eqn:Hy; simpl.
      * apply bool_decide_eq_true in Hy. subst y.
        rewrite bool_decide_eq_true_2; [reflexivity|].
        apply elem_of_app. right. apply list_elem_of_singleton. reflexivity.
      * apply bool_decide_eq_false in Hy.
        f_equal. apply bool_decide_ext. rewrite elem_of_app, list_elem_of_singleton.
        tauto.
Qed.

Lemma Set_new_dedup l : Set_new l = spec_dedup l.
Proof.
  unfold Set_new. rewrite Set_new_from. simpl.
  induction (spec_dedup l) as [|y r IH]; simpl; congruence.
Qed.

End StringFacts.

(** ** The keyword extractor *)

Section KeywordFacts.
Context `{Engine}.

(** C7 (amended). For every string, [extractKeywords] computes what the
    specification's pipeline computes: lower-case the text, blank the
    non-word characters, split on white space, drop the tokens of length
    at most 2 and the stop words, and remove duplicates keeping the first
    occurrence.  Empty or missing input, and every other falsy value,
    gives the empty sequence.  Every truthy value that is not a string
    makes it throw a [TypeError]: only strings and falsy values do not
    make it throw. *)
Theorem C7_extractKeywords_refines_spec :
  (forall text : jsstring,
     extractKeywords (Str text) = Returns (spec_extractKeywords text)) /\
  extractKeywords (Str []) = Returns [] /\
  extractKeywords Undefined = Returns [] /\
  extractKeywords Null = Returns [] /\
  (forall v, truthy v = false -> extractKeywords v = Returns []) /\
  (forall v, truthy v = true -> (forall text, v <> Str text) ->
             extractKeywords v =
             Throws (mkError TypeError (js "text.toLowerCase is not a function"))) /\
  (forall v, (exists e, extractKeywords v = Throws e) <->
             truthy v = true /\ forall text, v <> Str text).
Proof.
  assert (Hfalsy : forall v, truthy v = false -> extractKeywords v = Returns []).
  { intros v Hv. unfold extractKeywords. rewrite Hv. reflexivity. }
  assert (Hthrows : forall v, truthy v = true -> (forall text, v <> Str text) ->
            extractKeywords v =
            Throws (mkError TypeError (js "text.toLowerCase is not a function"))).
  { intros v Hv Hns. unfold extractKeywords. rewrite Hv. cbn [negb].
    destruct v; try reflexivity. destruct (Hns s eq_refl). }
  assert (Hiff : forall v, (exists e, extractKeywords v = Throws e) <->
                           truthy v = true /\ forall text, v <> Str text).
  { intros v. split.
    - intros [e He]. destruct (truthy v) eqn:Hv.
      + split; [reflexivity|]. intros text ->.
        unfold extractKeywords in He. rewrite Hv in He. discriminate He.
      + rewrite (Hfalsy v Hv) in He. discriminate He.
    - intros [Hv Hns]. eexists. apply Hthrows; assumption. }
  split; [|split; [reflexivity|split; [reflexivity|split; [reflexivity|
    split; [exact Hfalsy|split; [exact Hthrows|exact Hiff]]]]]].
  assert (Hgen : forall text : jsstring,
             Set_new (List.filter keepWord
                        (split_ws (replace_nonword_nonspace (toLowerCase text)))) =
             spec_extractKeywords text).
  { intros text. unfold spec_extractKeywords, spec_split_whitespace, split_ws.
    rewrite Set_new_dedup. f_equal.
    rewrite (split_ws_from_words keepWord) by (reflexivity || discriminate).
    rewrite words_of_replacements, filter_filter_andb.
    apply filter_ext_bool. intros w. unfold keepWord, Set_has.
    rewrite Nat.ltb_antisym. reflexivity. }
  intros text. unfold extractKeywords.
  destruct text as [|c text].
  - simpl. rewrite <- Hgen, toLowerCase_empty. reflexivity.
  - simpl. rewrite Hgen. reflexivity.
Qed.

End KeywordFacts.

Section KeywordExamples.
Import Samples.
Existing Instance asciiEngine.

(** C7 as stated fails: an input makes [extractKeywords] throw.  An array
    holding a string, the number 5 and [true] have no [toLowerCase]. *)
Lemma C7_counterexample :
  extractKeywords (Arr [Str (js "python developer")]) =
    Throws (mkError TypeError (js "text.toLowerCase is not a function")) /\
  extractKeywords (Num 5) =
    Throws (mkError TypeError (js "text.toLowerCase is not a function")) /\
  extractKeywords (Bool true) =
    Throws (mkError TypeError (js "text.toLowerCase is not a function")).
Proof. repeat split; vm_compute; reflexivity. Qed.

End KeywordExamples.

(** ** The term-weight scorer *)

Section ScorerFacts.
Import Recommendation.
Context `{Engine} `{Natural}.

(** Adding only the positive weights is adding up the positive weights;
    the running score stays a non-negative number, and is positive
    exactly when it was or one of the weights is. *)
Lemma accumulate_spec doc terms (score : Number.number) :
  Number.nonNegative score = true ->
  let total :=
    foldl (fun score skill =>
             let tfidfScore := TfIdf_tfidf doc skill in
             if Number.lt Number.zero tfidfScore
             then Number.add score tfidfScore else score)
          score terms in
  Number.nonNegative total = true /\
  Number.lt Number.zero total =
    Number.lt Number.zero score ||
    existsb (fun term => Number.lt Number.zero (TfIdf_tfidf doc term)) terms /\
  total =
    foldl Number.add score
      (List.filter (fun weight => Number.lt Number.zero weight)
         (map (TfIdf_tfidf doc) terms)).
Proof.
  cbv zeta. revert score.
  induction terms as [|t terms IH]; intros score Hs; simpl.
  - rewrite orb_false_r. auto.
  - destruct (Number.lt Number.zero (TfIdf_tfidf doc t)) eqn:Hpos.
    + assert (Hw : Number.nonNegative (TfIdf_tfidf doc t) = true)
        by (apply positive_nonNegative; [apply TfIdf_double | exact Hpos]).
      destruct (add_nonNegative score (TfIdf_tfidf doc t) Hs Hw) as [Hsum Hlt].
      destruct (IH _ Hsum) as (Hnn & Hp & Hfold).
      split; [exact Hnn|]. split; [|exact Hfold].
      rewrite Hp, Hlt, Hpos. simpl.
      rewrite !orb_true_r. reflexivity.
    + destruct (IH _ Hs) as (Hnn & Hp & Hfold).
      split; [exact Hnn|]. split; [|exact Hfold].
      rewrite Hp. reflexivity.
Qed.

(** The score is [+0], positive, or [+Infinity]. *)
Lemma calculateTFIDFScore_nonNegative us uk d sk rq :
  Number.nonNegative (calculateTFIDFScore us uk d sk rq) = true.
Proof.
  unfold calculateTFIDFScore.
  destruct (_ || _); [reflexivity|].
  destruct (WordTokenizer_tokenize _) as [ut|]; [|reflexivity].
  destruct (WordTokenizer_tokenize _) as [jt|]; [|reflexivity].
  destruct (_ || _); [reflexivity|].
  apply accumulate_spec. reflexivity.
Qed.


(** C6. [calculateTFIDFScore] is never negative; it is exactly 0 when the
    profile text or the listing text gives the tokenizer no token, in
    particular for a profile without skills and keywords, and for a
    listing with an empty description and no skills or requirements. *)
Theorem C6_score_nonnegative_zero_on_empty :
  (forall us uk d sk rq,
     Number.le Number.zero (calculateTFIDFScore us uk d sk rq) = true) /\
  (forall us uk d sk rq,
     default [] (WordTokenizer_tokenize (userTextOf us uk)) = [] \/
     default [] (WordTokenizer_tokenize (jobTextOf d sk rq)) = [] ->
     calculateTFIDFScore us uk d sk rq = Number.zero) /\
  (forall us uk d sk rq,
     default [] us = [] -> default [] uk = [] ->
     calculateTFIDFScore us uk d sk rq = Number.zero) /\
  (forall us uk d sk rq,
     default [] d = [] -> default [] sk = [] -> default [] rq = [] ->
     calculateTFIDFScore us uk d sk rq = Number.zero).
Proof.
  repeat split.
  - intros.
    apply le_units;
      [reflexivity | apply calculateTFIDFScore_nonNegative |].
    pose proof (calculateTFIDFScore_nonNegative us uk d sk rq) as Hnn.
    destruct (nonNegative_cases _ Hnn) as [-> | [-> | (m & e & -> & Hb)]].
    + reflexivity.
    + discriminate.
    + pose proof (units_finite m e Hb). change (Number.units Number.zero) with 0. lia.
  - intros us uk d sk rq Hempty. unfold calculateTFIDFScore.
    destruct (_ || _); [reflexivity|].
    destruct (WordTokenizer_tokenize (userTextOf us uk)) as [ut|]; [|reflexivity].
    destruct (WordTokenizer_tokenize (jobTextOf d sk rq)) as [jt|]; [|reflexivity].
    simpl in Hempty. destruct Hempty as [-> | ->]; simpl;
      rewrite ?orb_true_r; reflexivity.
  - intros us uk d sk rq Hs Hk. unfold calculateTFIDFScore, userTextOf.
    rewrite Hs, Hk. simpl. rewrite toLowerCase_empty.
    rewrite orb_true_r. reflexivity.
  - intros us uk d sk rq Hd Hsk Hrq. unfold calculateTFIDFScore, jobTextOf.
    rewrite Hd, Hsk, Hrq. simpl. rewrite toLowerCase_empty. reflexivity.
Qed.

End ScorerFacts.

Section ScorerExamples.
Import Samples.
Existing Instances asciiEngine countingNatural.

(** A profile made of punctuation only tokenizes to nothing and scores 0,
    although its text is not blank. *)
Lemma C6_witness :
  default [] (WordTokenizer_tokenize
                (Recommendation.userTextOf (Some [js "!!!"]) None)) = [] /\
  Recommendation.calculateTFIDFScore (Some [js "!!!"]) None
    (Some (js "Python backend role")) None None = Number.zero /\
  Recommendation.calculateTFIDFScore None (Some []) (Some (js "Python")) None None =
    Number.zero /\
  Recommendation.calculateTFIDFScore (Some [js "Python"]) None (Some []) None (Some []) =
    Number.zero.
Proof.
  pose proof (@C6_score_nonnegative_zero_on_empty asciiEngine countingNatural)
    as (_ & Htok & Huser & Hjob).
  split; [reflexivity|]. split; [|split].
  - apply Htok. left. reflexivity.
  - apply Huser; reflexivity.
  - apply Hjob; reflexivity.
Defined.

(** The weights of one to six occurrences are the doubles the engine
    computes, such as 0.3068528194400547 for one occurrence and
    1.5342640972002735 for five; the sums [w5 + w5] and [w4 + w6] are the
    same double although the exact sums differ. *)
Example weights_round :
  weightOf 1 = S754_finite false 5527768973151266 (-54) /\
  weightOf 4 = S754_finite false 5527768973151266 (-52) /\
  weightOf 5 = S754_finite false 6909711216439082 (-52) /\
  weightOf 6 = S754_finite false 8291653459726899 (-52) /\
  Number.add (weightOf 5) (weightOf 5) = Number.add (weightOf 4) (weightOf 6) /\
  Number.units (weightOf 5) + Number.units (weightOf 5) <>
  Number.units (weightOf 4) + Number.units (weightOf 6).
Proof. repeat split; vm_compute; congruence. Qed.

End ScorerExamples.

(** ** Sorting by a key, descending *)

Lemma sort_insert_perm {A} (compare : A -> A -> Q) x l :
  Permutation (sort_insert compare x l) (x :: l).
Proof.
  induction l as [|y l IH]; simpl; [reflexivity|].
  destruct (Qle_bool (compare x y) 0); [reflexivity|].
  rewrite IH. apply perm_swap.
Qed.

Lemma Array_sort_perm {A} (compare : A -> A -> Q) l :
  Permutation (Array_sort compare l) l.
Proof.
  induction l as [|x l IH]; simpl; [reflexivity|].
  rewrite sort_insert_perm. apply perm_skip, IH.
Qed.

Lemma sort_insert_map {A B} (f : A -> B) (compare : A -> A -> Q)
    (compare' : B -> B -> Q) x l :
  (forall a b, compare' (f a) (f b) = compare a b) ->
  sort_insert compare' (f x) (map f l) = map f (sort_insert compare x l).
Proof.
  intros Hf. induction l as [|y l IH]; [reflexivity|].
  cbn [map sort_insert]. rewrite Hf.
  destruct (Qle_bool (compare x y) 0); [reflexivity|].
  cbn [map]. rewrite IH. reflexivity.
Qed.

(** Sorting decorated elements is sorting the elements. *)
Lemma Array_sort_map {A B} (f : A -> B) (compare : A -> A -> Q)
    (compare' : B -> B -> Q) l :
  (forall a b, compare' (f a) (f b) = compare a b) ->
  Array_sort compare' (map f l) = map f (Array_sort compare l).
Proof.
  intros Hf. induction l as [|x l IH]; [reflexivity|].
  cbn [map Array_sort]. rewrite IH. apply sort_insert_map. exact Hf.
Qed.

Lemma StronglySorted_weaken {A} (R R' : A -> A -> Prop) l :
  (forall a b, R a b -> R' a b) -> StronglySorted R l -> StronglySorted R' l.
Proof.
  intros HR. induction 1 as [|a l Hs IH Ha]; constructor; [exact IH|].
  eapply Forall_impl; [exact Ha | exact (HR a)].
Qed.

(** The sort reads nothing but whether the comparator is above 0. *)
Lemma sort_insert_ext {A} (compare compare' : A -> A -> Q) x l :
  (forall a b, Qle_bool (compare a b) 0 = Qle_bool (compare' a b) 0) ->
  sort_insert compare x l = sort_insert compare' x l.
Proof.
  intros Hc. induction l as [|y l IH]; [reflexivity|].
  cbn [sort_insert]. rewrite Hc, IH. reflexivity.
Qed.

Lemma Array_sort_ext {A} (compare compare' : A -> A -> Q) l :
  (forall a b, Qle_bool (compare a b) 0 = Qle_bool (compare' a b) 0) ->
  Array_sort compare l = Array_sort compare' l.
Proof.
  intros Hc. induction l as [|x l IH]; [reflexivity|].
  cbn [Array_sort]. rewrite IH. apply sort_insert_ext. exact Hc.
Qed.

Section SortFacts.
Context {A : Type} (key : A -> Q).

(** The comparator [(a, b) => key(b) - key(a)]. *)
Let descending (a b : A) : Q := (key b - key a)%Q.

Lemma descending_le x y :
  Qle_bool (descending x y) 0 = true <-> (key y <= key x)%Q.
Proof. unfold descending. rewrite Qle_bool_iff. split; intros; lra. Qed.

Lemma sort_insert_sorted x l :
  StronglySorted (fun a b => (key b <= key a)%Q) l ->
  StronglySorted (fun a b => (key b <= key a)%Q) (sort_insert descending x l).
Proof.
  induction 1 as [|y l Hs IH Hy]; simpl.
  - constructor; constructor.
  - destruct (Qle_bool (descending x y) 0) eqn:Hc.
    + apply descending_le in Hc.
      constructor; [constructor; assumption|].
      constructor; [exact Hc|].
      eapply Forall_impl; [exact Hy|]. simpl. intros z Hz. lra.
    + assert (Hlt : (key x < key y)%Q).
      { apply Qnot_le_lt. intros Hle. apply descending_le in Hle. congruence. }
      constructor; [exact IH|].
      eapply Permutation_Forall; [symmetry; apply sort_insert_perm|].
      constructor; [lra | exact Hy].
Qed.

Lemma Array_sort_sorted l :
  StronglySorted (fun a b => (key b <= key a)%Q) (Array_sort descending l).
Proof.
  induction l as [|x l IH]; simpl; [constructor|].
  apply sort_insert_sorted, IH.
Qed.



End SortFacts.

(** ** Maps and the look-up of ranked identifiers *)

Section MapFacts.
Context {A : Type}.

Lemma Map_new_from_other (m : gmap jsstring A) entries k :
  ~ In k (map fst entries) ->
  foldl (fun m entry => <[entry.1 := entry.2]> m) m entries !! k = m !! k.
Proof.
  revert m. induction entries as [|[k' v'] entries IH]; intros m Hk; simpl.
  - reflexivity.
  - simpl in Hk. rewrite IH by tauto.
    apply lookup_insert_ne. intros ->. tauto.
Qed.

Lemma Map_new_from_Some (m : gmap jsstring A) entries k v :
  foldl (fun m entry => <[entry.1 := entry.2]> m) m entries !! k = Some v ->
  In (k, v) entries \/ m !! k = Some v.
Proof.
  revert m. induction entries as [|[k' v'] entries IH]; intros m Hk; simpl in *.
  - right. exact Hk.
  - apply IH in Hk. destruct Hk as [Hin | Hm]; [tauto|].
    destruct (decide (k' = k)) as [->|Hne].
    + rewrite lookup_insert_eq in Hm. left. left. congruence.
    + rewrite lookup_insert_ne in Hm by exact Hne. tauto.
Qed.

Lemma Map_new_from_NoDup (m : gmap jsstring A) entries k v :
  List.NoDup (map fst entries) -> In (k, v) entries ->
  foldl (fun m entry => <[entry.1 := entry.2]> m) m entries !! k = Some v.
Proof.
  revert m. induction entries as [|[k' v'] entries IH]; intros m Hnd Hin; simpl in *.
  - contradiction.
  - inversion Hnd as [|? ? Hnotin Hnd']; subst.
    destruct Hin as [Heq | Hin].
    + inversion Heq; subst. rewrite Map_new_from_other by exact Hnotin.
      apply lookup_insert_eq.
    + apply IH; assumption.
Qed.

End MapFacts.

Section LookupFacts.
Import Recommendation.

Lemma jobMap_lookup_Some jobs s job :
  jobMapOf jobs !! s = Some job -> In job jobs /\ _id job = s.
Proof.
  unfold jobMapOf, Map_new. intros Hl.
  apply Map_new_from_Some in Hl. destruct Hl as [Hin | Hempty].
  - apply in_map_iff in Hin. destruct Hin as (j & Hj & Hin).
    inversion Hj; subst. split; [assumption | reflexivity].
  - rewrite lookup_empty in Hempty. discriminate.
Qed.

Lemma jobMap_lookup_id jobs job :
  List.NoDup (map _id jobs) -> In job jobs ->
  jobMapOf jobs !! _id job = Some job.
Proof.
  intros Hnd Hin. unfold jobMapOf, Map_new.
  apply Map_new_from_NoDup.
  - rewrite map_map. exact Hnd.
  - apply in_map_iff. exists job. split; [reflexivity | exact Hin].
Qed.

(** Every job found for a ranked identifier belongs to the collection. *)
Lemma looked_up_in_collection jobs ids job :
  In job (filter_defined (map (fun id => Map_get (jobMapOf jobs) id) ids)) ->
  In job jobs.
Proof.
  induction ids as [|id ids IH]; simpl; [contradiction|].
  destruct (Map_get (jobMapOf jobs) id) as [j|] eqn:Hget; [|exact IH].
  intros [<- | Hin]; [|exact (IH Hin)].
  destruct id; simpl in Hget; try discriminate.
  apply jobMap_lookup_Some in Hget. tauto.
Qed.

(** The identifiers of the jobs found are the ranked identifiers, in
    order, without those that name no job. *)
Lemma looked_up_sublist jobs ids :
  sublist
    (map (fun job => Str (_id job))
       (filter_defined (map (fun id => Map_get (jobMapOf jobs) id) ids)))
    ids.
Proof.
  induction ids as [|id ids IH]; simpl; [constructor|].
  destruct (Map_get (jobMapOf jobs) id) as [j|] eqn:Hget.
  - destruct id; simpl in Hget; try discriminate.
    apply jobMap_lookup_Some in Hget. destruct Hget as [_ <-].
    simpl. apply sublist_skip, IH.
  - apply sublist_cons, IH.
Qed.

Lemma Map_new_from_keeps {A} (m : gmap jsstring A) entries k :
  is_Some (m !! k) ->
  is_Some (foldl (fun m entry => <[entry.1 := entry.2]> m) m entries !! k).
Proof.
  revert m. induction entries as [|[k' v'] entries IH]; intros m Hk; simpl.
  - exact Hk.
  - apply IH. destruct (decide (k' = k)) as [->|Hne].
    + rewrite lookup_insert_eq. eexists. reflexivity.
    + rewrite lookup_insert_ne by exact Hne. exact Hk.
Qed.

Lemma Map_new_from_key {A} (m : gmap jsstring A) entries k :
  In k (map fst entries) ->
  is_Some (foldl (fun m entry => <[entry.1 := entry.2]> m) m entries !! k).
Proof.
  revert m. induction entries as [|[k' v'] entries IH]; intros m Hk; simpl in *.
  - contradiction.
  - destruct Hk as [-> | Hk]; [|apply IH; exact Hk].
    apply Map_new_from_keeps. rewrite lookup_insert_eq. eexists. reflexivity.
Qed.

(** A ranked identifier is found exactly when it names a listing, and
    the listing found has that identifier. *)
Lemma Map_get_inCollection jobs id :
  match Map_get (jobMapOf jobs) id with
  | Some job => inCollection jobs id = true /\ Str (_id job) = id
  | None => inCollection jobs id = false
  end.
Proof.
  destruct id; simpl; try reflexivity.
  destruct (jobMapOf jobs !! s) as [job|] eqn:Hget.
  - apply jobMap_lookup_Some in Hget. destruct Hget as [Hin <-].
    split; [|reflexivity]. apply bool_decide_eq_true_2.
    apply list_elem_of_In. apply in_map. exact Hin.
  - apply bool_decide_eq_false_2. intros Hin. apply list_elem_of_In in Hin.
    assert (Hsome : is_Some (jobMapOf jobs !! s)).
    { unfold jobMapOf, Map_new. apply Map_new_from_key.
      rewrite map_map. exact Hin. }
    rewrite Hget in Hsome. destruct Hsome as [? Hsome]. discriminate Hsome.
Qed.

(** The identifiers of the jobs found are exactly the ranked identifiers
    that name a listing, in ranked order and as often as they are
    named. *)
Lemma looked_up_ids jobs ids :
  map (fun job => Str (_id job))
    (filter_defined (map (fun id => Map_get (jobMapOf jobs) id) ids)) =
  List.filter (inCollection jobs) ids.
Proof.
  induction ids as [|id ids IH]; simpl; [reflexivity|].
  pose proof (Map_get_inCollection jobs id) as Hid.
  destruct (Map_get (jobMapOf jobs) id) as [job|].
  - destruct Hid as [Hin Heq]. rewrite Hin. simpl. rewrite Heq.
    f_equal. exact IH.
  - rewrite Hid. exact IH.
Qed.

Lemma Array_slice0_map {A B} (f : A -> B) (l : list A) end_ :
  Array_slice0 (map f l) end_ = map f (Array_slice0 l end_).
Proof.
  unfold Array_slice0. rewrite length_map. apply firstn_map.
Qed.

(** With distinct identifiers, looking up the identifiers of jobs of the
    collection gives these jobs back. *)
Lemma looked_up_own_ids jobs l :
  List.NoDup (map _id jobs) -> (forall job, In job l -> In job jobs) ->
  filter_defined
    (map (fun id => Map_get (jobMapOf jobs) id)
       (map (fun job => Str (_id job)) l)) = l.
Proof.
  intros Hnd. induction l as [|j l IH]; intros Hsub; simpl; [reflexivity|].
  rewrite (jobMap_lookup_id jobs j Hnd) by (apply Hsub; left; reflexivity).
  f_equal. apply IH. intros job Hin. apply Hsub. right. exact Hin.
Qed.

Lemma Array_slice0_take {A} (l : list A) end_ :
  exists n, Array_slice0 l end_ = take n l /\
            (0 <= end_ -> Z.of_nat n <= end_) /\
            (Z.of_nat (length l) <= end_ -> Array_slice0 l end_ = l).
Proof.
  unfold Array_slice0. eexists. split; [reflexivity|]. split.
  - intros Hnn. destruct (Z.ltb_spec end_ 0); lia.
  - intros Hlen. destruct (Z.ltb_spec end_ 0); [lia|].
    apply firstn_all2. lia.
Qed.

End LookupFacts.

(** ** The ranking orchestrator *)

Section RankFacts.
Import Recommendation.
Context `{Engine} `{Natural}.

(** The external ranking never throws to its caller. *)
Lemma getOpenAIRecommendations_returns w user jobs :
  exists v, result (getOpenAIRecommendations w user jobs) = Returns v.
Proof.
  unfold getOpenAIRecommendations.
  destruct (OPENAI_API_KEY w); simpl; [|eexists; reflexivity].
  destruct (build_prompt jobs) as [[]|e]; simpl; [|eexists; reflexivity].
  destruct (openai_chat w user jobs) as [content|e]; simpl; [|eexists; reflexivity].
  destruct (JSON_parse (trim content)) as [v|e]; simpl; eexists; reflexivity.
Qed.

Lemma unavailable_gives_null w user jobs :
  rankingUnavailable w user jobs ->
  result (getOpenAIRecommendations w user jobs) = Returns Null.
Proof.
  unfold getOpenAIRecommendations.
  intros [Hkey | [(e & Hchat) | (content & e & Hchat & Hparse)]].
  - rewrite Hkey. reflexivity.
  - destruct (OPENAI_API_KEY w); simpl; [|reflexivity].
    destruct (build_prompt jobs) as [[]|e']; simpl; [|reflexivity].
    rewrite Hchat. reflexivity.
  - destruct (OPENAI_API_KEY w); simpl; [|reflexivity].
    destruct (build_prompt jobs) as [[]|e']; simpl; [|reflexivity].
    rewrite Hchat. simpl. rewrite Hparse. reflexivity.
Qed.

Lemma score_all_jobs user jobs :
  mapM (fun job => emit (EvScore (_id job));; ret (job, scoreOf user job)) jobs =
  (map (fun job => EvScore (_id job)) jobs,
   Returns (map (fun job => (job, scoreOf user job)) jobs)).
Proof.
  induction jobs as [|j jobs IH]; [reflexivity|].
  cbn [mapM]. rewrite IH. unfold bind, ret, emit. simpl.
  rewrite app_nil_r. reflexivity.
Qed.

Lemma tfidfRanking_result user jobs :
  result (tfidfRanking user jobs) =
  Returns (Arr (map (fun job => Str (_id job)) (fallbackOrder user jobs))).
Proof.
  unfold tfidfRanking, fallbackOrder. rewrite score_all_jobs.
  unfold bind, ret, result. simpl. rewrite map_map. reflexivity.
Qed.

(** A falsy external ranking hands over to the fallback. *)
Lemma rankJobIds_fallback w user jobs v :
  result (getOpenAIRecommendations w user jobs) = Returns v ->
  truthy v = false ->
  result (rankJobIds w user jobs) =
  Returns (Arr (map (fun job => Str (_id job)) (fallbackOrder user jobs))).
Proof.
  intros Hv Hfalsy. unfold rankJobIds.
  destruct (getOpenAIRecommendations w user jobs) as [t r]. simpl in Hv. subst r.
  unfold bind. rewrite Hfalsy. simpl.
  pose proof (tfidfRanking_result user jobs) as Hr.
  destruct (tfidfRanking user jobs) as [t' r']. simpl in *. exact Hr.
Qed.

Lemma scoreOf_nonNegative user job :
  Number.nonNegative (scoreOf user job) = true.
Proof. apply calculateTFIDFScore_nonNegative. Qed.

(** The value of a job's score, as a key to sort by. *)
Let scoreKey (user : User) (job : Job) : Q :=
  inject_Z (Number.units (scoreOf user job)).

(** Sorting by the sign of the differences of the scores is sorting by
    the values of the scores, descending. *)
Lemma fallbackOrder_sort user jobs :
  fallbackOrder user jobs =
  Array_sort (fun a b => (scoreKey user b - scoreKey user a)%Q) jobs.
Proof.
  unfold fallbackOrder.
  rewrite (Array_sort_map (fun job => (job, scoreOf user job))
             (fun a b => Number.sortSign
                           (Number.sub (scoreOf user b) (scoreOf user a)))
             byScoreDescending) by reflexivity.
  rewrite map_map. cbn [fst]. rewrite map_id.
  apply Array_sort_ext. intros a b.
  apply sub_sortSign_le; apply scoreOf_nonNegative.
Qed.



Lemma fallbackOrder_perm user jobs : Permutation (fallbackOrder user jobs) jobs.
Proof. rewrite fallbackOrder_sort. apply Array_sort_perm. Qed.

(** What [getRecommendations] returns once the user and a non-empty
    collection are found. *)
Lemma getRecommendations_found w userId limit user jobs :
  User_findById w userId = Returns (Some user) ->
  Job_find_active w = Returns jobs ->
  jobs <> [] ->
  result (getRecommendations w userId limit) =
  match result (rankJobIds w user jobs) with
  | Returns (Arr ids) =>
      Returns (Array_slice0
                 (filter_defined (map (fun id => Map_get (jobMapOf jobs) id) ids))
                 (default 10 limit))
  | Returns _ => Throws (mkError TypeError (js "rankedJobIds.map is not a function"))
  | Throws e => Throws e
  end.
Proof.
  intros Hu Hj Hne. unfold getRecommendations.
  unfold try_catch, bind at 1 2 3 4, emit, lift, result. rewrite Hu, Hj.
  destruct jobs as [|j jobs]; [congruence|]. cbn [length Nat.eqb].
  destruct (rankJobIds w user (j :: jobs)) as [t [v|e]]; simpl.
  - destruct v; reflexivity.
  - reflexivity.
Qed.

(** On the fallback path the collection comes back in fallback order. *)
Lemma getRecommendations_fallback w userId limit user jobs :
  User_findById w userId = Returns (Some user) ->
  Job_find_active w = Returns jobs ->
  List.NoDup (map _id jobs) ->
  (exists v, result (getOpenAIRecommendations w user jobs) = Returns v /\
             truthy v = false) ->
  result (getRecommendations w userId limit) =
  Returns (Array_slice0 (fallbackOrder user jobs) (default 10 limit)).
Proof.
  intros Hu Hj Hnd (v & Hv & Hfalsy).
  destruct jobs as [|j jobs].
  - unfold getRecommendations, try_catch, bind, emit, lift, result.
    rewrite Hu, Hj. unfold Array_slice0. cbn. rewrite firstn_nil. reflexivity.
  - rewrite (getRecommendations_found w userId limit user (j :: jobs))
      by (assumption || discriminate).
    rewrite (rankJobIds_fallback w user (j :: jobs) v Hv Hfalsy).
    rewrite looked_up_own_ids; [reflexivity | exact Hnd |].
    intros job Hin. eapply Permutation_in; [apply fallbackOrder_perm | exact Hin].
Qed.


End RankFacts.

Section RankClaims.
Import Recommendation.
Context `{Engine} `{Natural}.

(** C10. When the user is found and there is no active listing,
    [getRecommendations] returns the empty sequence after the two
    look-ups: it sends no request to the external ranking service and
    scores nothing. *)
Theorem C10_empty_collection_returns_at_once w userId limit user :
  User_findById w userId = Returns (Some user) ->
  Job_find_active w = Returns [] ->
  result (getRecommendations w userId limit) = Returns [] /\
  trace (getRecommendations w userId limit) =
    [EvFindUser userId; EvFindActiveJobs] /\
  ~ In EvOpenAIRequest (trace (getRecommendations w userId limit)) /\
  (forall jobId, ~ In (EvScore jobId) (trace (getRecommendations w userId limit))).
Proof.
  intros Hu Hj.
  assert (Hrun : getRecommendations w userId limit =
                 ([EvFindUser userId; EvFindActiveJobs], Returns [])).
  { unfold getRecommendations, try_catch, bind, emit, lift.
    rewrite Hu, Hj. reflexivity. }
  rewrite Hrun. simpl. repeat split.
  - intros [Hev | [Hev | []]]; discriminate.
  - intros jobId [Hev | [Hev | []]]; discriminate.
Qed.

(** C9. On the fallback path, over a non-empty collection with distinct
    identifiers, the sequence ranked before truncation is a permutation of
    the collection, so every listing occurs in it exactly once, whatever
    its score; [getRecommendations] returns its first [limit] elements,
    and the whole permutation when [limit] is at least the number of
    listings. *)
Theorem C9_fallback_ranks_every_listing w userId limit user jobs :
  User_findById w userId = Returns (Some user) ->
  Job_find_active w = Returns jobs ->
  jobs <> [] ->
  List.NoDup (map _id jobs) ->
  rankingUnavailable w user jobs ->
  Permutation (fallbackOrder user jobs) jobs /\
  (forall job, In job jobs -> In job (fallbackOrder user jobs)) /\
  List.NoDup (fallbackOrder user jobs) /\
  result (getRecommendations w userId limit) =
    Returns (Array_slice0 (fallbackOrder user jobs) (default 10 limit)) /\
  (Z.of_nat (length jobs) <= default 10 limit ->
   result (getRecommendations w userId limit) = Returns (fallbackOrder user jobs)).
Proof.
  intros Hu Hj Hne Hnd Hun.
  pose proof (fallbackOrder_perm user jobs) as Hperm.
  assert (Hrun : result (getRecommendations w userId limit) =
                 Returns (Array_slice0 (fallbackOrder user jobs) (default 10 limit))).
  { apply getRecommendations_fallback; try assumption.
    exists Null. split; [apply unavailable_gives_null; exact Hun | reflexivity]. }
  split; [exact Hperm|]. split; [|split; [|split]].
  - intros job Hin. eapply Permutation_in; [symmetry; exact Hperm | exact Hin].
  - eapply Permutation_NoDup; [symmetry; exact Hperm|].
    eapply NoDup_map_inv. exact Hnd.
  - exact Hrun.
  - intros Hlimit. rewrite Hrun. f_equal.
    destruct (Array_slice0_take (fallbackOrder user jobs) (default 10 limit))
      as (n & _ & _ & Hall).
    apply Hall. rewrite (Permutation_length Hperm). exact Hlimit.
Qed.


(** C1 (amended). When the user is found, the collection is not empty and
    the ranked identifiers are an array, [getRecommendations] returns a
    sequence of listings of the collection; their identifiers are exactly
    the ranked identifiers that name a listing, in ranked order and as
    often as they are named, cut by [slice(0, limit)]; for a non-negative
    [limit] the sequence has at most [limit] elements; no identifier is
    repeated when the ranked identifiers have no repetition, which is the
    case on the fallback path over distinct identifiers. *)
Theorem C1_rank_stays_within_collection w userId limit user jobs rankedIds :
  User_findById w userId = Returns (Some user) ->
  Job_find_active w = Returns jobs ->
  jobs <> [] ->
  result (rankJobIds w user jobs) = Returns (Arr rankedIds) ->
  exists l,
    result (getRecommendations w userId limit) = Returns l /\
    (forall job, In job l -> In job jobs) /\
    map (fun job => Str (_id job)) l =
      Array_slice0 (List.filter (inCollection jobs) rankedIds) (default 10 limit) /\
    sublist (map (fun job => Str (_id job)) l) rankedIds /\
    (0 <= default 10 limit -> Z.of_nat (length l) <= default 10 limit) /\
    (List.NoDup rankedIds -> List.NoDup (map _id l)) /\
    (rankingUnavailable w user jobs -> List.NoDup (map _id jobs) ->
     List.NoDup (map _id l)).
Proof.
  intros Hu Hj Hne Hranked.
  pose proof (getRecommendations_found w userId limit user jobs Hu Hj Hne) as Hrun.
  rewrite Hranked in Hrun.
  assert (Hexact :
            map (fun job => Str (_id job))
              (Array_slice0
                 (filter_defined (map (fun id => Map_get (jobMapOf jobs) id) rankedIds))
                 (default 10 limit)) =
            Array_slice0 (List.filter (inCollection jobs) rankedIds) (default 10 limit)).
  { rewrite <- Array_slice0_map, looked_up_ids. reflexivity. }
  set (found := filter_defined (map (fun id => Map_get (jobMapOf jobs) id) rankedIds)) in *.
  destruct (Array_slice0_take found (default 10 limit)) as (n & Hslice & Hbound & _).
  rewrite Hslice in Hrun, Hexact.
  assert (Hsub : sublist (map (fun job => Str (_id job)) (take n found)) rankedIds).
  { etransitivity; [|apply looked_up_sublist].
    fold found. rewrite <- firstn_map. apply sublist_take. }
  assert (Hnodup : List.NoDup rankedIds -> List.NoDup (map _id (take n found))).
  { intros Hnd. apply (NoDup_map_inv Str). rewrite map_map.
    apply NoDup_ListNoDup.
    eapply sublist_NoDup; [apply NoDup_ListNoDup; exact Hnd | exact Hsub]. }
  exists (take n found). split; [exact Hrun|].
  split; [|split; [exact Hexact|split; [exact Hsub|split; [|split; [exact Hnodup|]]]]].
  - intros job Hin. apply (looked_up_in_collection jobs rankedIds).
    fold found. apply list_elem_of_In.
    eapply elem_of_sublist; [apply list_elem_of_In; exact Hin | apply sublist_take].
  - intros Hnn. specialize (Hbound Hnn).
    rewrite length_take. lia.
  - intros Hun Hnd. apply Hnodup.
    rewrite (rankJobIds_fallback w user jobs Null) in Hranked;
      [|apply unavailable_gives_null; exact Hun | reflexivity].
    inversion Hranked as [Hids].
    rewrite <- (map_map _id Str). apply Finite.Injective_map_NoDup.
    + intros a b Hab. congruence.
    + eapply Permutation_NoDup; [|exact Hnd].
      apply Permutation_map. symmetry. apply fallbackOrder_perm.
Qed.

End RankClaims.

Section RankExamples.
Import Recommendation Samples.
Existing Instances asciiEngine countingNatural.

Lemma C10_witness :
  result (getRecommendations noJobsWorld (js "alice") None) = Returns [] /\
  trace (getRecommendations noJobsWorld (js "alice") None) =
    [EvFindUser (js "alice"); EvFindActiveJobs] /\
  ~ In EvOpenAIRequest (trace (getRecommendations noJobsWorld (js "alice") None)) /\
  (forall jobId,
     ~ In (EvScore jobId) (trace (getRecommendations noJobsWorld (js "alice") None))).
Proof.
  apply (C10_empty_collection_returns_at_once noJobsWorld (js "alice") None alice);
    reflexivity.
Defined.

Lemma threeJobs_distinct : List.NoDup (map _id threeJobs).
Proof.
  simpl. repeat (constructor; [simpl; intuition discriminate|]). constructor.
Defined.

Lemma C9_witness :
  Permutation (fallbackOrder alice threeJobs) threeJobs /\
  (forall job, In job threeJobs -> In job (fallbackOrder alice threeJobs)) /\
  List.NoDup (fallbackOrder alice threeJobs) /\
  result (getRecommendations offlineThree (js "alice") None) =
    Returns (Array_slice0 (fallbackOrder alice threeJobs) 10) /\
  (Z.of_nat (length threeJobs) <= 10 ->
   result (getRecommendations offlineThree (js "alice") None) =
     Returns (fallbackOrder alice threeJobs)).
Proof.
  apply (C9_fallback_ranks_every_listing offlineThree (js "alice") None alice threeJobs).
  - reflexivity.
  - reflexivity.
  - discriminate.
  - exact threeJobs_distinct.
  - left. reflexivity.
Defined.

(** The fallback order of the three sample jobs: C (0.92...), A (0.61...),
    B (0). *)
Example fallbackOrder_threeJobs :
  fallbackOrder alice threeJobs = [jobC; jobA; jobB] /\
  scoreOf alice jobC = S754_finite false 8291653459726899 (-53) /\
  scoreOf alice jobA = S754_finite false 5527768973151266 (-53) /\
  scoreOf alice jobB = Number.zero.
Proof. repeat split; vm_compute; reflexivity. Qed.

(** The scores of [jobP] and [jobQ] are the same number, so that either
    stays in front of the other when the collection has it in front. *)
Example fallbackOrder_tie :
  Number.eqb (scoreOf alice jobP) (scoreOf alice jobQ) = true /\
  fallbackOrder alice [jobP; jobQ] = [jobP; jobQ] /\
  fallbackOrder alice [jobQ; jobP] = [jobQ; jobP].
Proof. repeat split; vm_compute; reflexivity. Qed.


(** The identifier [zz] names no job and is dropped. *)
Lemma C1_witness :
  exists l,
    result (getRecommendations strayIdWorld (js "alice") None) = Returns l /\
    (forall job, In job l -> In job [jobA; jobB]) /\
    map (fun job => Str (_id job)) l =
      Array_slice0
        (List.filter (inCollection [jobA; jobB])
           [Str (js "j2"); Str (js "zz"); Str (js "j1")]) 10 /\
    sublist (map (fun job => Str (_id job)) l)
      [Str (js "j2"); Str (js "zz"); Str (js "j1")] /\
    (0 <= 10 -> Z.of_nat (length l) <= 10) /\
    (List.NoDup [Str (js "j2"); Str (js "zz"); Str (js "j1")] ->
     List.NoDup (map _id l)) /\
    (rankingUnavailable strayIdWorld alice [jobA; jobB] ->
     List.NoDup (map _id [jobA; jobB]) -> List.NoDup (map _id l)).
Proof.
  apply (C1_rank_stays_within_collection strayIdWorld (js "alice") None alice
           [jobA; jobB] [Str (js "j2"); Str (js "zz"); Str (js "j1")]).
  - reflexivity.
  - reflexivity.
  - discriminate.
  - vm_compute. reflexivity.
Defined.

(** A reply that parses to something else than an array makes
    [getRecommendations] itself throw. *)
Example non_array_ranking_throws :
  result (getRecommendations (onlineWorld [jobA; jobB] (js "{}")) (js "alice") None) =
  Throws (mkError TypeError (js "rankedJobIds.map is not a function")).
Proof. vm_compute. reflexivity. Qed.

(** C1 as stated fails.  An external ranking that names job [j1] twice
    makes [getRecommendations] return that job twice; and with the limit
    -1 the fallback returns two of three jobs, more than the limit. *)
Lemma C1_counterexample :
  (User_findById repeatingWorld (js "alice") = Returns (Some alice) /\
   Job_find_active repeatingWorld = Returns [jobA; jobB] /\
   result (getRecommendations repeatingWorld (js "alice") None) =
     Returns [jobA; jobA] /\
   ~ List.NoDup (map _id [jobA; jobA])) /\
  (User_findById offlineThree (js "alice") = Returns (Some alice) /\
   Job_find_active offlineThree = Returns threeJobs /\
   result (getRecommendations offlineThree (js "alice") (Some (-1))) =
     Returns [jobC; jobA] /\
   ~ (Z.of_nat (length [jobC; jobA]) <= -1)).
Proof.
  split.
  - split; [reflexivity|]. split; [reflexivity|]. split.
    + vm_compute. reflexivity.
    + intros Hnd. inversion Hnd as [|? ? Hnotin _]. apply Hnotin. left. reflexivity.
  - split; [reflexivity|]. split; [reflexivity|]. split.
    + vm_compute. reflexivity.
    + simpl. lia.
Qed.

End RankExamples.

(** ** The query interpreter *)

Section InterpreterFacts.
Import Groq.
Context `{Engine}.

Lemma extractKeywords_string_returns (s : jsstring) :
  exists extracted, extractKeywords (Str s) = Returns extracted.
Proof. unfold extractKeywords. destruct s; simpl; eexists; reflexivity. Qed.

Lemma is_blank_string (s : jsstring) :
  is_blank (Str s) = Returns (bool_decide (trim s = [])).
Proof. destruct s; reflexivity. Qed.

(** A failed request, an empty content and an unparsable content all make
    [askGroq] throw. *)
Lemma askGroq_failed w searchText :
  GROQ_API_KEY w = true ->
  upstreamFailed w searchText ->
  exists e, result (askGroq w searchText) = Throws e.
Proof.
  intros Hkey Hfail. unfold askGroq, bind, emit, lift, throw, try_catch, result.
  destruct Hfail as [Hno | [(e & Hc) | [Hc | [Hc | (c & e & Hc & Hp & Hrec)]]]].
  - congruence.
  - rewrite Hc. eexists. reflexivity.
  - rewrite Hc. eexists. reflexivity.
  - rewrite Hc. eexists. reflexivity.
  - rewrite Hc. destruct c as [|c0 c]; [eexists; reflexivity|].
    rewrite Hp. destruct Hrec as [Hnone | (g & e' & Hsome & Hp')].
    + rewrite Hnone. eexists. reflexivity.
    + rewrite Hsome, Hp'. eexists. reflexivity.
Qed.

(** The three ways [processSearchQuery] ends on a string: the neutral
    intent for a blank text, the direct-search intent when the service is
    not configured or the attempt throws, and an AI-derived intent. *)
Lemma processSearchQuery_cases w (s : jsstring) :
  (trim s = [] /\
   result (processSearchQuery w (Str s)) = Returns (neutralIntent (Str s))) \/
  (trim s <> [] /\
   exists extracted, extractKeywords (Str s) = Returns extracted /\
     ((GROQ_API_KEY w = false /\
       result (processSearchQuery w (Str s)) =
         Returns (directSearchIntent (Str s) extracted Undefined)) \/
      (GROQ_API_KEY w = true /\
       exists e,
         result (processSearchQuery w (Str s)) =
           Returns (directSearchIntent (Str s) extracted (Str (message e)))) \/
      (GROQ_API_KEY w = true /\
       exists parsed i,
         result (askGroq w (Str s)) = Returns parsed /\
         result (processSearchQuery w (Str s)) = Returns i /\
         useAI i = Bool true /\ originalQuery i = Str s))).
Proof.
  destruct (extractKeywords_string_returns s) as (extracted & Hex).
  unfold processSearchQuery. rewrite is_blank_string.
  unfold try_catch, bind at 1, lift at 1.
  destruct (bool_decide (trim s = [])) eqn:Hblank.
  - left. apply bool_decide_eq_true in Hblank. split; [exact Hblank | reflexivity].
  - right. apply bool_decide_eq_false in Hblank. split; [exact Hblank|].
    exists extracted. split; [exact Hex|].
    destruct (GROQ_API_KEY w) eqn:Hkey; simpl.
    + right. destruct (askGroq w (Str s)) as [t [parsed|e]] eqn:Hask.
      * destruct parsed; simpl; rewrite ?Hex; simpl;
          try (right; split; [reflexivity|];
               eexists; eexists; repeat split; reflexivity);
          (left; split; [reflexivity|]; eexists (mkError TypeError _); reflexivity).
      * simpl. rewrite Hex. simpl. left. split; [reflexivity|].
        exists e. reflexivity.
    + left. rewrite Hex. simpl. split; reflexivity.
Qed.

End InterpreterFacts.

Section InterpreterClaims.
Import Groq.
Context `{Engine}.

(** C2. On every string, whatever the text-understanding service does,
    [processSearchQuery] returns an intent and does not throw.  After an
    upstream failure (no credential, failed request, empty content,
    content that is not JSON) the intent is the deterministic one with
    [useAI] false: the neutral intent for a blank text, the direct-search
    intent built from [extractKeywords] otherwise. *)
Theorem C2_processSearchQuery_never_throws w (s : jsstring) :
  exists i,
    result (processSearchQuery w (Str s)) = Returns i /\
    (upstreamFailed w (Str s) ->
     useAI i = Bool false /\
     (trim s = [] -> i = neutralIntent (Str s)) /\
     (trim s <> [] ->
      exists extracted error_,
        extractKeywords (Str s) = Returns extracted /\
        i = directSearchIntent (Str s) extracted error_)).
Proof.
  destruct (processSearchQuery_cases w s)
    as [(Hblank & Hr) | (Hnb & extracted & Hex & Hcases)].
  - exists (neutralIntent (Str s)). split; [exact Hr|].
    intros _. split; [reflexivity|]. split; [reflexivity|]. congruence.
  - destruct Hcases as [(Hkey & Hr) | [(Hkey & e & Hr) | (Hkey & parsed & i & Hask & Hr & _)]].
    + eexists. split; [exact Hr|]. intros _.
      split; [reflexivity|]. split; [congruence|].
      intros _. exists extracted, Undefined. split; [exact Hex | reflexivity].
    + eexists. split; [exact Hr|]. intros _.
      split; [reflexivity|]. split; [congruence|].
      intros _. exists extracted, (Str (message e)). split; [exact Hex | reflexivity].
    + exists i. split; [exact Hr|]. intros Hfail.
      destruct (askGroq_failed w (Str s) Hkey Hfail) as (e & He). congruence.
Qed.

(** C5 (amended). On every string, when the returned intent has [useAI]
    false, its [processedQuery] is the input text itself if the text is
    not blank, and the empty string if it is blank. *)
Theorem C5_fallback_query_is_input_unless_blank w (s : jsstring) :
  exists i,
    result (processSearchQuery w (Str s)) = Returns i /\
    (useAI i = Bool false ->
     (trim s <> [] -> processedQuery i = Str s) /\
     (trim s = [] -> processedQuery i = Str [])).
Proof.
  destruct (processSearchQuery_cases w s)
    as [(Hblank & Hr) | (Hnb & extracted & Hex & Hcases)].
  - eexists. split; [exact Hr|]. intros _. split; [congruence | reflexivity].
  - destruct Hcases as [(Hkey & Hr) | [(Hkey & e & Hr) | (Hkey & parsed & i & Hask & Hr & Hai & _)]].
    + eexists. split; [exact Hr|]. intros _. split; [reflexivity | congruence].
    + eexists. split; [exact Hr|]. intros _. split; [reflexivity | congruence].
    + exists i. split; [exact Hr|]. intros Hfalse. congruence.
Qed.

End InterpreterClaims.

Section InterpreterExamples.
Import Groq Samples.
Existing Instance asciiEngine.

Lemma C2_witness :
  exists i,
    result (processSearchQuery groqFailing (Str (js "python dev"))) = Returns i /\
    useAI i = Bool false /\
    exists extracted error_,
      extractKeywords (Str (js "python dev")) = Returns extracted /\
      i = directSearchIntent (Str (js "python dev")) extracted error_.
Proof.
  destruct (C2_processSearchQuery_never_throws groqFailing (js "python dev"))
    as (i & Hr & Hfail).
  exists i. split; [exact Hr|].
  destruct Hfail as (Hai & _ & Hdirect).
  - right. left. eexists. reflexivity.
  - split; [exact Hai|]. apply Hdirect. discriminate.
Defined.

Lemma C5_witness :
  exists i,
    result (processSearchQuery groqFailing (Str (js "python dev"))) = Returns i /\
    useAI i = Bool false /\
    processedQuery i = Str (js "python dev").
Proof.
  destruct (C5_fallback_query_is_input_unless_blank groqFailing (js "python dev"))
    as (i & Hr & Hquery).
  exists i. split; [exact Hr|].
  assert (Hai : useAI i = Bool false).
  { vm_compute in Hr. inversion Hr. reflexivity. }
  split; [exact Hai|]. apply Hquery; [exact Hai | discriminate].
Defined.

(** C5 as stated fails on a text that is a single space: no external call
    is made, [useAI] is false, and [processedQuery] is the empty string,
    not the space. *)
Lemma C5_counterexample :
  exists i,
    result (processSearchQuery groqOffline (Str (js " "))) = Returns i /\
    useAI i = Bool false /\
    processedQuery i = Str [] /\
    processedQuery i <> Str (js " ").
Proof.
  eexists. split; [reflexivity|]. split; [reflexivity|].
  split; [reflexivity | discriminate].
Qed.

End InterpreterExamples.

(** ** The query builder *)

Section BuilderFacts.
Import Groq.
Context `{Engine}.

(** What [buildEnhancedQuery] returns is the base query with [$or] and
    [experience] possibly set, and nothing else touched. *)
Lemma buildEnhancedQuery_shape pd base q :
  buildEnhancedQuery pd base = Returns q ->
  exists (disjuncts range : option value),
    q = from_option (fun r => <[js "experience" := r]>) id range
          (from_option (fun d => <[js "$or" := d]>) id disjuncts base).
Proof.
  unfold buildEnhancedQuery. intros Hq.
  destruct pd as [pd|]; [|exists None, None; inversion Hq; reflexivity].
  destruct (negb (truthy (useAI pd))).
  { destruct (truthy (processedQuery pd)); inversion Hq;
      [eexists (Some _), None | exists None, None]; reflexivity. }
  destruct (guardedLoop (keywords pd) _ _) as [conds1|e]; [|discriminate].
  destruct (guardedLoop (skills pd) _ _) as [conds2|e]; [|discriminate].
  destruct (0 <? length conds2)%nat.
  - destruct (or_concat _ conds2) as [d|e]; [|discriminate].
    destruct (truthy (jobLevel pd));
      [destruct (levelMap_get (jobLevel pd)) as [range|e];
       [destruct (truthy range) | discriminate]|];
      inversion Hq; [eexists (Some _), (Some _) | eexists (Some _), None ..];
      reflexivity.
  - destruct (truthy (jobLevel pd));
      [destruct (levelMap_get (jobLevel pd)) as [range|e];
       [destruct (truthy range) | discriminate]|];
      inversion Hq; [exists None; eexists (Some _) | exists None, None ..];
      reflexivity.
Qed.

(** An intent that is not AI-derived always gives a query. *)
Lemma buildEnhancedQuery_fallback_returns pd base :
  match pd with Some d => truthy (useAI d) = false | None => True end ->
  exists q, buildEnhancedQuery pd base = Returns q.
Proof.
  unfold buildEnhancedQuery. destruct pd as [pd|]; [|eexists; reflexivity].
  intros ->. simpl. destruct (truthy (processedQuery pd)); eexists; reflexivity.
Qed.

(** The [experience] of the query built from an AI-derived intent. *)
Lemma buildEnhancedQuery_ai_experience pd base q :
  truthy (useAI pd) = true ->
  buildEnhancedQuery (Some pd) base = Returns q ->
  exists range,
    (if truthy (jobLevel pd) then levelMap_get (jobLevel pd)
     else Returns Undefined) = Returns range /\
    q !! js "experience" =
    if truthy range then Some range else base !! js "experience".
Proof.
  unfold buildEnhancedQuery. intros -> Hq. simpl in Hq.
  destruct (guardedLoop (keywords pd) _ _) as [conds1|e]; [|discriminate].
  destruct (guardedLoop (skills pd) _ _) as [conds2|e]; [|discriminate].
  assert (Hor : forall d : value,
             <[js "$or" := d]> base !! js "experience" = base !! js "experience").
  { intros d. apply lookup_insert_ne. discriminate. }
  destruct (0 <? length conds2)%nat.
  - destruct (or_concat _ conds2) as [d|e]; [|discriminate].
    destruct (truthy (jobLevel pd));
      [destruct (levelMap_get (jobLevel pd)) as [range|e];
       [destruct (truthy range) eqn:Hr | discriminate]|];
      inversion Hq; eexists; (split; [reflexivity|]); cbn [truthy];
      rewrite ?Hr, ?lookup_insert_eq, ?Hor; reflexivity.
  - destruct (truthy (jobLevel pd));
      [destruct (levelMap_get (jobLevel pd)) as [range|e];
       [destruct (truthy range) eqn:Hr | discriminate]|];
      inversion Hq; eexists; (split; [reflexivity|]); cbn [truthy];
      rewrite ?Hr, ?lookup_insert_eq; reflexivity.
Qed.

(** The [$or] of the query built from an AI-derived intent over a base
    whose [$or] is an array: the array, followed by the new conditions. *)
Lemma buildEnhancedQuery_ai_or pd base q items :
  truthy (useAI pd) = true ->
  base !! js "$or" = Some (Arr items) ->
  buildEnhancedQuery (Some pd) base = Returns q ->
  exists added, q !! js "$or" = Some (Arr (items ++ added)).
Proof.
  unfold buildEnhancedQuery. intros -> Hbase Hq. simpl in Hq.
  destruct (guardedLoop (keywords pd) _ _) as [conds1|e]; [|discriminate].
  destruct (guardedLoop (skills pd) _ _) as [conds2|e]; [|discriminate].
  assert (Hexp : forall (r : value) (m : gmap jsstring value),
             <[js "experience" := r]> m !! js "$or" = m !! js "$or").
  { intros r m. apply lookup_insert_ne. discriminate. }
  rewrite Hbase in Hq. simpl in Hq.
  destruct (0 <? length conds2)%nat.
  - exists conds2.
    destruct (truthy (jobLevel pd));
      [destruct (levelMap_get (jobLevel pd)) as [range|e];
       [destruct (truthy range) | discriminate]|];
      inversion Hq; rewrite ?Hexp, lookup_insert_eq; reflexivity.
  - exists []. rewrite app_nil_r.
    destruct (truthy (jobLevel pd));
      [destruct (levelMap_get (jobLevel pd)) as [range|e];
       [destruct (truthy range) | discriminate]|];
      inversion Hq; subst; rewrite ?Hexp; exact Hbase.
Qed.

End BuilderFacts.

Section BuilderClaims.
Import Groq.
Context `{Engine}.

(** C4 (amended). Whenever [buildEnhancedQuery] returns a query, and it
    always does for an intent that is not AI-derived, every key other than
    [$or] and [experience] has in the query the value it has in the base
    filters, so [status] is retained whatever the intent contains.  For an
    AI-derived intent a base [$or] array is kept as the front part of the
    query's [$or], and [experience] is set to the range of the intent's
    [jobLevel] when [levelMap] has one, replacing a base [experience];
    otherwise [experience] is the base's. *)
Theorem C4_build_keeps_filters_it_does_not_set pd base :
  (match pd with Some d => truthy (useAI d) = false | None => True end ->
   exists q, buildEnhancedQuery pd base = Returns q) /\
  (forall q,
     buildEnhancedQuery pd base = Returns q ->
     (forall k, k <> js "$or" -> k <> js "experience" -> q !! k = base !! k) /\
     q !! js "status" = base !! js "status" /\
     (forall d,
        pd = Some d -> truthy (useAI d) = true ->
        (forall items,
           base !! js "$or" = Some (Arr items) ->
           exists added, q !! js "$or" = Some (Arr (items ++ added))) /\
        exists range,
          (if truthy (jobLevel d) then levelMap_get (jobLevel d)
           else Returns Undefined) = Returns range /\
          q !! js "experience" =
          if truthy range then Some range else base !! js "experience") /\
     (match pd with Some d => truthy (useAI d) = false | None => True end ->
      q !! js "experience" = base !! js "experience")).
Proof.
  split; [apply buildEnhancedQuery_fallback_returns|].
  intros q Hq.
  assert (Hother : forall k, k <> js "$or" -> k <> js "experience" ->
                             q !! k = base !! k).
  { intros k Hor Hexp.
    destruct (buildEnhancedQuery_shape pd base q Hq) as (disjuncts & range & ->).
    destruct range as [r|], disjuncts as [d|]; simpl;
      rewrite ?lookup_insert_ne by congruence; reflexivity. }
  split; [exact Hother|]. split; [apply Hother; discriminate|]. split.
  - intros d -> Hai. split.
    + intros items Hitems. eapply buildEnhancedQuery_ai_or; eassumption.
    + apply buildEnhancedQuery_ai_experience; assumption.
  - unfold buildEnhancedQuery in Hq. destruct pd as [d|].
    + intros Hfb. rewrite Hfb in Hq. simpl in Hq.
      destruct (truthy (processedQuery d)); inversion Hq; [|reflexivity].
      apply lookup_insert_ne. discriminate.
    + intros _. inversion Hq. reflexivity.
Qed.

Lemma forEach_push_returns each items conditions :
  (forall item, In item items -> exists new, each item = Returns new) ->
  exists conds, forEach_push (Arr items) each conditions = Returns conds.
Proof.
  unfold forEach_push. revert conditions.
  induction items as [|item items IH]; intros conditions Heach; simpl.
  - eexists. reflexivity.
  - destruct (Heach item (or_introl eq_refl)) as (new & ->).
    apply IH. intros it Hin. apply Heach. right. exact Hin.
Qed.

Lemma satisfies_entry x :
  (0 <= x)%Q ->
  satisfies_range (Obj [(js "$lte", Num 2)]) x = in_range (0%Q, Some 2%Q) x.
Proof.
  intros Hx. unfold satisfies_range, in_range. cbn [forallb fst snd].
  rewrite bool_decide_eq_false_2 by discriminate.
  rewrite bool_decide_eq_true_2 by reflexivity.
  apply Qle_bool_iff in Hx. rewrite Hx, andb_true_r. reflexivity.
Qed.

Lemma satisfies_between lo hi x :
  satisfies_range (Obj [(js "$gte", Num lo); (js "$lte", Num hi)]) x =
  in_range (lo, Some hi) x.
Proof.
  unfold satisfies_range, in_range. cbn [forallb fst snd].
  rewrite (bool_decide_eq_true_2 (js "$gte" = js "$gte")) by reflexivity.
  rewrite bool_decide_eq_false_2 by discriminate.
  rewrite bool_decide_eq_true_2 by reflexivity.
  rewrite andb_true_r. reflexivity.
Qed.

Lemma satisfies_from lo x :
  satisfies_range (Obj [(js "$gte", Num lo)]) x = in_range (lo, None) x.
Proof.
  unfold satisfies_range, in_range. cbn [forallb fst snd].
  rewrite bool_decide_eq_true_2 by reflexivity. reflexivity.
Qed.

(** C8. For an AI-derived intent whose [jobLevel] is one of the four
    levels, the query [buildEnhancedQuery] returns carries, next to the
    other top-level filters, an [experience] filter that a non-negative
    number of years satisfies exactly when it lies in the level's range:
    entry [0,2], mid [2,5], senior [5,10], executive from 10 on, bounds
    included; the filters of the base under other keys than [$or] stay
    beside it.  The call returns when keywords and skills are arrays,
    every skill is a valid pattern and the base has no [$or]. *)
Theorem C8_seniority_filter_ranges pd base level range :
  truthy (useAI pd) = true ->
  jobLevel pd = Str level ->
  spec_levelRange level = Some range ->
  (forall q,
     buildEnhancedQuery (Some pd) base = Returns q ->
     exists filter,
       q !! js "experience" = Some filter /\
       (forall x, (0 <= x)%Q -> satisfies_range filter x = in_range range x) /\
       (forall k, k <> js "$or" -> k <> js "experience" -> q !! k = base !! k)) /\
  (forall ks ss,
     keywords pd = Arr ks -> skills pd = Arr ss ->
     forallb RegExp_compiles ss = true ->
     base !! js "$or" = None ->
     exists q, buildEnhancedQuery (Some pd) base = Returns q).
Proof.
  intros Hai Hlevel Hrange. split.
  - intros q Hq.
    assert (Hother : forall k, k <> js "$or" -> k <> js "experience" ->
                               q !! k = base !! k).
    { intros k Hor Hexp.
      destruct (buildEnhancedQuery_shape (Some pd) base q Hq)
        as (disjuncts & r & ->).
      destruct r, disjuncts; simpl;
        rewrite ?lookup_insert_ne by congruence; reflexivity. }
    destruct (buildEnhancedQuery_ai_experience pd base q Hai Hq)
      as (found & Hfound & ->).
    rewrite Hlevel in Hfound. unfold spec_levelRange in Hrange.
    repeat case_bool_decide; subst; inversion Hrange; subst;
      vm_compute in Hfound; injection Hfound as <-.
    + eexists. split; [reflexivity|]. split; [|exact Hother].
      apply satisfies_entry.
    + eexists. split; [reflexivity|]. split; [|exact Hother].
      intros x _. apply satisfies_between.
    + eexists. split; [reflexivity|]. split; [|exact Hother].
      intros x _. apply satisfies_between.
    + eexists. split; [reflexivity|]. split; [|exact Hother].
      intros x _. apply satisfies_from.
  - intros ks ss Hks Hss Hcompile Hor.
    unfold buildEnhancedQuery, guardedLoop. rewrite Hai, Hks, Hss, Hor, Hlevel.
    cbn [negb nonEmpty length_positive levelMap_get truthy].
    set (conds0 := if truthy (processedQuery pd) then _ else _).
    assert (Hkw : exists conds1,
               (if (0 <? length ks)%nat
                then forEach_push (Arr ks)
                       (fun keyword => Returns [regexCondition "title" keyword;
                                                regexCondition "description" keyword])
                       conds0
                else Returns conds0) = Returns conds1).
    { destruct (0 <? length ks)%nat; [|eexists; reflexivity].
      apply forEach_push_returns. intros item _. eexists. reflexivity. }
    destruct Hkw as (conds1 & ->).
    set (conds1' := if truthy (jobTitle pd) then _ else _).
    assert (Hsk : exists conds2,
               (if (0 <? length ss)%nat
                then forEach_push (Arr ss) skillCondition conds1'
                else Returns conds1') = Returns conds2).
    { destruct (0 <? length ss)%nat; [|eexists; reflexivity].
      apply forEach_push_returns. intros item Hin.
      unfold skillCondition. rewrite forallb_forall in Hcompile.
      rewrite (Hcompile item Hin). eexists. reflexivity. }
    destruct Hsk as (conds2 & ->).
    destruct (0 <? length conds2)%nat; cbn [default or_concat truthy negb];
      destruct (negb (bool_decide (level = [])));
      repeat match goal with
             | |- context [truthy ?v] => destruct (truthy v)
             end;
      eexists; reflexivity.
Qed.

End BuilderClaims.

Section BuilderExamples.
Import Groq Samples.
Existing Instance asciiEngine.

(** [status] survives an AI-derived intent that sets [experience]. *)
Lemma C4_witness :
  exists q,
    buildEnhancedQuery (Some (levelIntent "senior")) baseFilters = Returns q /\
    q !! js "status" = Some (Str (js "active")).
Proof.
  destruct (buildEnhancedQuery (Some (levelIntent "senior")) baseFilters)
    as [q|e] eqn:Hq; [|vm_compute in Hq; discriminate].
  exists q. split; [reflexivity|].
  destruct (C4_build_keeps_filters_it_does_not_set
              (Some (levelIntent "senior")) baseFilters) as (_ & Hframe).
  destruct (Hframe q Hq) as (_ & Hstatus & _).
  rewrite Hstatus. vm_compute. reflexivity.
Defined.

(** C4 as stated fails: the base filter [experience: { $lte: 3 }] is
    replaced by the range of the level [senior]. *)
Lemma C4_counterexample :
  baseFilters !! js "experience" = Some (Obj [(js "$lte", Num 3)]) /\
  exists q,
    buildEnhancedQuery (Some (levelIntent "senior")) baseFilters = Returns q /\
    q !! js "experience" =
      Some (Obj [(js "$gte", Num 5); (js "$lte", Num 10)]) /\
    q !! js "experience" <> baseFilters !! js "experience".
Proof.
  split; [vm_compute; reflexivity|].
  eexists. split; [reflexivity|].
  split; [vm_compute; reflexivity | vm_compute; discriminate].
Qed.

(** The path for intents that are not AI-derived assigns [$or] where the
    AI path concatenates: a base [$or] is lost there. *)
Example fallback_path_replaces_or :
  exists q,
    buildEnhancedQuery
      (Some (directSearchIntent (Str (js "python")) [] Undefined))
      (<[js "$or" := Arr [regexCondition "location" (Str (js "Pune"))]]> ∅)
    = Returns q /\
    q !! js "$or" = Some (Arr (phraseConditions (Str (js "python")))).
Proof.
  eexists. split; [reflexivity|]. vm_compute. reflexivity.
Qed.

(** A skill that is not a valid pattern makes the builder throw. *)
Example invalid_skill_pattern_throws (engine : Engine) pd base :
  truthy (useAI pd) = true ->
  keywords pd = Arr [] ->
  skills pd = Arr [Str (js "C++")] ->
  @RegExp_compiles engine (Str (js "C++")) = false ->
  exists e, @buildEnhancedQuery engine (Some pd) base = Throws e.
Proof.
  intros Hai Hk Hs Hc. unfold buildEnhancedQuery, guardedLoop.
  rewrite Hai, Hk, Hs. simpl. unfold skillCondition. rewrite Hc.
  eexists. reflexivity.
Qed.

Lemma C8_witness :
  exists q filter,
    buildEnhancedQuery (Some (levelIntent "senior")) baseFilters = Returns q /\
    q !! js "experience" = Some filter /\
    satisfies_range filter 5 = true /\
    satisfies_range filter 10 = true /\
    satisfies_range filter 4 = false /\
    satisfies_range filter 11 = false.
Proof.
  destruct (C8_seniority_filter_ranges (levelIntent "senior") baseFilters
              (js "senior") (5%Q, Some 10%Q) eq_refl eq_refl eq_refl)
    as (Hfilter & Hreturns).
  destruct (Hreturns [] [] eq_refl eq_refl eq_refl eq_refl) as (q & Hq).
  destruct (Hfilter q Hq) as (filter & Hexp & Hsat & _).
  exists q, filter. split; [exact Hq|]. split; [exact Hexp|].
  repeat split; rewrite Hsat by lra; reflexivity.
Defined.

End BuilderExamples.

(* ===================================================================== *)
(** * Further properties of the two services *)
(* ===================================================================== *)

(** ** Errors and calls of the ranking orchestrator *)

Section RankErrors.
Import Recommendation.
Context `{Engine} `{Natural}.

Lemma rankJobIds_result w user jobs :
  result (rankJobIds w user jobs) =
  match result (getOpenAIRecommendations w user jobs) with
  | Returns ranked =>
      if truthy ranked then Returns ranked
      else Returns (Arr (map (fun job => Str (_id job)) (fallbackOrder user jobs)))
  | Throws e => Throws e
  end.
Proof.
  destruct (result (getOpenAIRecommendations w user jobs)) as [v|e] eqn:Hv.
  - destruct (truthy v) eqn:Ht.
    + unfold rankJobIds, result in *.
      destruct (getOpenAIRecommendations w user jobs) as [t r]. simpl in Hv. subst r.
      unfold bind. rewrite Ht. reflexivity.
    + eapply rankJobIds_fallback; eassumption.
  - destruct (getOpenAIRecommendations_returns w user jobs) as (v & Hv'). congruence.
Qed.

Lemma getRecommendations_result w userId limit :
  result (getRecommendations w userId limit) =
  match User_findById w userId with
  | Throws e => Throws e
  | Returns None => Throws (mkError PlainError (js "User not found"))
  | Returns (Some user) =>
      match Job_find_active w with
      | Throws e => Throws e
      | Returns [] => Returns []
      | Returns jobs =>
          match result (rankJobIds w user jobs) with
          | Returns (Arr ids) =>
              Returns (Array_slice0
                         (filter_defined
                            (map (fun id => Map_get (jobMapOf jobs) id) ids))
                         (default 10 limit))
          | Returns _ =>
              Throws (mkError TypeError (js "rankedJobIds.map is not a function"))
          | Throws e => Throws e
          end
      end
  end.
Proof.
  destruct (User_findById w userId) as [[user|]|e] eqn:Hu.
  - destruct (Job_find_active w) as [[|j jobs]|e] eqn:Hj.
    + unfold getRecommendations, try_catch, bind, emit, lift, result.
      rewrite Hu, Hj. reflexivity.
    + apply getRecommendations_found; [assumption .. | discriminate].
    + unfold getRecommendations, try_catch, bind, emit, lift, result.
      rewrite Hu, Hj. reflexivity.
  - unfold getRecommendations, try_catch, bind, emit, lift, result.
    rewrite Hu. reflexivity.
  - unfold getRecommendations, try_catch, bind, emit, lift, result.
    rewrite Hu. reflexivity.
Qed.

(** X1. [getRecommendations] throws in four situations only: the user
    look-up throws, the user does not exist, the job query throws, or the
    external ranking gave a truthy value that is not an array.  The error
    of a collaborator reaches the caller unchanged. *)
Theorem getRecommendations_throws_iff w userId limit e :
  result (getRecommendations w userId limit) = Throws e <->
  User_findById w userId = Throws e \/
  (User_findById w userId = Returns None /\
   e = mkError PlainError (js "User not found")) \/
  (exists user,
     User_findById w userId = Returns (Some user) /\
     (Job_find_active w = Throws e \/
      exists jobs ranked,
        Job_find_active w = Returns jobs /\ jobs <> [] /\
        result (getOpenAIRecommendations w user jobs) = Returns ranked /\
        truthy ranked = true /\ (forall ids, ranked <> Arr ids) /\
        e = mkError TypeError (js "rankedJobIds.map is not a function"))).
Proof.
  rewrite getRecommendations_result.
  destruct (User_findById w userId) as [[user|]|e0] eqn:Hu.
  - destruct (Job_find_active w) as [[|j jobs]|e1] eqn:Hj.
    + split; [discriminate|].
      intros [? | [[? _] | (u & Hu' & [? | (jobs & r & Hj' & Hne & _)])]];
        congruence.
    + rewrite rankJobIds_result.
      destruct (getOpenAIRecommendations_returns w user (j :: jobs)) as (v & Hv).
      rewrite Hv. destruct (truthy v) eqn:Ht.
      * split.
        -- intros He. right. right. exists user. split; [reflexivity|]. right.
           exists (j :: jobs), v. split; [reflexivity|]. split; [discriminate|].
           split; [exact Hv|]. split; [exact Ht|].
           destruct v; try discriminate; inversion He; split;
             solve [reflexivity | intros ids; discriminate].
        -- intros [? | [[? _] | (u & Hu' & [? | (jobs' & r & Hj' & _ & Hr & _ & Hna & ->)])]];
             try congruence.
           assert (u = user) by congruence. subst u.
           assert (jobs' = j :: jobs) by congruence. subst jobs'.
           assert (r = v) by congruence. subst r.
           destruct v; try reflexivity. exfalso. eapply Hna. reflexivity.
      * split; [discriminate|].
        intros [? | [[? _] | (u & Hu' & [? | (jobs' & r & Hj' & _ & Hr & Ht' & _)])]];
          congruence.
    + split.
      * intros He. inversion He. right. right. exists user.
        split; [reflexivity|]. left. reflexivity.
      * intros [? | [[? _] | (u & Hu' & [He | (jobs & r & Hj' & _)])]];
          congruence.
  - split.
    + intros He. inversion He. right. left. split; reflexivity.
    + intros [? | [[_ ->] | (u & Hu' & _)]]; congruence.
  - split.
    + intros He. inversion He. left. reflexivity.
    + intros [He | [[? _] | (u & Hu' & _)]]; congruence.
Qed.

End RankErrors.

Section RankCalls.
Import Recommendation.
Context `{Engine} `{Natural}.

(** The run of [getOpenAIRecommendations] once a credential is configured
    and every job has a description. *)
Lemma getOpenAIRecommendations_with_key w user jobs :
  OPENAI_API_KEY w = true ->
  (forall job, In job jobs -> description job <> None) ->
  getOpenAIRecommendations w user jobs =
  match openai_chat w user jobs with
  | Throws _ => ([EvOpenAIRequest; EvConsoleError], Returns Null)
  | Returns content =>
      match JSON_parse (trim content) with
      | Throws _ => ([EvOpenAIRequest; EvConsoleError], Returns Null)
      | Returns ranked => ([EvOpenAIRequest], Returns ranked)
      end
  end.
Proof.
  unfold getOpenAIRecommendations, build_prompt. intros -> Hall. simpl.
  assert (Hall' : forallb (fun job => bool_decide (is_Some (description job))) jobs = true).
  { apply forallb_forall. intros job Hin. apply bool_decide_eq_true.
    specialize (Hall job Hin). destruct (description job); [eauto | congruence]. }
  rewrite Hall'.
  destruct (openai_chat w user jobs) as [content|e]; [|reflexivity].
  simpl. destruct (JSON_parse (trim content)); reflexivity.
Qed.

(** X2. [getOpenAIRecommendations] never throws.  Without a credential it
    returns [null] and does nothing else; with one it sends no request
    when a job has no description, and one request otherwise; every
    failure (no description, failed request, reply that is not JSON) ends
    in [null] after one log line, and a parsed reply is returned as it
    is. *)
Theorem getOpenAIRecommendations_contains_failures w user jobs :
  (exists ranked, result (getOpenAIRecommendations w user jobs) = Returns ranked) /\
  (OPENAI_API_KEY w = false ->
   getOpenAIRecommendations w user jobs = ([], Returns Null)) /\
  (OPENAI_API_KEY w = true ->
   (exists job, In job jobs /\ description job = None) ->
   getOpenAIRecommendations w user jobs = ([EvConsoleError], Returns Null)) /\
  (OPENAI_API_KEY w = true ->
   (forall job, In job jobs -> description job <> None) ->
   match openai_chat w user jobs with
   | Throws _ =>
       getOpenAIRecommendations w user jobs =
         ([EvOpenAIRequest; EvConsoleError], Returns Null)
   | Returns content =>
       match JSON_parse (trim content) with
       | Throws _ =>
           getOpenAIRecommendations w user jobs =
             ([EvOpenAIRequest; EvConsoleError], Returns Null)
       | Returns ranked =>
           getOpenAIRecommendations w user jobs =
             ([EvOpenAIRequest], Returns ranked)
       end
   end).
Proof.
  split; [apply getOpenAIRecommendations_returns|].
  split; [unfold getOpenAIRecommendations; intros ->; reflexivity|]. split.
  - unfold getOpenAIRecommendations, build_prompt.
    intros -> (job & Hin & Hnone). simpl.
    assert (Hall : forallb (fun job => bool_decide (is_Some (description job))) jobs = false).
    { apply not_true_iff_false. intros Hall. rewrite forallb_forall in Hall.
      specialize (Hall job Hin). apply bool_decide_eq_true in Hall.
      rewrite Hnone in Hall. destruct Hall as [? ?]. discriminate. }
    rewrite Hall. reflexivity.
  - intros Hkey Hall.
    rewrite (getOpenAIRecommendations_with_key w user jobs Hkey Hall).
    destruct (openai_chat w user jobs) as [content|e]; [|reflexivity].
    destruct (JSON_parse (trim content)); reflexivity.
Qed.

(** X3. When the external ranking answers with an array, no job is scored and
    the jobs come back in the order of the reply: the fallback scorer
    runs only for a falsy ranking. *)
Theorem external_ranking_skips_scorer w userId limit user jobs content ids :
  OPENAI_API_KEY w = true ->
  User_findById w userId = Returns (Some user) ->
  Job_find_active w = Returns jobs ->
  jobs <> [] ->
  (forall job, In job jobs -> description job <> None) ->
  openai_chat w user jobs = Returns content ->
  JSON_parse (trim content) = Returns (Arr ids) ->
  getRecommendations w userId limit =
  ([EvFindUser userId; EvFindActiveJobs; EvOpenAIRequest],
   Returns (Array_slice0
              (filter_defined (map (fun id => Map_get (jobMapOf jobs) id) ids))
              (default 10 limit))).
Proof.
  intros Hkey Hu Hj Hne Hdesc Hchat Hparse.
  pose proof (getOpenAIRecommendations_with_key w user jobs Hkey Hdesc) as Hrun.
  rewrite Hchat, Hparse in Hrun.
  unfold getRecommendations, try_catch, bind at 1 2 3 4, emit, lift.
  rewrite Hu, Hj. destruct jobs as [|j jobs]; [congruence|].
  cbn [length Nat.eqb]. unfold rankJobIds. rewrite Hrun.
  reflexivity.
Qed.

End RankCalls.

(** ** Keywords and scores *)

Section DedupFacts.

Lemma In_spec_dedup x l : In x (spec_dedup l) <-> In x l.
Proof.
  induction l as [|y l IH]; simpl; [tauto|].
  rewrite filter_In, IH.
  destruct (decide (x = y)) as [->|Hne].
  - tauto.
  - rewrite bool_decide_eq_false_2 by exact Hne. simpl. intuition congruence.
Qed.

Lemma NoDup_spec_dedup l : List.NoDup (spec_dedup l).
Proof.
  induction l as [|y l IH]; simpl; constructor.
  - rewrite filter_In. intros [_ Hy].
    rewrite bool_decide_eq_true_2 in Hy by reflexivity. discriminate.
  - apply List.NoDup_filter. exact IH.
Qed.

Lemma split_pieces_chars (P : char16 -> Prop) cur in_sep u :
  Forall P cur ->
  Forall (fun c => isSpaceChar c = false -> P c) u ->
  Forall (Forall P) (split_ws_from cur in_sep u).
Proof.
  revert cur in_sep. induction u as [|c u IH]; intros cur in_sep Hcur Hu; simpl.
  - constructor; [apply Forall_reverse; exact Hcur | constructor].
  - inversion Hu as [|? ? Hc Hu']; subst.
    destruct (isSpaceChar c) eqn:Hs.
    + destruct in_sep.
      * apply IH; [constructor | exact Hu'].
      * constructor; [apply Forall_reverse; exact Hcur|].
        apply IH; [constructor | exact Hu'].
    + apply IH; [constructor; [apply Hc; reflexivity | exact Hcur] | exact Hu'].
Qed.

Lemma replaced_chars t :
  Forall (fun c => isSpaceChar c = false -> isWordChar c = true)
    (replace_nonword_nonspace t).
Proof.
  unfold replace_nonword_nonspace.
  induction t as [|c t IH]; simpl; constructor; [|exact IH].
  destruct (isWordChar c) eqn:Hw; simpl; [intros _; exact Hw|].
  destruct (isSpaceChar c) eqn:Hs; [congruence|].
  intros Hsp. discriminate.
Qed.

End DedupFacts.

Section KeywordInvariants.
Context `{Engine}.

(** X4. The keywords [extractKeywords] returns for a string are pairwise
    distinct, longer than two code units, outside the stop-word list, and
    made of the characters [A-Za-z0-9_] only. *)
Theorem extractKeywords_output_invariants (text : jsstring) :
  exists extracted,
    extractKeywords (Str text) = Returns extracted /\
    List.NoDup extracted /\
    Forall (fun word =>
              (2 < length word)%nat /\
              Set_has stopWords word = false /\
              Forall (fun c => isWordChar c = true) word)
           extracted.
Proof.
  unfold extractKeywords. destruct text as [|c text]; simpl.
  - exists []. split; [reflexivity|]. split; constructor.
  - eexists. split; [reflexivity|]. rewrite Set_new_dedup.
    split; [apply NoDup_spec_dedup|].
    apply Forall_forall. intros word Hin.
    apply list_elem_of_In, In_spec_dedup, filter_In in Hin.
    destruct Hin as [Hpiece Hkeep].
    unfold keepWord in Hkeep. apply andb_true_iff in Hkeep.
    destruct Hkeep as [Hlen Hstop].
    split; [apply Nat.ltb_lt; exact Hlen|].
    split; [destruct (Set_has stopWords word); [discriminate Hstop | reflexivity]|].
    pose proof (split_pieces_chars (fun c => isWordChar c = true) [] false
                  (replace_nonword_nonspace (toLowerCase (c :: text)))
                  (Forall_nil_2 _) (replaced_chars _)) as Hall.
    rewrite Forall_forall in Hall. apply Hall. apply list_elem_of_In. exact Hpiece.
Qed.

End KeywordInvariants.

Section ScorePositive.
Import Recommendation.
Context `{Engine} `{Natural}.

(** X5. A listing scores above 0 exactly when neither text is blank, both
    tokenize, the listing has a token, and some token of the profile has
    a positive weight in the listing. *)
Theorem calculateTFIDFScore_positive_iff us uk d sk rq :
  Number.lt Number.zero (calculateTFIDFScore us uk d sk rq) = true <->
  trim (jobTextOf d sk rq) <> [] /\
  trim (userTextOf us uk) <> [] /\
  exists userTokens jobTokens,
    WordTokenizer_tokenize (userTextOf us uk) = Some userTokens /\
    WordTokenizer_tokenize (jobTextOf d sk rq) = Some jobTokens /\
    jobTokens <> [] /\
    exists term, In term userTokens /\
                 Number.lt Number.zero (TfIdf_tfidf jobTokens term) = true.
Proof.
  unfold calculateTFIDFScore.
  destruct (bool_decide (trim (jobTextOf d sk rq) = [])) eqn:Hj.
  { apply bool_decide_eq_true in Hj. simpl. split; [discriminate | tauto]. }
  destruct (bool_decide (trim (userTextOf us uk) = [])) eqn:Hu.
  { apply bool_decide_eq_true in Hu. simpl. split; [discriminate | tauto]. }
  apply bool_decide_eq_false in Hj, Hu. simpl.
  destruct (WordTokenizer_tokenize (userTextOf us uk)) as [ut|].
  2:{ split; [discriminate|]. intros (_ & _ & ut & jt & Hut & _). discriminate. }
  destruct (WordTokenizer_tokenize (jobTextOf d sk rq)) as [jt|].
  2:{ split; [discriminate|]. intros (_ & _ & ut' & jt & _ & Hjt & _). discriminate. }
  destruct ut as [|u0 ut].
  { simpl. split; [discriminate|].
    intros (_ & _ & ut' & jt' & Hut & _ & _ & term & Hin & _).
    inversion Hut; subst. contradiction. }
  destruct jt as [|j0 jt].
  { simpl. split; [discriminate|].
    intros (_ & _ & ut' & jt' & _ & Hjt & Hne & _). inversion Hjt; subst. congruence. }
  cbn [length Nat.eqb orb].
  destruct (accumulate_spec (j0 :: jt) (Set_new (u0 :: ut)) Number.zero eq_refl)
    as (_ & Hpos & _).
  cbv zeta in Hpos. rewrite Hpos.
  change (Number.lt Number.zero Number.zero) with false. cbn [orb].
  rewrite existsb_exists. split.
  - intros (term & Hin & Hw).
    split; [exact Hj|]. split; [exact Hu|].
    exists (u0 :: ut), (j0 :: jt). repeat split; try discriminate.
    exists term. split; [|exact Hw].
    rewrite Set_new_dedup in Hin. exact (proj1 (In_spec_dedup _ _) Hin).
  - intros (_ & _ & ut' & jt' & Hut & Hjt & _ & term & Hin & Hw).
    inversion Hut; inversion Hjt; subst. exists term.
    split; [|exact Hw]. rewrite Set_new_dedup. exact (proj2 (In_spec_dedup _ _) Hin).
Qed.

End ScorePositive.

(** ** Recovering a JSON object from the reply *)

Section RecoveryFacts.
Import Groq.

Lemma trimStart_spaces ws s :
  Forall (fun c => isSpaceChar c = true) ws -> trimStart (ws ++ s) = trimStart s.
Proof.
  induction 1 as [|c ws Hc _ IH]; [reflexivity|]. simpl. rewrite Hc. exact IH.
Qed.

Lemma greedy_without_rbrace after seen s :
  ~ In RBRACE s -> greedy_to_rbrace after seen s = None.
Proof.
  revert seen. induction s as [|c s IH]; intros seen Hno; [reflexivity|].
  simpl. rewrite IH by (intros Hin; apply Hno; right; exact Hin).
  rewrite bool_decide_eq_false_2; [reflexivity|].
  intros ->. apply Hno. left. reflexivity.
Qed.

(** The greedy scan stops at the last closing brace that [after]
    accepts. *)
Lemma greedy_last_rbrace after seen body rest :
  ~ In RBRACE rest -> after rest = true ->
  greedy_to_rbrace after seen (body ++ RBRACE :: rest) =
  Some (reverse seen ++ body ++ [RBRACE]).
Proof.
  intros Hno Hafter. revert seen.
  induction body as [|c body IH]; intros seen; cbn [app greedy_to_rbrace].
  - rewrite greedy_without_rbrace by exact Hno.
    rewrite bool_decide_eq_true_2 by reflexivity. rewrite Hafter.
    cbn [andb]. rewrite reverse_cons. reflexivity.
  - rewrite IH. rewrite reverse_cons, <- app_assoc. reflexivity.
Qed.

Lemma fenced_at_needs_backtick s :
  ~ In 96%N s -> fenced_at s = None.
Proof.
  intros Hno. unfold fenced_at, BACKTICKS.
  destruct s as [|c s]; [reflexivity|].
  cbn [js list_ascii_of_string map strip_prefix N_of_ascii].
  rewrite bool_decide_eq_false_2; [reflexivity|].
  intros Hc. apply Hno. left. symmetry. exact Hc.
Qed.

Lemma match_fenced_needs_backtick s :
  ~ In 96%N s -> match_fenced s = None.
Proof.
  induction s as [|c s IH]; intros Hno.
  - reflexivity.
  - cbn [match_fenced]. rewrite fenced_at_needs_backtick by exact Hno.
    apply IH. intros Hin. apply Hno. right. exact Hin.
Qed.

Lemma strip_prefix_app prefix s : strip_prefix prefix (prefix ++ s) = Some s.
Proof.
  induction prefix as [|p prefix IH]; [destruct s; reflexivity|].
  simpl. rewrite bool_decide_eq_true_2 by reflexivity. exact IH.
Qed.

Lemma closing_fence_accepted ws :
  Forall (fun c => isSpaceChar c = true) ws ->
  bool_decide (is_Some (strip_prefix BACKTICKS (trimStart (ws ++ BACKTICKS)))) = true /\
  ~ In RBRACE (ws ++ BACKTICKS).
Proof.
  intros Hws. split.
  - rewrite trimStart_spaces by exact Hws. reflexivity.
  - intros Hin. apply in_app_or in Hin. destruct Hin as [Hin | Hin].
    + rewrite Forall_forall in Hws. apply list_elem_of_In, Hws in Hin. discriminate.
    + vm_compute in Hin. intuition discriminate.
Qed.

(** A reply that is one fenced block, with or without the tag [json] and
    with any white space around the object, gives back the text from the
    opening to the closing brace. *)
Lemma jsonMatch_fenced_block tag ws1 ws2 body :
  tag = [] \/ tag = js "json" ->
  Forall (fun c => isSpaceChar c = true) ws1 ->
  Forall (fun c => isSpaceChar c = true) ws2 ->
  jsonMatch (BACKTICKS ++ tag ++ ws1 ++ LBRACE :: body ++ RBRACE :: ws2 ++ BACKTICKS) =
  Some (LBRACE :: body ++ [RBRACE]).
Proof.
  intros Htag Hws1 Hws2.
  destruct (closing_fence_accepted ws2 Hws2) as [Hafter Hno].
  assert (Hat : fenced_at (BACKTICKS ++ tag ++ ws1 ++ LBRACE :: body ++
                           RBRACE :: ws2 ++ BACKTICKS) =
                Some (LBRACE :: body ++ [RBRACE])).
  { unfold fenced_at. rewrite strip_prefix_app. cbv zeta.
    match goal with
    | |- context [trimStart ?r] =>
        assert (Hr : r = ws1 ++ LBRACE :: body ++ RBRACE :: ws2 ++ BACKTICKS)
    end.
    { destruct Htag as [-> | ->].
      - destruct Hws1 as [|c ws1 Hc _]; [reflexivity|].
        cbn [app js list_ascii_of_string map strip_prefix N_of_ascii].
        rewrite bool_decide_eq_false_2; [reflexivity|].
        intros Hj. rewrite <- Hj in Hc. discriminate.
      - rewrite strip_prefix_app. reflexivity. }
    rewrite Hr, trimStart_spaces by exact Hws1.
    cbn [trimStart]. change (isSpaceChar LBRACE) with false. cbn iota.
    rewrite bool_decide_eq_true_2 by reflexivity.
    rewrite greedy_last_rbrace by assumption. reflexivity. }
  unfold jsonMatch.
  assert (Hm : forall s, fenced_at s = Some (LBRACE :: body ++ [RBRACE]) ->
                         match_fenced s = Some (LBRACE :: body ++ [RBRACE])).
  { intros s Hs. destruct s; cbn [match_fenced]; rewrite Hs; reflexivity. }
  rewrite (Hm _ Hat). reflexivity.
Qed.

(** X6. In a reply without back ticks, an object preceded by text without an
    opening brace and followed by text without a closing brace is found
    by the second pattern. *)
Theorem jsonMatch_object_in_prose pre body post :
  ~ In 96%N (pre ++ LBRACE :: body ++ RBRACE :: post) ->
  ~ In LBRACE pre ->
  ~ In RBRACE post ->
  jsonMatch (pre ++ LBRACE :: body ++ RBRACE :: post) =
  Some (LBRACE :: body ++ [RBRACE]).
Proof.
  intros Htick Hpre Hpost. unfold jsonMatch.
  rewrite match_fenced_needs_backtick by exact Htick.
  clear Htick. induction pre as [|c pre IH]; cbn [app match_braces].
  - rewrite bool_decide_eq_true_2 by reflexivity.
    rewrite greedy_last_rbrace by auto. reflexivity.
  - rewrite bool_decide_eq_false_2.
    + apply IH. intros Hin. apply Hpre. right. exact Hin.
    + intros ->. apply Hpre. left. reflexivity.
Qed.

End RecoveryFacts.

(** ** The query interpreter, beyond strings and beyond failures *)

Section InterpreterMore.
Import Groq.
Context `{Engine}.

Lemma askGroq_trace w searchText : trace (askGroq w searchText) = [EvGroqRequest].
Proof.
  unfold askGroq, bind, emit, lift, throw, try_catch, trace.
  destruct (groq_chat w searchText) as [[[|c content]|]|e]; simpl; try reflexivity.
  destruct (JSON_parse (c :: content)); simpl; [reflexivity|].
  destruct (jsonMatch (c :: content)) as [g|]; simpl; [|reflexivity].
  destruct (JSON_parse g); reflexivity.
Qed.

(** X7. A reply wrapped in a fenced block is interpreted exactly as the same
    reply without the fence: same intent, same calls. *)
Theorem fenced_reply_same_intent w1 w2 (s : jsstring) tag ws1 ws2 body parsed e :
  GROQ_API_KEY w1 = true ->
  GROQ_API_KEY w2 = true ->
  tag = [] \/ tag = js "json" ->
  Forall (fun c => isSpaceChar c = true) ws1 ->
  Forall (fun c => isSpaceChar c = true) ws2 ->
  groq_chat w1 (Str s) =
    Returns (Some (BACKTICKS ++ tag ++ ws1 ++ LBRACE :: body ++ RBRACE :: ws2 ++ BACKTICKS)) ->
  groq_chat w2 (Str s) = Returns (Some (LBRACE :: body ++ [RBRACE])) ->
  JSON_parse (BACKTICKS ++ tag ++ ws1 ++ LBRACE :: body ++ RBRACE :: ws2 ++ BACKTICKS) =
    Throws e ->
  JSON_parse (LBRACE :: body ++ [RBRACE]) = Returns parsed ->
  processSearchQuery w1 (Str s) = processSearchQuery w2 (Str s).
Proof.
  intros Hk1 Hk2 Htag Hws1 Hws2 Hc1 Hc2 Hwrapped Hbare.
  assert (Ha1 : askGroq w1 (Str s) = ([EvGroqRequest], Returns parsed)).
  { unfold askGroq, bind, emit, lift, try_catch. rewrite Hc1.
    change (BACKTICKS ++ tag ++ ws1 ++ LBRACE :: body ++ RBRACE :: ws2 ++ BACKTICKS)
      with (96%N :: [96%N; 96%N] ++ tag ++ ws1 ++ LBRACE :: body ++ RBRACE :: ws2 ++ BACKTICKS)
      in *.
    cbv iota beta. rewrite Hwrapped. cbv iota beta.
    change (96%N :: [96%N; 96%N] ++ tag ++ ws1 ++ LBRACE :: body ++ RBRACE :: ws2 ++ BACKTICKS)
      with (BACKTICKS ++ tag ++ ws1 ++ LBRACE :: body ++ RBRACE :: ws2 ++ BACKTICKS).
    rewrite (jsonMatch_fenced_block tag ws1 ws2 body Htag Hws1 Hws2).
    rewrite Hbare. reflexivity. }
  assert (Ha2 : askGroq w2 (Str s) = ([EvGroqRequest], Returns parsed)).
  { unfold askGroq, bind, emit, lift, try_catch. rewrite Hc2.
    cbv iota beta. rewrite Hbare. reflexivity. }
  unfold processSearchQuery. rewrite Hk1, Hk2, Ha1, Ha2. reflexivity.
Qed.

End InterpreterMore.

Section InterpreterEdges.
Import Groq.
Context `{Engine}.

(** X8. A truthy argument that is not a string makes [processSearchQuery]
    throw, whatever the service does: [trim] fails, and the handler of
    that failure calls [extractKeywords], which fails on [toLowerCase]. *)
Theorem processSearchQuery_rejects_non_strings w searchText :
  truthy searchText = true ->
  (forall s, searchText <> Str s) ->
  processSearchQuery w searchText =
  ([EvConsoleError],
   Throws (mkError TypeError (js "text.toLowerCase is not a function"))).
Proof.
  intros Ht Hns.
  unfold processSearchQuery, is_blank, extractKeywords. rewrite Ht.
  destruct searchText; try discriminate; try reflexivity.
  exfalso. eapply Hns. reflexivity.
Qed.

(** X9. On a string [processSearchQuery] sends no request when the text is
    blank or no client is configured, and exactly one otherwise; after a
    request the failure is logged exactly when the intent is not
    AI-derived. *)
Theorem processSearchQuery_requests w (s : jsstring) :
  (trim s = [] \/ GROQ_API_KEY w = false ->
   trace (processSearchQuery w (Str s)) = []) /\
  (trim s <> [] -> GROQ_API_KEY w = true ->
   exists i,
     result (processSearchQuery w (Str s)) = Returns i /\
     ((trace (processSearchQuery w (Str s)) = [EvGroqRequest] /\
       useAI i = Bool true) \/
      (trace (processSearchQuery w (Str s)) = [EvGroqRequest; EvConsoleError] /\
       useAI i = Bool false))).
Proof.
  destruct (extractKeywords_string_returns s) as (extracted & Hex).
  unfold processSearchQuery. rewrite is_blank_string.
  unfold try_catch, bind at 1, lift at 1.
  split.
  - intros [Hblank | Hkey].
    + rewrite bool_decide_eq_true_2 by exact Hblank. reflexivity.
    + destruct (bool_decide (trim s = [])); [reflexivity|].
      rewrite Hkey. simpl. rewrite Hex. reflexivity.
  - intros Hnb Hkey. rewrite bool_decide_eq_false_2 by exact Hnb.
    rewrite Hkey. cbn [negb].
    pose proof (askGroq_trace w (Str s)) as Htr.
    destruct (askGroq w (Str s)) as [t [parsed|e]]. all: simpl in Htr; subst t.
    + destruct parsed; simpl; rewrite ?Hex; simpl; eexists;
        (split; [reflexivity|]); solve [left; split; reflexivity
                                      | right; split; reflexivity].
    + simpl. rewrite Hex. simpl. eexists. split; [reflexivity|].
      right. split; reflexivity.
Qed.

Lemma truthy_or_else a b : truthy b = true -> truthy (or_else a b) = true.
Proof. intros Hb. unfold or_else. destruct (truthy a) eqn:Ha; assumption. Qed.

(** X10. After a reply that parses to anything but [null], the intent is
    AI-derived and none of [processedQuery], [keywords], [skills],
    [intent], [searchTerms] is falsy; a reply that is valid JSON but not
    an object (a number, a string, an array) is accepted with every field
    at its default. *)
Theorem ai_intent_has_no_empty_field w (s : jsstring) parsed :
  trim s <> [] ->
  GROQ_API_KEY w = true ->
  result (askGroq w (Str s)) = Returns parsed ->
  parsed <> Null -> parsed <> Undefined ->
  exists i,
    result (processSearchQuery w (Str s)) = Returns i /\
    useAI i = Bool true /\
    originalQuery i = Str s /\
    truthy (processedQuery i) = true /\
    truthy (keywords i) = true /\
    truthy (skills i) = true /\
    truthy (intent i) = true /\
    truthy (searchTerms i) = true /\
    ((forall props, parsed <> Obj props) ->
     processedQuery i = Str s /\ keywords i = Arr [] /\ skills i = Arr [] /\
     jobTitle i = Null /\ jobLevel i = Null /\
     intent i = Str (js "general") /\ searchTerms i = Arr []).
Proof.
  intros Hnb Hkey Hask Hnull Hundef.
  assert (Hs : truthy (Str s) = true).
  { destruct s; [exfalso; apply Hnb; reflexivity | reflexivity]. }
  unfold processSearchQuery. rewrite is_blank_string.
  rewrite bool_decide_eq_false_2 by exact Hnb.
  unfold try_catch, bind at 1, lift at 1. rewrite Hkey. cbn [negb].
  destruct (askGroq w (Str s)) as [t r]. simpl in Hask. subst r.
  destruct parsed; try congruence; simpl; eexists; (split; [reflexivity|]);
    cbn [useAI originalQuery processedQuery keywords skills intent searchTerms
         jobTitle jobLevel].
  all: split; [reflexivity|].
  all: split; [reflexivity|].
  all: split; [first [exact Hs | apply truthy_or_else; exact Hs]|].
  all: split; [first [reflexivity | apply truthy_or_else; reflexivity]|].
  all: split; [first [reflexivity | apply truthy_or_else; reflexivity]|].
  all: split; [first [reflexivity | apply truthy_or_else; reflexivity]|].
  all: split; [first [reflexivity | apply truthy_or_else; reflexivity]|].
  all: intros Hobj; first [ exfalso; eapply Hobj; reflexivity
                          | repeat split; reflexivity ].
Qed.

End InterpreterEdges.

(** ** The query builder: sizes, failures, and what it ignores *)

Section BuilderMore.
Import Groq.
Context `{Engine}.

Lemma forEach_fold_throws (each : value -> outcome (list value)) items e :
  foldl (fun acc item =>
           match acc with
           | Returns conds =>
               match each item with
               | Returns new => Returns (conds ++ new)
               | Throws e => Throws e
               end
           | Throws e => Throws e
           end) (Throws e) items = Throws e.
Proof. induction items as [|item items IH]; [reflexivity | exact IH]. Qed.

(** [forEach] over an array goes through when the callback does on every
    item, and then has pushed what the callback pushed, item by item. *)
Lemma forEach_push_array each items conditions :
  match forEach_push (Arr items) each conditions with
  | Returns conds =>
      exists pushed,
        Forall2 (fun item new => each item = Returns new) items pushed /\
        conds = conditions ++ concat pushed
  | Throws e => exists item, In item items /\ each item = Throws e
  end.
Proof.
  unfold forEach_push. revert conditions.
  induction items as [|item items IH]; intros conditions; simpl.
  - exists []. split; [constructor | rewrite app_nil_r; reflexivity].
  - destruct (each item) as [new|e] eqn:Hitem.
    + specialize (IH (conditions ++ new)).
      destruct (foldl _ (Returns (conditions ++ new)) items) as [conds|e].
      * destruct IH as (pushed & Hall & ->). exists (new :: pushed).
        split; [constructor; assumption|]. simpl. rewrite app_assoc. reflexivity.
      * destruct IH as (it & Hin & Hit). exists it. split; [right|]; assumption.
    + rewrite forEach_fold_throws. exists item. split; [left; reflexivity | exact Hitem].
Qed.

Lemma Forall2_In_left {A B} (P : A -> B -> Prop) l k x :
  Forall2 P l k -> In x l -> exists y, In y k /\ P x y.
Proof.
  induction 1 as [|a b l k Hab _ IH]; intros Hin; [contradiction|].
  destruct Hin as [<- | Hin].
  - exists b. split; [left; reflexivity | exact Hab].
  - destruct (IH Hin) as (y & Hy & Hp). exists y. split; [right|]; assumption.
Qed.

Lemma concat_constant_length {A B} (f : A -> outcome (list B)) k items pushed :
  (forall item new, f item = Returns new -> length new = k) ->
  Forall2 (fun item new => f item = Returns new) items pushed ->
  length (concat pushed) = (k * length items)%nat.
Proof.
  intros Hk. induction 1 as [|item new items pushed Hf _ IH]; simpl; [lia|].
  rewrite length_app, IH, (Hk item new Hf). lia.
Qed.

(** Over an array the guard changes nothing: an empty array is not looped
    over, and looping over it would do nothing. *)
Lemma guardedLoop_array each items conditions :
  guardedLoop (Arr items) each conditions =
  forEach_push (Arr items) each conditions.
Proof. destruct items; reflexivity. Qed.

(** The guarded loop returns exactly when its value can be looped over
    and, over an array, the callback returns on every item. *)
Lemma guardedLoop_returns v each conditions :
  (exists conds, guardedLoop v each conditions = Returns conds) <->
  loopable v = true /\
  (forall items, v = Arr items ->
   forall item, In item items -> exists new, each item = Returns new).
Proof.
  destruct v as [| | | | |items| | |];
    try (unfold guardedLoop, loopable;
         match goal with
         | |- context [nonEmpty ?v] => destruct (nonEmpty v) as [[|]|e]
         end; cbn [forEach_push];
         (split;
          [ intros (conds & Hc);
            first [discriminate Hc | split; [reflexivity | intros; discriminate]]
          | intros (Hl & _); first [discriminate Hl | eexists; reflexivity] ])).
  rewrite guardedLoop_array.
  assert (Hl : loopable (Arr items) = true) by (destruct items; reflexivity).
  pose proof (forEach_push_array each items conditions) as Hf.
  destruct (forEach_push (Arr items) each conditions) as [conds|e].
  - destruct Hf as (pushed & Hall & _).
    split; [|intros _; eexists; reflexivity].
    intros _. split; [exact Hl|].
    intros items' Hitems item Hin. injection Hitems as <-.
    destruct (Forall2_In_left _ _ _ _ Hall Hin) as (new & _ & Hnew).
    exists new. exact Hnew.
  - destruct Hf as (item & Hin & Hitem).
    split; [intros (conds & Hc); discriminate|].
    intros (_ & Hall). destruct (Hall items eq_refl item Hin) as (new & Hnew).
    congruence.
Qed.

(** Looking a level up in the table returns exactly when the level has a
    primitive value to serve as the key. *)
Lemma levelMap_get_returns v :
  (exists range, levelMap_get v = Returns range) <-> hasPrimitive v = true.
Proof.
  unfold levelMap_get.
  destruct v; try (split; [reflexivity | intros _; eexists; reflexivity]);
    match goal with
    | |- context [hasPrimitive ?v] => destruct (hasPrimitive v)
    end;
    (split; [intros (range & Hr); first [reflexivity | discriminate Hr]
            | intros Hp; first [discriminate Hp | eexists; reflexivity]]).
Qed.

(** X11. The number of conditions in the [$or] of an AI-derived intent whose
    keywords and skills are arrays, every skill a valid pattern, and whose
    job level has a primitive value, over a base without [$or]: three for
    the phrase, two per keyword, one for the job title, one per skill; no
    [$or] at all when that number is 0. *)
Theorem ai_query_condition_count pd base ks ss :
  truthy (useAI pd) = true ->
  keywords pd = Arr ks ->
  skills pd = Arr ss ->
  forallb RegExp_compiles ss = true ->
  hasPrimitive (jobLevel pd) = true ->
  base !! js "$or" = None ->
  exists q,
    buildEnhancedQuery (Some pd) base = Returns q /\
    match ((if truthy (processedQuery pd) then 3 else 0) + 2 * length ks +
           (if truthy (jobTitle pd) then 1 else 0) + length ss)%nat with
    | O => q !! js "$or" = None
    | S n => exists conds, q !! js "$or" = Some (Arr conds) /\ length conds = S n
    end.
Proof.
  intros Hai Hks Hss Hcompile Hlevel Hor.
  unfold buildEnhancedQuery. rewrite Hai, Hks, Hss, Hor. cbn [negb].
  set (conds0 := if truthy (processedQuery pd) then _ else _).
  assert (Hlen0 : length conds0 = if truthy (processedQuery pd) then 3%nat else 0%nat).
  { subst conds0. destruct (truthy (processedQuery pd)); reflexivity. }
  (* keywords *)
  set (each_kw := fun keyword : value =>
                    Returns [regexCondition "title" keyword;
                             regexCondition "description" keyword]).
  rewrite guardedLoop_array.
  pose proof (forEach_push_array each_kw ks conds0) as Hf.
  destruct (forEach_push (Arr ks) each_kw conds0) as [conds1|e];
    [|destruct Hf as (item & _ & Hitem); discriminate].
  assert (Hlen1 : length conds1 = (length conds0 + 2 * length ks)%nat).
  { destruct Hf as (pushed & Hall & ->). rewrite length_app.
    rewrite (concat_constant_length each_kw 2 ks pushed); [reflexivity| |exact Hall].
    intros item new Hnew. inversion Hnew. reflexivity. }
  clear Hf.
  (* title and skills *)
  set (conds1' := if truthy (jobTitle pd) then _ else _).
  assert (Hlen1' : length conds1' =
                   (length conds1 + if truthy (jobTitle pd) then 1 else 0)%nat).
  { subst conds1'. destruct (truthy (jobTitle pd)); [rewrite length_app|]; simpl; lia. }
  rewrite guardedLoop_array.
  pose proof (forEach_push_array skillCondition ss conds1') as Hf.
  destruct (forEach_push (Arr ss) skillCondition conds1') as [conds2|e].
  2: { destruct Hf as (item & Hin & Hitem). unfold skillCondition in Hitem.
       rewrite forallb_forall in Hcompile. rewrite (Hcompile item Hin) in Hitem.
       discriminate. }
  assert (Hlen2 : length conds2 = (length conds1' + length ss)%nat).
  { destruct Hf as (pushed & Hall & ->). rewrite length_app.
    rewrite (concat_constant_length skillCondition 1 ss pushed);
      [lia| |exact Hall].
    intros item new. unfold skillCondition.
    destruct (RegExp_compiles item); intros Hnew; inversion Hnew; reflexivity. }
  clear Hf.
  assert (Htotal : length conds2 =
                   ((if truthy (processedQuery pd) then 3 else 0) + 2 * length ks +
                    (if truthy (jobTitle pd) then 1 else 0) + length ss)%nat) by lia.
  rewrite <- Htotal.
  (* the level *)
  destruct (proj2 (levelMap_get_returns (jobLevel pd)) Hlevel) as (range & ->).
  assert (Hexp : forall (r : value) (m : gmap jsstring value),
             <[js "experience" := r]> m !! js "$or" = m !! js "$or").
  { intros r m. apply lookup_insert_ne. discriminate. }
  destruct conds2 as [|c conds2]; cbn [length Nat.ltb Nat.leb].
  - destruct (truthy (jobLevel pd)); [destruct (truthy range)|];
      eexists; (split; [reflexivity|]); rewrite ?Hexp; exact Hor.
  - cbn [default from_option or_concat truthy negb].
    destruct (truthy (jobLevel pd)); [destruct (truthy range)|];
      eexists; (split; [reflexivity|]); exists (c :: conds2);
      rewrite ?Hexp, lookup_insert_eq; split; reflexivity.
Qed.

(** X12. For an AI-derived intent over a base without [$or],
    [buildEnhancedQuery] returns exactly when the keywords can be looped
    over, the skills can be looped over, every skill of a skills array
    is a valid pattern, and the job level has a primitive value.  A
    non-empty string of keywords or skills, a skill such as an unbalanced
    parenthesis, a length or a level that is an object with a [toString]
    property of its own, make it throw. *)
Theorem ai_query_returns_iff pd base :
  truthy (useAI pd) = true ->
  base !! js "$or" = None ->
  (exists q, buildEnhancedQuery (Some pd) base = Returns q) <->
  loopable (keywords pd) = true /\
  loopable (skills pd) = true /\
  (forall ss, skills pd = Arr ss -> forallb RegExp_compiles ss = true) /\
  hasPrimitive (jobLevel pd) = true.
Proof.
  intros Hai Hor. unfold buildEnhancedQuery.
  rewrite Hai, Hor. cbn [negb].
  set (conds0 := if truthy (processedQuery pd) then _ else _).
  set (each_kw := fun keyword : value =>
                    Returns [regexCondition "title" keyword;
                             regexCondition "description" keyword]).
  (* the loop over the keywords *)
  pose proof (guardedLoop_returns (keywords pd) each_kw conds0) as Hk.
  destruct (guardedLoop (keywords pd) each_kw conds0) as [conds1|e].
  2: { split; [intros (q & Hq); discriminate|].
       intros (Hloop & _). destruct Hk as [_ Hk].
       destruct Hk as (c & Hc); [|discriminate].
       split; [exact Hloop|]. intros; eexists; reflexivity. }
  assert (Hkl : loopable (keywords pd) = true)
    by (apply Hk; eexists; reflexivity).
  clear Hk.
  (* the loop over the skills *)
  set (conds1' := if truthy (jobTitle pd) then _ else _).
  pose proof (guardedLoop_returns (skills pd) skillCondition conds1') as Hs.
  destruct (guardedLoop (skills pd) skillCondition conds1') as [conds2|e].
  2: { split; [intros (q & Hq); discriminate|].
       intros (_ & Hloop & Hcompile & _). destruct Hs as [_ Hs].
       destruct Hs as (c & Hc); [|discriminate].
       split; [exact Hloop|]. intros items Hitems item Hin.
       specialize (Hcompile items Hitems). rewrite forallb_forall in Hcompile.
       unfold skillCondition. rewrite (Hcompile item Hin). eexists; reflexivity. }
  destruct Hs as [Hs _]. destruct Hs as (Hsl & Hitems); [eexists; reflexivity|].
  assert (Hcompile : forall ss, skills pd = Arr ss -> forallb RegExp_compiles ss = true).
  { intros ss Hss. apply forallb_forall. intros item Hin.
    destruct (Hitems ss Hss item Hin) as (new & Hnew).
    unfold skillCondition in Hnew.
    destruct (RegExp_compiles item); [reflexivity | discriminate]. }
  (* the disjunction and the level *)
  pose proof (levelMap_get_returns (jobLevel pd)) as Hl.
  assert (Hfalsy : truthy (jobLevel pd) = false -> hasPrimitive (jobLevel pd) = true).
  { destruct (jobLevel pd); first [reflexivity | discriminate]. }
  destruct (0 <? length conds2)%nat; cbn [default from_option or_concat truthy negb];
    (destruct (truthy (jobLevel pd));
     [ destruct (levelMap_get (jobLevel pd)) as [range|e];
       [ split; [|intros _; destruct (truthy range); eexists; reflexivity];
         intros _; repeat (split; [assumption|]); apply Hl; eexists; reflexivity
       | split; [intros (q & Hq); discriminate|];
         intros (_ & _ & _ & Hp); apply Hl in Hp; destruct Hp as (r & Hr);
         discriminate ]
     | split; [|intros _; eexists; reflexivity];
       intros _; repeat (split; [assumption|]); apply Hfalsy; reflexivity ]).
Qed.

(** X13. For an intent that is not AI-derived the query depends on the intent
    through [processedQuery] alone (keywords, skills, title and level are
    ignored), building never throws, and building again over the result
    changes nothing. *)
Theorem plain_query_uses_only_the_phrase pd1 pd2 base :
  truthy (useAI pd1) = false ->
  truthy (useAI pd2) = false ->
  processedQuery pd1 = processedQuery pd2 ->
  exists q,
    buildEnhancedQuery (Some pd1) base = Returns q /\
    buildEnhancedQuery (Some pd2) base = Returns q /\
    buildEnhancedQuery (Some pd1) q = Returns q /\
    (truthy (processedQuery pd1) = false -> q = base).
Proof.
  intros H1 H2 Hq. unfold buildEnhancedQuery. rewrite H1, H2, <- Hq. cbn [negb].
  destruct (truthy (processedQuery pd1)).
  - eexists. split; [reflexivity|]. split; [reflexivity|].
    split; [|discriminate]. rewrite insert_insert_eq. reflexivity.
  - exists base. repeat split; reflexivity.
Qed.

Lemma levelMap_get_unknown level :
  spec_levelRange level = None ->
  ~ In level objectPrototypeMembers ->
  levelMap_get (Str level) = Returns Undefined.
Proof.
  intros Hrange Hproto.
  assert (Hown : own_prop levelMap level = None).
  { unfold spec_levelRange in Hrange.
    repeat case_bool_decide; try discriminate.
    unfold levelMap. cbn [own_prop].
    repeat (rewrite (bool_decide_eq_false_2 (_ = level)) by congruence).
    reflexivity. }
  unfold levelMap_get. rewrite Hown.
  rewrite bool_decide_eq_false_2; [reflexivity|].
  intros Hin. apply Hproto. apply list_elem_of_In. exact Hin.
Qed.

(** X14. A [jobLevel] that is a string other than the four levels (and not a
    name every object inherits), such as [Senior] with a capital, adds no
    experience filter: the query keeps the base's [experience]. *)
Theorem unknown_level_adds_no_filter pd base q level :
  truthy (useAI pd) = true ->
  jobLevel pd = Str level ->
  spec_levelRange level = None ->
  ~ In level objectPrototypeMembers ->
  buildEnhancedQuery (Some pd) base = Returns q ->
  q !! js "experience" = base !! js "experience".
Proof.
  intros Hai Hlevel Hrange Hproto Hq.
  destruct (buildEnhancedQuery_ai_experience pd base q Hai Hq)
    as (range & Hfound & ->).
  rewrite Hlevel, (levelMap_get_unknown level Hrange Hproto) in Hfound.
  destruct (truthy (Str level)); injection Hfound as <-; reflexivity.
Qed.

(** X15. After an upstream failure the interpreter and the builder together
    give, over an empty base, the three conditions on the text as it was
    typed; a blank text gives the empty query. *)
Theorem failed_interpretation_searches_the_phrase w (s : jsstring) :
  upstreamFailed w (Str s) ->
  exists i,
    result (processSearchQuery w (Str s)) = Returns i /\
    buildEnhancedQuery (Some i) ∅ =
    Returns (if bool_decide (trim s = []) then ∅
             else <[js "$or" := Arr (phraseConditions (Str s))]> ∅).
Proof.
  intros Hfail.
  destruct (processSearchQuery_cases w s)
    as [(Hblank & Hr) | (Hnb & extracted & Hex & Hcases)].
  - eexists. split; [exact Hr|].
    rewrite bool_decide_eq_true_2 by exact Hblank. reflexivity.
  - rewrite bool_decide_eq_false_2 by exact Hnb.
    assert (Hs : truthy (Str s) = true).
    { destruct s; [exfalso; apply Hnb; reflexivity | reflexivity]. }
    destruct Hcases as [(Hkey & Hr) | [(Hkey & e & Hr) | (Hkey & parsed & i & Hask & _)]].
    + eexists. split; [exact Hr|]. unfold buildEnhancedQuery. simpl.
      simpl in Hs. rewrite Hs. reflexivity.
    + eexists. split; [exact Hr|]. unfold buildEnhancedQuery. simpl.
      simpl in Hs. rewrite Hs. reflexivity.
    + destruct (askGroq_failed w (Str s) Hkey Hfail) as (e & He). congruence.
Qed.

End BuilderMore.
(* ===================================================================== *)
(** ** webSearchService *)
(* ===================================================================== *)

Section WebSearchFacts.
Import WebSearch.
Context `{Engine} `{Globals}.

Lemma slice_length_bounds {A} (l : list A) (end_ : Z) :
  (length (Array_slice0 l end_) <= length l)%nat /\
  (0 <= end_ -> Z.of_nat (length (Array_slice0 l end_)) <= end_) /\
  (end_ < 0 ->
   Z.of_nat (length (Array_slice0 l end_)) = Z.max 0 (Z.of_nat (length l) + end_)).
Proof.
  unfold Array_slice0. rewrite length_take.
  destruct (Z.ltb_spec end_ 0); repeat split; intros; lia.
Qed.

Lemma slice_prefix {A} (l : list A) (end_ : Z) : Array_slice0 l end_ `prefix_of` l.
Proof. unfold Array_slice0. apply prefix_take. Qed.

(** X16. [searchExternalLinks] never throws, for any query and any integer
    [maxResults], or none.  A falsy or blank query gives no link and no
    log; a truthy query that is not a string, and a text that cannot be
    encoded, give no link and one logged error.  For any other text
    nothing is logged and the links are those of the sites
    [commonJobSites.slice(0, maxResults)], in order: the first
    [maxResults] of the five when [maxResults] is not negative, all
    but the last [-maxResults] when it is; each is titled with the text
    and its site. *)
Theorem searchExternalLinks_never_throws query (maxResults : option Z) :
  exists t links,
    searchExternalLinks query maxResults = (t, Returns links) /\
    (t = [] \/ t = [EvConsoleError] /\ links = []) /\
    map source links `prefix_of`
      map js ["LinkedIn"; "Indeed"; "Glassdoor"; "Monster"; "ZipRecruiter"]%string /\
    (links <> [] ->
     exists text, query = Str text /\ trim text <> [] /\
       Forall (fun link => title link = text ++ js " - " ++ source link) links) /\
    (truthy query = false \/ (exists text, query = Str text /\ trim text = []) ->
     t = [] /\ links = []) /\
    (truthy query = true -> (forall text, query <> Str text) ->
     t = [EvConsoleError] /\ links = []) /\
    (forall text e, query = Str text -> trim text <> [] ->
       encodeURIComponent text = Throws e ->
       t = [EvConsoleError] /\ links = []) /\
    (forall text encoded, query = Str text -> trim text <> [] ->
       encodeURIComponent text = Returns encoded ->
       let n := default 5 maxResults in
       t = [] /\
       map source links =
         Array_slice0
           (map js ["LinkedIn"; "Indeed"; "Glassdoor"; "Monster"; "ZipRecruiter"]%string)
           n /\
       map url links = Array_slice0 (map site_url (commonJobSites encoded)) n /\
       Z.of_nat (length links) =
         (if n <? 0 then Z.max 0 (5 + n) else Z.min n 5)).
Proof.
  assert (Hnil : forall t,
    (t = [] \/ t = [EvConsoleError]) ->
    (truthy query = false \/ (exists text, query = Str text /\ trim text = []) ->
     t = []) ->
    (truthy query = true -> (forall text, query <> Str text) ->
     t = [EvConsoleError]) ->
    (forall text e, query = Str text -> trim text <> [] ->
       encodeURIComponent text = Throws e -> t = [EvConsoleError]) ->
    (forall text encoded, query = Str text -> trim text <> [] ->
       encodeURIComponent text = Returns encoded -> False) ->
    exists t' links,
      (t, @Returns (list ExternalLink) []) = (t', Returns links) /\
      (t' = [] \/ t' = [EvConsoleError] /\ links = []) /\
      map source links `prefix_of`
        map js ["LinkedIn"; "Indeed"; "Glassdoor"; "Monster"; "ZipRecruiter"]%string /\
      (links <> [] ->
       exists text, query = Str text /\ trim text <> [] /\
         Forall (fun link => title link = text ++ js " - " ++ source link) links) /\
      (truthy query = false \/ (exists text, query = Str text /\ trim text = []) ->
       t' = [] /\ links = []) /\
      (truthy query = true -> (forall text, query <> Str text) ->
       t' = [EvConsoleError] /\ links = []) /\
      (forall text e, query = Str text -> trim text <> [] ->
         encodeURIComponent text = Throws e ->
         t' = [EvConsoleError] /\ links = []) /\
      (forall text encoded, query = Str text -> trim text <> [] ->
         encodeURIComponent text = Returns encoded ->
         let n := default 5 maxResults in
         t' = [] /\
         map source links =
           Array_slice0
             (map js ["LinkedIn"; "Indeed"; "Glassdoor"; "Monster"; "ZipRecruiter"]%string)
             n /\
         map url links = Array_slice0 (map site_url (commonJobSites encoded)) n /\
         Z.of_nat (length links) =
           (if n <? 0 then Z.max 0 (5 + n) else Z.min n 5))).
  { intros t Ht Hquiet Hbad Henc Hgood. exists t, [].
    split; [reflexivity|]. split; [tauto|].
    split; [apply prefix_nil|].
    split; [intros Hne; exfalso; apply Hne; reflexivity|].
    split; [intros Hq; split; [apply Hquiet; exact Hq | reflexivity]|].
    split; [intros Hq Hns; split; [apply Hbad; assumption | reflexivity]|].
    split; [intros text e Hq Hnb He; split; [eapply Henc; eassumption | reflexivity]|].
    intros text encoded Hq Hnb He. destruct (Hgood text encoded Hq Hnb He). }
  unfold searchExternalLinks, blankText.
  destruct (truthy query) eqn:Htruthy; cbn [negb].
  2:{ apply Hnil.
      - left. reflexivity.
      - reflexivity.
      - discriminate.
      - intros text e -> Hnb _. exfalso. apply Hnb.
        destruct text; [reflexivity | discriminate Htruthy].
      - intros text encoded -> Hnb _. apply Hnb.
        destruct text; [reflexivity | discriminate Htruthy]. }
  destruct query as [| |b|q|text|items|props|pattern flags|n];
    try (apply Hnil;
         [ right; reflexivity
         | intros [Hf | (text & Hq & _)]; [discriminate Hf | discriminate Hq]
         | reflexivity
         | intros text e Hq; discriminate Hq
         | intros text encoded Hq; discriminate Hq ]).
  unfold bind at 1, lift at 1, try_catch.
  destruct (bool_decide (trim text = [])) eqn:Hblank.
  { apply bool_decide_eq_true in Hblank. apply Hnil.
    - left. reflexivity.
    - reflexivity.
    - intros _ Hns. destruct (Hns text eq_refl).
    - intros text' e Hq Hnb. injection Hq as <-. destruct (Hnb Hblank).
    - intros text' e Hq Hnb. injection Hq as <-. destruct (Hnb Hblank). }
  apply bool_decide_eq_false in Hblank.
  destruct (encodeURIComponent text) as [encoded|e] eqn:Henc.
  2:{ apply Hnil.
      - right. reflexivity.
      - intros [Hf | (text' & Hq & Hb)]; [discriminate Hf|].
        injection Hq as <-. destruct (Hblank Hb).
      - intros _ Hns. destruct (Hns text eq_refl).
      - reflexivity.
      - intros text' encoded Hq _ He. injection Hq as <-. congruence. }
  cbn.
  set (sites := Array_slice0 (commonJobSites encoded) (default 5 maxResults)).
  assert (Hpre : sites `prefix_of` commonJobSites encoded) by apply slice_prefix.
  assert (Hlen : Z.of_nat (length sites) =
                 (if default 5 maxResults <? 0
                  then Z.max 0 (5 + default 5 maxResults)
                  else Z.min (default 5 maxResults) 5)).
  { subst sites. unfold Array_slice0. rewrite length_take.
    cbn [commonJobSites length].
    destruct (Z.ltb_spec (default 5 maxResults) 0); lia. }
  eexists [], _. split; [reflexivity|]. split; [left; reflexivity|].
  rewrite length_map, !map_map. cbn [source url].
  split; [|split; [|split; [|split; [|split]]]].
  - destruct Hpre as (rest & Hrest). exists (map site_name rest).
    rewrite <- map_app, <- Hrest. reflexivity.
  - intros _. exists text. split; [reflexivity|]. split; [exact Hblank|].
    apply Forall_map. apply Forall_true. intros site. reflexivity.
  - intros [Hf | (text' & Hq & Hb)]; [discriminate Hf|].
    injection Hq as <-. destruct (Hblank Hb).
  - intros _ Hns. destruct (Hns text eq_refl).
  - intros text' e Hq _ He. injection Hq as <-. congruence.
  - intros text' encoded' Hq _ He. injection Hq as <-.
    assert (encoded' = encoded) as -> by congruence.
    cbv zeta. split; [reflexivity|].
    split; [subst sites; rewrite <- Array_slice0_map; reflexivity|].
    split; [subst sites; rewrite <- Array_slice0_map; reflexivity|].
    exact Hlen.
Qed.

Lemma searchExternalLinks_returns query maxResults :
  exists t links, searchExternalLinks query maxResults = (t, Returns links).
Proof.
  unfold searchExternalLinks, blankText, try_catch, bind, lift, ret, emit.
  destruct (truthy query); cbn [negb]; [|eexists _, _; reflexivity].
  destruct query; try (eexists _, _; reflexivity).
  destruct (bool_decide _); [eexists _, _; reflexivity|].
  destruct (encodeURIComponent s); eexists _, _; reflexivity.
Qed.

(** X17. [searchExternalLinksWithAI] does exactly what [searchExternalLinks]
    does with a limit of five, log included: its own handler never runs. *)
Theorem searchExternalLinksWithAI_adds_nothing query :
  searchExternalLinksWithAI query = searchExternalLinks query (Some 5).
Proof.
  unfold searchExternalLinksWithAI.
  destruct (searchExternalLinks_returns query (Some 5)) as (t & links & ->).
  unfold bind, ret, try_catch. rewrite app_nil_r. reflexivity.
Qed.

End WebSearchFacts.

(* ===================================================================== *)
(** ** groqService: the lazily created client *)
(* ===================================================================== *)

Section ClientFacts.
Import GroqClient.

Lemma calls_with_client client env_keys :
  Forall2 (fun env_key returned =>
             returned = match env_key with
                        | None | Some [] => None
                        | Some _ => Some client
                        end)
          env_keys (calls env_keys (Some client)).1 /\
  (calls env_keys (Some client)).2 = Some client.
Proof.
  induction env_keys as [|env_key rest [IH1 IH2]]; [split; [constructor | reflexivity]|].
  cbn [calls].
  assert (Hcall : getGroqClient env_key (Some client) =
                  (match env_key with
                   | None | Some [] => None
                   | Some _ => Some client
                   end, Some client)).
  { destruct env_key as [[|c key]|]; reflexivity. }
  rewrite Hcall. destruct (calls rest (Some client)) as [clients groq'].
  cbn in *. split; [constructor; [reflexivity | exact IH1] | exact IH2].
Qed.

(** X18. Once a client exists it is the one every later call returns: after a
    first call under a key, a call returns [null] when the variable is
    unset or empty, and otherwise the client created with the first key,
    whatever the variable holds by then. *)
Theorem client_keeps_first_key (first : jsstring) (later : list (option jsstring)) :
  first <> [] ->
  Forall2 (fun env_key returned =>
             returned = match env_key with
                        | None | Some [] => None
                        | Some _ => Some {| apiKey := first |}
                        end)
          (Some first :: later) (calls (Some first :: later) None).1.
Proof.
  intros Hfirst. destruct first as [|c first]; [congruence|].
  cbn [calls getGroqClient].
  destruct (calls_with_client {| apiKey := c :: first |} later) as [Hlater _].
  destruct (calls later (Some {| apiKey := c :: first |})) as [clients groq'].
  cbn in *. constructor; [reflexivity | exact Hlater].
Qed.

End ClientFacts.
(* ===================================================================== *)
(** ** utils/validation *)
(* ===================================================================== *)

Section RegexFacts.
Import Regex.

Lemma matches_seq_inv r1 r2 s :
  matches (Seq r1 r2) s ->
  exists s1 s2, s = s1 ++ s2 /\ matches r1 s1 /\ matches r2 s2.
Proof. intros Hm. inversion Hm; subst. eauto. Qed.

Lemma nullable_matches r : nullable r = true <-> matches r [].
Proof.
  induction r as [| |p|r1 IH1 r2 IH2|r1 IH1 r2 IH2|r IH]; cbn [nullable].
  - split; [discriminate | intros Hm; inversion Hm].
  - split; [intros _; constructor | reflexivity].
  - split; [discriminate | intros Hm; inversion Hm].
  - rewrite andb_true_iff, IH1, IH2. split.
    + intros [H1 H2]. exact (matches_seq _ _ [] [] H1 H2).
    + intros Hm. apply matches_seq_inv in Hm as (s1 & s2 & Heq & H1 & H2).
      destruct s1; [|discriminate]. destruct s2; [|discriminate]. tauto.
  - rewrite orb_true_iff, IH1, IH2. split.
    + intros [Hm|Hm]; [apply matches_alt_l | apply matches_alt_r]; exact Hm.
    + intros Hm. inversion Hm; subst; tauto.
  - split; [intros _; constructor | reflexivity].
Qed.

(** A non-empty match of a starred expression starts with a non-empty
    match of the expression. *)
Lemma matches_star_cons r c s :
  matches (Star r) (c :: s) ->
  exists s1 s2, s = s1 ++ s2 /\ matches r (c :: s1) /\ matches (Star r) s2.
Proof.
  intros Hm. remember (Star r) as r' eqn:Hr. remember (c :: s) as s' eqn:Hs.
  revert s Hs.
  induction Hm as [| | | | | |r0 s1 s2 H1 _ H2 IH2]; try discriminate.
  injection Hr as ->. intros s Hs.
  destruct s1 as [|c1 s1].
  - apply IH2; [reflexivity | exact Hs].
  - injection Hs as -> <-. exists s1, s2. repeat split; assumption.
Qed.

Lemma deriv_matches c r s : matches (deriv c r) s <-> matches r (c :: s).
Proof.
  revert s.
  induction r as [| |p|r1 IH1 r2 IH2|r1 IH1 r2 IH2|r IH]; intros s; cbn [deriv].
  - split; intros Hm; inversion Hm.
  - split; intros Hm; inversion Hm.
  - destruct (p c) eqn:Hp; split; intros Hm; inversion Hm; subst.
    + constructor. exact Hp.
    + constructor.
    + congruence.
  - assert (Hseq : matches (Seq (deriv c r1) r2) s ->
                   matches (Seq r1 r2) (c :: s)).
    { intros Hm. apply matches_seq_inv in Hm as (s1 & s2 & -> & H1 & H2).
      apply IH1 in H1. exact (matches_seq _ _ (c :: s1) s2 H1 H2). }
    assert (Hinv : matches (Seq r1 r2) (c :: s) ->
                   matches (Seq (deriv c r1) r2) s \/
                   (matches r1 [] /\ matches r2 (c :: s))).
    { intros Hm. apply matches_seq_inv in Hm as (s1 & s2 & Heq & H1 & H2).
      destruct s1 as [|c1 s1].
      - right. simpl in Heq. subst. tauto.
      - left. injection Heq as <- ->. apply IH1 in H1.
        exact (matches_seq _ _ s1 s2 H1 H2). }
    destruct (nullable r1) eqn:Hnull.
    + apply nullable_matches in Hnull. split.
      * intros Hm. inversion Hm; subst; [apply Hseq; assumption|].
        apply (matches_seq _ _ [] (c :: s) Hnull). apply IH2. assumption.
      * intros Hm. destruct (Hinv Hm) as [Hl | [_ Hr]].
        -- apply matches_alt_l. exact Hl.
        -- apply matches_alt_r. apply IH2. exact Hr.
    + split; [exact Hseq|]. intros Hm. destruct (Hinv Hm) as [Hl | [Hn _]]; [exact Hl|].
      apply nullable_matches in Hn. congruence.
  - split; intros Hm; inversion Hm; subst;
      [apply matches_alt_l, IH1 | apply matches_alt_r, IH2
      | apply matches_alt_l, IH1 | apply matches_alt_r, IH2]; assumption.
  - split.
    + intros Hm. apply matches_seq_inv in Hm as (s1 & s2 & -> & H1 & H2).
      apply IH in H1. exact (matches_star_app _ (c :: s1) s2 H1 H2).
    + intros Hm. destruct (matches_star_cons _ _ _ Hm) as (s1 & s2 & -> & H1 & H2).
      apply matches_seq; [apply IH; exact H1 | exact H2].
Qed.

(** The matcher decides the language of the expression. *)
Lemma test_matches r s : test r s = true <-> matches r s.
Proof.
  unfold test. revert r. induction s as [|c s IH]; intros r; cbn [foldl].
  - apply nullable_matches.
  - rewrite IH. apply deriv_matches.
Qed.

Lemma matches_star_class p s :
  matches (Star (Class p)) s <-> forallb p s = true.
Proof.
  split.
  - intros Hm. remember (Star (Class p)) as r eqn:Hr.
    induction Hm as [| | | | | |r0 s1 s2 H1 _ H2 IH2]; try discriminate;
      [reflexivity|].
    injection Hr as ->. inversion H1; subst. cbn [app forallb].
    rewrite IH2 by reflexivity. rewrite andb_true_r. assumption.
  - induction s as [|c s IH]; [constructor|]. cbn [forallb].
    rewrite andb_true_iff. intros [Hc Hs].
    apply (matches_star_app _ [c] s); [constructor; exact Hc | apply IH; exact Hs].
Qed.

Lemma matches_plus_class p s :
  matches (Plus (Class p)) s <-> s <> [] /\ forallb p s = true.
Proof.
  unfold Plus. split.
  - intros Hm. apply matches_seq_inv in Hm as (s1 & s2 & -> & H1 & H2).
    inversion H1; subst. apply matches_star_class in H2.
    split; [discriminate|]. cbn [app forallb]. rewrite H2, andb_true_r. assumption.
  - intros [Hne Hall]. destruct s as [|c s]; [congruence|].
    cbn [forallb] in Hall. apply andb_true_iff in Hall as [Hc Hs].
    apply (matches_seq _ _ [c] s); [constructor; exact Hc|].
    apply matches_star_class. exact Hs.
Qed.

Lemma matches_lit c s : matches (Lit c) s <-> s = [c].
Proof.
  unfold Lit. split.
  - intros Hm. inversion Hm; subst. f_equal. symmetry. apply N.eqb_eq. assumption.
  - intros ->. constructor. apply N.eqb_refl.
Qed.

End RegexFacts.

Section ValidationFacts.
Import Regex Validation.
Context `{Engine}.

(** X19. [validateEmail] accepts a string exactly when it reads
    [local@domain.tld] with the three parts non-empty and free of white
    space and of [@]; the domain may itself contain dots. *)
Theorem validateEmail_accepts_iff (s : jsstring) :
  validateEmail (Str s) = Returns true <->
  exists local domain tld,
    s = local ++ AT :: domain ++ DOT :: tld /\
    local <> [] /\ domain <> [] /\ tld <> [] /\
    forallb notSpaceNorAt (local ++ domain ++ tld) = true.
Proof.
  unfold validateEmail.
  assert (Hret : Returns (test emailRegex s) = Returns true <->
                 test emailRegex s = true).
  { split; [intros Hr; injection Hr as ->; reflexivity | intros ->; reflexivity]. }
  rewrite Hret. clear Hret.
  unfold emailRegex. rewrite test_matches. split.
  - intros Hm.
    apply matches_seq_inv in Hm as (local & s1 & -> & Hlocal & H1).
    apply matches_seq_inv in H1 as (at_ & s2 & -> & Hat & H2).
    apply matches_seq_inv in H2 as (domain & s3 & -> & Hdomain & H3).
    apply matches_seq_inv in H3 as (dot & tld & -> & Hdot & Htld).
    apply matches_lit in Hat, Hdot. subst.
    apply matches_plus_class in Hlocal as [? Hl], Hdomain as [? Hd], Htld as [? Ht].
    exists local, domain, tld. repeat split; try assumption.
    rewrite !forallb_app, Hl, Hd, Ht. reflexivity.
  - intros (local & domain & tld & -> & Hl & Hd & Ht & Hall).
    rewrite !forallb_app, !andb_true_iff in Hall. destruct Hall as (Hal & Had & Hat).
    apply matches_seq; [apply matches_plus_class; tauto|].
    apply (matches_seq _ _ [AT]); [apply matches_lit; reflexivity|].
    apply matches_seq; [apply matches_plus_class; tauto|].
    apply (matches_seq _ _ [DOT]); [apply matches_lit; reflexivity|].
    apply matches_plus_class; tauto.
Qed.

End ValidationFacts.

Section ValidationVerdict.
Import Regex Validation.
Context `{Engine}.

Lemma nameTooShort_throws v :
  (exists e, nameTooShort v = Throws e) <->
  truthy v = true /\ forall s, v <> Str s.
Proof.
  unfold nameTooShort. destruct (truthy v) eqn:Ht; cbn [negb].
  - destruct v as [| |b|q|s|items|props|pattern flags|n];
      try (split; [intros _; split; [reflexivity | discriminate]
                  | intros _; eexists; reflexivity]).
    split; [intros [e He]; discriminate He
           | intros [_ Hs]; exfalso; exact (Hs s eq_refl)].
  - split; [intros [e He]; discriminate He | intros [Hf _]; discriminate Hf].
Qed.

Lemma hasPrimitive_falsy v : truthy v = false -> hasPrimitive v = true.
Proof. destruct v; first [reflexivity | discriminate]. Qed.

Lemma validateEmail_throws v :
  (exists e, validateEmail v = Throws e) <-> hasPrimitive v = false.
Proof.
  unfold validateEmail. destruct (hasPrimitive v) eqn:Hp.
  - split; [|discriminate]. intros [e He].
    destruct v; rewrite ?Hp in He; discriminate He.
  - split; [reflexivity|]. intros _.
    destruct v; rewrite ?Hp; first [discriminate Hp | eexists; reflexivity].
Qed.

Lemma emailRejected_throws v :
  (exists e, emailRejected v = Throws e) <-> hasPrimitive v = false.
Proof.
  unfold emailRejected. destruct (truthy v) eqn:Ht; cbn [negb].
  - rewrite <- validateEmail_throws.
    destruct (validateEmail v) as [accepted|e].
    + split; intros [e He]; discriminate He.
    + split; intros _; eexists; reflexivity.
  - rewrite (hasPrimitive_falsy v Ht).
    split; [intros [e He]; discriminate He | discriminate].
Qed.

Lemma ge_six_throws v :
  (exists e, ge_six v = Throws e) <-> hasPrimitive v = false.
Proof.
  unfold ge_six. destruct (hasPrimitive v) eqn:Hp.
  - split; [|discriminate]. intros [e He].
    destruct v; rewrite ?Hp in He; discriminate He.
  - split; [reflexivity|]. intros _.
    destruct v; rewrite ?Hp; first [discriminate Hp | eexists; reflexivity].
Qed.

Lemma passwordRejected_throws v :
  (exists e, passwordRejected v = Throws e) <->
  (exists props, v = Obj props /\
     hasPrimitive (default Undefined (own_prop props (js "length"))) = false) \/
  (exists n, v = Native n /\ hasPrimitive (Native_length n) = false).
Proof.
  unfold passwordRejected, validatePassword.
  destruct (truthy v) eqn:Ht; cbn [negb].
  - destruct v as [| |b|q|s|items|props|pattern flags|n];
      try (split; [intros [e He]; discriminate He
                  | intros [(props' & Hv & _) | (n' & Hv & _)]; discriminate Hv]).
    + pose proof (ge_six_throws (default Undefined (own_prop props (js "length")))) as Hg.
      destruct (ge_six _) as [b|e].
      * split; [intros [e He]; discriminate He|].
        intros [(props' & Hv & Hp) | (n' & Hv & _)]; [|discriminate Hv].
        injection Hv as <-. apply Hg in Hp. destruct Hp as [e He]. discriminate He.
      * split; [|intros _; eexists; reflexivity].
        intros _. left. exists props. split; [reflexivity|].
        apply Hg. eexists; reflexivity.
    + pose proof (ge_six_throws (Native_length n)) as Hg.
      destruct (ge_six _) as [b|e].
      * split; [intros [e He]; discriminate He|].
        intros [(props' & Hv & _) | (n' & Hv & Hp)]; [discriminate Hv|].
        injection Hv as <-. apply Hg in Hp. destruct Hp as [e He]. discriminate He.
      * split; [|intros _; eexists; reflexivity].
        intros _. right. exists n. split; [reflexivity|].
        apply Hg. eexists; reflexivity.
  - split; [intros [e He]; discriminate He|].
    intros [(props & -> & _) | (n & -> & _)]; discriminate Ht.
Qed.

(** X20. [validateUserInput] throws exactly when the name is a truthy value
    that is not a string, or the e-mail address has no primitive value
    for the pattern to be tested on, or the password is an object (or an
    inherited function) whose [length] has no primitive value to compare
    with 6.  On three strings
    it returns a verdict that is valid exactly when the trimmed name has
    two code units or more, the e-mail address is accepted and the
    password has six code units or more (untrimmed); a verdict is valid
    exactly when it lists no error. *)
Theorem validateUserInput_verdict (data : UserInput) :
  ((exists e, validateUserInput data = Throws e) <->
   (truthy (name data) = true /\ forall s, name data <> Str s) \/
   hasPrimitive (email data) = false \/
   (exists props, password data = Obj props /\
      hasPrimitive (default Undefined (own_prop props (js "length"))) = false) \/
   (exists n, password data = Native n /\
      hasPrimitive (Native_length n) = false)) /\
  (forall r, validateUserInput data = Returns r ->
             (isValid r = true <-> errors r = []) /\
             (length (errors r) <= 3)%nat) /\
  (forall n e p,
     data = {| name := Str n; email := Str e; password := Str p |} ->
     exists r, validateUserInput data = Returns r /\
       (isValid r = true <->
        (2 <= length (trim n))%nat /\ validateEmail (Str e) = Returns true /\
        (6 <= length p)%nat)).
Proof.
  split; [|split].
  - rewrite <- nameTooShort_throws, <- emailRejected_throws,
      <- passwordRejected_throws.
    unfold validateUserInput.
    destruct (nameTooShort (name data)) as [badName|e1];
      [|split; [intros _; left|intros _]; eexists; reflexivity].
    destruct (emailRejected (email data)) as [badEmail|e2];
      [|split; [intros _; right; left|intros _]; eexists; reflexivity].
    destruct (passwordRejected (password data)) as [badPassword|e3];
      [|split; [intros _; right; right|intros _]; eexists; reflexivity].
    split; [intros [e He]; discriminate He|].
    intros [[e He] | [[e He] | [e He]]]; discriminate He.
  - intros r Hr. unfold validateUserInput in Hr.
    destruct (nameTooShort (name data)) as [badName|e]; [|discriminate].
    destruct (emailRejected (email data)) as [badEmail|e]; [|discriminate].
    destruct (passwordRejected (password data)) as [badPassword|e]; [|discriminate].
    injection Hr as <-. cbn [isValid errors].
    destruct badName, badEmail, badPassword;
      cbn; (split; [split; [discriminate || reflexivity | discriminate || reflexivity] | lia]).
  - intros n e p ->.
    unfold validateUserInput, nameTooShort, emailRejected, passwordRejected,
      validatePassword, validateEmail.
    cbn [name email password truthy].
    assert (Hn : (if negb (negb (bool_decide (n = [])))
                  then Returns true
                  else Returns (length (trim n) <? 2)%nat) =
                 Returns (length (trim n) <? 2)%nat).
    { destruct n; reflexivity. }
    assert (He : (if negb (negb (bool_decide (e = [])))
                  then Returns true
                  else Returns (negb (test emailRegex e))) =
                 Returns (negb (test emailRegex e))).
    { destruct e; reflexivity. }
    assert (Hp : (if negb (negb (bool_decide (p = [])))
                  then Returns true
                  else match (if negb (negb (bool_decide (p = [])))
                              then Returns (Str p)
                              else Returns (Bool (6 <=? length p)%nat)) with
                       | Returns verdict => Returns (negb (truthy verdict))
                       | Throws e => Throws e
                       end) =
                 Returns (negb (6 <=? length p)%nat)).
    { destruct p; reflexivity. }
    rewrite Hn, He, Hp. eexists. split; [reflexivity|]. cbn [isValid].
    destruct (Nat.ltb_spec (length (trim n)) 2), (test emailRegex e),
      (Nat.leb_spec 6 (length p)); cbn;
      split; try discriminate; try (intros (? & ? & ?); try lia; discriminate);
      intros _; repeat split; lia.
Qed.

End ValidationVerdict.
(* ===================================================================== *)
(** ** routes/jobs *)
(* ===================================================================== *)

Section MonadFacts.
Context {A B : Type}.

Lemma result_bind (m : M A) (k : A -> M B) :
  result (bind m k) =
  match result m with Returns a => result (k a) | Throws e => Throws e end.
Proof. destruct m as [t [a|e]]; cbn; [destruct (k a)|]; reflexivity. Qed.

Lemma result_try_catch (m : M A) (handler : exn -> M A) :
  result (try_catch m handler) =
  match result m with Returns a => Returns a | Throws e => result (handler e) end.
Proof. destruct m as [t [a|e]]; cbn; [|destruct (handler e)]; reflexivity. Qed.

Lemma trace_bind (m : M A) (k : A -> M B) :
  trace (bind m k) =
  match result m with
  | Returns a => trace m ++ trace (k a)
  | Throws e => trace m
  end.
Proof. destruct m as [t [a|e]]; cbn; [destruct (k a)|]; reflexivity. Qed.

Lemma trace_try_catch (m : M A) (handler : exn -> M A) :
  trace (try_catch m handler) =
  match result m with
  | Returns a => trace m
  | Throws e => trace m ++ trace (handler e)
  end.
Proof. destruct m as [t [a|e]]; cbn; [|destruct (handler e)]; reflexivity. Qed.

End MonadFacts.

Section RouterFacts.
Import Groq JobsRouter.
Context `{Engine} `{Natural} `{Globals}.

(** The three filters set after the search text has been dealt with. *)
Lemma additionalFilters_lookup p base q :
  additionalFilters p base = Returns q ->
  q !! js "location" =
    (if truthy (location p) then Some (regexMatch (location p))
     else base !! js "location") /\
  q !! js "experience" =
    (if truthy (minExperience p)
     then Some (Obj [(js "$lte", parseInt (minExperience p))])
     else base !! js "experience") /\
  (truthy (JobsRouter.skills p) = false -> q !! js "skills" = base !! js "skills") /\
  (truthy (JobsRouter.skills p) = true ->
   exists array, skillArray (JobsRouter.skills p) = Returns array /\
                 q !! js "skills" = Some (Obj [(js "$in", array)])) /\
  (forall k, k <> js "location" -> k <> js "experience" -> k <> js "skills" ->
             q !! k = base !! k).
Proof.
  unfold additionalFilters. intros Hq.
  destruct (truthy (JobsRouter.skills p)) eqn:Hs.
  - destruct (skillArray (JobsRouter.skills p)) as [array|e]; [|discriminate].
    destruct (truthy (minExperience p));
      [destruct (hasPrimitive (minExperience p)); [|discriminate]|];
      injection Hq as <-;
      destruct (truthy (location p));
      (split; [|split; [|split; [intros Hf; discriminate Hf|split]]]);
      try (intros _; exists array; split; [reflexivity|]);
      try (intros k K1 K2 K3);
      rewrite ?lookup_insert_eq;
      repeat (rewrite lookup_insert_ne by (discriminate || congruence));
      rewrite ?lookup_insert_eq; reflexivity.
  - destruct (truthy (minExperience p));
      [destruct (hasPrimitive (minExperience p)); [|discriminate]|];
      injection Hq as <-;
      destruct (truthy (location p));
      (split; [|split; [|split; [intros _|split; [intros Hf; discriminate Hf|]]]]);
      try (intros k K1 K2 K3);
      rewrite ?lookup_insert_eq;
      repeat (rewrite lookup_insert_ne by (discriminate || congruence));
      rewrite ?lookup_insert_eq; reflexivity.
Qed.

Lemma skillArray_throws v :
  (exists e, skillArray v = Throws e) <->
  (forall s, v <> Str s) /\ (forall items, v <> Arr items).
Proof.
  destruct v; cbn;
    try (split; [intros _; split; discriminate | intros _; eexists; reflexivity]).
  - split; [intros [e He]; discriminate He | intros [Hs _]; exfalso; exact (Hs s eq_refl)].
  - split; [intros [e He]; discriminate He
           | intros [_ Ha]; exfalso; exact (Ha items eq_refl)].
Qed.

(** The filters throw on skills that are neither a string nor an array,
    and on a least experience that has no primitive value to parse. *)
Lemma additionalFilters_throws p base :
  (exists e, additionalFilters p base = Throws e) <->
  (truthy (JobsRouter.skills p) = true /\
   (forall s, JobsRouter.skills p <> Str s) /\
   (forall items, JobsRouter.skills p <> Arr items)) \/
  hasPrimitive (minExperience p) = false.
Proof.
  rewrite <- skillArray_throws. unfold additionalFilters.
  assert (Hmin : forall query : gmap jsstring value,
            (exists e,
               (if truthy (minExperience p)
                then if hasPrimitive (minExperience p)
                     then Returns (<[js "experience" :=
                                       Obj [(js "$lte", parseInt (minExperience p))]]> query)
                     else Throws noPrimitive
                else Returns query) = Throws e) <->
            hasPrimitive (minExperience p) = false).
  { intros query. destruct (truthy (minExperience p)) eqn:Ht.
    - destruct (hasPrimitive (minExperience p)).
      + split; [intros [e He]; discriminate He | discriminate].
      + split; [reflexivity | intros _; eexists; reflexivity].
    - rewrite (hasPrimitive_falsy _ Ht).
      split; [intros [e He]; discriminate He | discriminate]. }
  destruct (truthy (JobsRouter.skills p)).
  - destruct (skillArray (JobsRouter.skills p)) as [array|e'].
    + rewrite Hmin. split; [intros Hp; right; exact Hp|].
      intros [(_ & e & He) | Hp]; [discriminate He | exact Hp].
    + split; [intros _; left; split; [reflexivity | eexists; reflexivity]
             | intros _; eexists; reflexivity].
  - rewrite Hmin. split; [intros Hp; right; exact Hp|].
    intros [(Hf & _) | Hp]; [discriminate Hf | exact Hp].
Qed.

Lemma blankText_throws name_ v :
  (exists e, blankText name_ v = Throws e) <->
  truthy v = true /\ forall s, v <> Str s.
Proof.
  unfold blankText. destruct (truthy v) eqn:Ht; cbn [negb].
  - destruct v;
      try (split; [intros _; split; [reflexivity | discriminate]
                  | intros _; eexists; reflexivity]).
    split; [intros [e He]; discriminate He | intros [_ Hs]; exfalso; exact (Hs s eq_refl)].
  - split; [intros [e He]; discriminate He | intros [Hf _]; discriminate Hf].
Qed.

Lemma blankText_returns name_ v b :
  blankText name_ v = Returns b ->
  if b then truthy v = false \/ exists s, v = Str s /\ trim s = []
  else exists s, v = Str s /\ trim s <> [].
Proof.
  unfold blankText. destruct (truthy v) eqn:Ht; cbn [negb].
  - destruct v; try discriminate. intros Hb. injection Hb as <-.
    case_bool_decide; [right | ]; eexists; split; try reflexivity; assumption.
  - intros Hb. injection Hb as <-. left. reflexivity.
Qed.

(** A query built over the empty object has at most [$or] and
    [experience]; assigned onto the status query it keeps the status. *)
Lemma assigned_lookup p pd enhanced :
  buildEnhancedQuery pd ∅ = Returns enhanced ->
  Object_assign (statusQuery p) enhanced !! js "status" = statusQuery p !! js "status" /\
  (forall k, k <> js "status" -> k <> js "$or" -> k <> js "experience" ->
             Object_assign (statusQuery p) enhanced !! k = None).
Proof.
  intros Hq. destruct (buildEnhancedQuery_shape _ _ _ Hq) as (d & r & ->).
  unfold Object_assign, statusQuery. split.
  - rewrite lookup_union_r; [reflexivity|].
    destruct d, r; cbn [from_option id];
      repeat (rewrite lookup_insert_ne by discriminate); apply lookup_empty.
  - intros k K1 K2 K3. rewrite lookup_union_r.
    + rewrite lookup_insert_ne by congruence. apply lookup_empty.
    + destruct d, r; cbn [from_option id];
        repeat (rewrite lookup_insert_ne by congruence); apply lookup_empty.
Qed.

(** [GET /]: the query handed to the store. *)
Lemma getJobsQuery_result w p :
  result (getJobsQuery w p) =
  match blankText "search" (search p) with
  | Throws e => Throws e
  | Returns true => additionalFilters p (statusQuery p)
  | Returns false =>
      additionalFilters p
        match result (processSearchQuery (groqWorld w) (search p)) with
        | Returns processedSearch =>
            match buildEnhancedQuery (Some processedSearch) ∅ with
            | Returns enhancedQuery => Object_assign (statusQuery p) enhancedQuery
            | Throws _ =>
                <[js "$or" := Arr (phraseConditions (search p))]> (statusQuery p)
            end
        | Throws _ =>
            <[js "$or" := Arr (phraseConditions (search p))]> (statusQuery p)
        end
  end.
Proof.
  unfold getJobsQuery. rewrite result_bind. change (result (lift ?o)) with o.
  destruct (blankText "search" (search p)) as [[|]|e]; cbn [negb];
    [reflexivity | | reflexivity].
  rewrite result_bind, result_try_catch, result_bind.
  destruct (result (processSearchQuery (groqWorld w) (search p))) as [i|e];
    [|reflexivity].
  rewrite result_bind. change (result (lift ?o)) with o.
  destruct (buildEnhancedQuery (Some i) ∅) as [enh|e]; reflexivity.
Qed.

Lemma processSearchQuery_string_returns w (s : jsstring) :
  exists i, result (processSearchQuery w (Str s)) = Returns i.
Proof.
  destruct (processSearchQuery_cases w s)
    as [(_ & Hr) | (_ & extracted & _ & [(_ & Hr) | [(_ & e & Hr) | (_ & parsed & i & _ & Hr & _)]])];
    eexists; exact Hr.
Qed.

(** After an upstream failure the interpreter gives the direct-search
    intent of the text. *)
Lemma processSearchQuery_failed w (s : jsstring) :
  trim s <> [] ->
  upstreamFailed w (Str s) ->
  exists extracted error_,
    result (processSearchQuery w (Str s)) =
    Returns (directSearchIntent (Str s) extracted error_).
Proof.
  intros Hnb Hfail.
  destruct (processSearchQuery_cases w s)
    as [(Hblank & _) | (_ & extracted & _ & [(_ & Hr) | [(_ & e & Hr) | (Hkey & parsed & i & Hask & _)]])].
  - congruence.
  - eexists _, _. exact Hr.
  - eexists _, _. exact Hr.
  - destruct (askGroq_failed w (Str s) Hkey Hfail) as (e & He). congruence.
Qed.

Lemma direct_intent_query (s : jsstring) extracted error_ :
  s <> [] ->
  buildEnhancedQuery (Some (directSearchIntent (Str s) extracted error_)) ∅ =
  Returns (<[js "$or" := Arr (phraseConditions (Str s))]> ∅).
Proof.
  intros Hs. unfold buildEnhancedQuery, directSearchIntent.
  cbn [useAI processedQuery truthy negb].
  rewrite bool_decide_eq_false_2 by exact Hs. reflexivity.
Qed.

(** The base query [GET /] hands to the three filters has the status and
    nothing besides [$or] and [experience]. *)
Lemma listing_base w p :
  let base :=
    match result (processSearchQuery (groqWorld w) (search p)) with
    | Returns processedSearch =>
        match buildEnhancedQuery (Some processedSearch) ∅ with
        | Returns enhancedQuery => Object_assign (statusQuery p) enhancedQuery
        | Throws _ =>
            <[js "$or" := Arr (phraseConditions (search p))]> (statusQuery p)
        end
    | Throws _ =>
        <[js "$or" := Arr (phraseConditions (search p))]> (statusQuery p)
    end in
  base !! js "status" = statusQuery p !! js "status" /\
  (forall k, k <> js "status" -> k <> js "$or" -> k <> js "experience" ->
             base !! k = None).
Proof.
  assert (Hfallback : forall d : value,
    <[js "$or" := d]> (statusQuery p) !! js "status" = statusQuery p !! js "status" /\
    (forall k, k <> js "status" -> k <> js "$or" -> k <> js "experience" ->
               <[js "$or" := d]> (statusQuery p) !! k = None)).
  { intros d. split; [apply lookup_insert_ne; discriminate|].
    intros k K1 K2 K3. unfold statusQuery.
    rewrite !lookup_insert_ne by congruence. apply lookup_empty. }
  cbv zeta.
  destruct (result (processSearchQuery (groqWorld w) (search p))) as [i|e];
    [|apply Hfallback].
  destruct (buildEnhancedQuery (Some i) ∅) as [enh|e] eqn:Henh; [|apply Hfallback].
  exact (assigned_lookup p _ _ Henh).
Qed.

Lemma statusQuery_lookup p :
  statusQuery p !! js "status" =
    Some (if truthy (status p) then status p else Str (js "active")) /\
  (forall k, k <> js "status" -> statusQuery p !! k = None).
Proof.
  unfold statusQuery. split; [apply lookup_insert_eq|].
  intros k K1. rewrite lookup_insert_ne by congruence. apply lookup_empty.
Qed.

End RouterFacts.

Section RouterClaims.
Import Groq JobsRouter.
Context `{Engine} `{Natural} `{Globals}.

(** X21. The query [GET /] hands to the store always filters on a status,
    [active] unless one is asked for.  The [location] and [minExperience]
    parameters, when given, decide [location] and [experience], whatever
    the interpretation of the search text said about the level.  The
    query has no other field than these five. *)
Theorem listing_query_filters w p q :
  result (getJobsQuery w p) = Returns q ->
  q !! js "status" =
    Some (if truthy (status p) then status p else Str (js "active")) /\
  q !! js "location" =
    (if truthy (location p) then Some (regexMatch (location p)) else None) /\
  (truthy (minExperience p) = true ->
   q !! js "experience" = Some (Obj [(js "$lte", parseInt (minExperience p))])) /\
  (truthy (JobsRouter.skills p) = false -> q !! js "skills" = None) /\
  (forall k, is_Some (q !! k) ->
             In k (map js ["status"; "$or"; "experience"; "location"; "skills"]%string)).
Proof.
  rewrite getJobsQuery_result. intros Hq.
  destruct (statusQuery_lookup p) as (Hstatus & Hothers).
  assert (Hbase : exists base,
             additionalFilters p base = Returns q /\
             base !! js "status" = statusQuery p !! js "status" /\
             (forall k, k <> js "status" -> k <> js "$or" -> k <> js "experience" ->
                        base !! k = None)).
  { destruct (blankText "search" (search p)) as [[|]|e]; [| |discriminate].
    - exists (statusQuery p). split; [exact Hq|]. split; [reflexivity|].
      intros k K1 _ _. apply Hothers. exact K1.
    - eexists. split; [exact Hq|]. apply listing_base. }
  destruct Hbase as (base & Hfilters & Hbs & Hbo).
  destruct (additionalFilters_lookup p base q Hfilters)
    as (Hloc & Hexp & Hnoskills & Hskills & Hrest).
  split; [|split; [|split; [|split]]].
  - rewrite Hrest by discriminate. rewrite Hbs. exact Hstatus.
  - rewrite Hloc. rewrite Hbo by discriminate. reflexivity.
  - intros Hmin. rewrite Hexp, Hmin. reflexivity.
  - intros Hs. rewrite (Hnoskills Hs). apply Hbo; discriminate.
  - intros k [v Hv]. cbn [map In].
    destruct (decide (k = js "status")) as [->|K1]; [auto 10|].
    destruct (decide (k = js "$or")) as [->|K2]; [auto 10|].
    destruct (decide (k = js "experience")) as [->|K3]; [auto 10|].
    destruct (decide (k = js "location")) as [->|K4]; [auto 10|].
    destruct (decide (k = js "skills")) as [->|K5]; [auto 10|].
    exfalso. rewrite Hrest in Hv by congruence. rewrite Hbo in Hv by congruence.
    discriminate Hv.
Qed.

(** X22. [GET /] always answers, with 200 and the jobs of the store or with
    500 and a message.  It answers 500 in four situations only: the
    search text is a truthy value that is not a string, the skills are
    neither a string nor an array, the least experience has no primitive
    value to parse, or the store fails.  A failure of the
    text-understanding service is never one of them. *)
Theorem listing_fails_only_on_input_or_store w p :
  exists r,
    result (getJobs w p) = Returns r /\
    (code r = 200 /\ (exists jobs, json r = Jobs jobs) \/
     code r = 500 /\ (exists text, json r = Message text)) /\
    (code r = 500 <->
     (truthy (search p) = true /\ forall s, search p <> Str s) \/
     (truthy (JobsRouter.skills p) = true /\
      (forall s, JobsRouter.skills p <> Str s) /\
      (forall items, JobsRouter.skills p <> Arr items)) \/
     hasPrimitive (minExperience p) = false \/
     (exists q e, result (getJobsQuery w p) = Returns q /\ Job_find w q = Throws e)).
Proof.
  unfold getJobs. rewrite result_try_catch, result_bind.
  destruct (result (getJobsQuery w p)) as [q|e] eqn:Hq.
  - rewrite result_bind. change (result (lift ?o)) with o.
    destruct (Job_find w q) as [jobs|e] eqn:Hfind.
    + eexists. split; [reflexivity|]. cbn [code json].
      split; [left; split; [reflexivity | eexists; reflexivity]|].
      split; [discriminate|].
      rewrite getJobsQuery_result in Hq.
      intros [(Ht & Hs) | [Hbad | [Hbad | (q' & e & Hq' & He)]]].
      * destruct (proj2 (blankText_throws "search" (search p)) (conj Ht Hs)) as (e & He).
        rewrite He in Hq. discriminate Hq.
      * destruct (blankText "search" (search p)) as [[|]|e']; [| |discriminate];
          match type of Hq with additionalFilters p ?b = _ =>
            destruct (proj2 (additionalFilters_throws p b) (or_introl Hbad)) as (e & He)
          end; congruence.
      * destruct (blankText "search" (search p)) as [[|]|e']; [| |discriminate];
          match type of Hq with additionalFilters p ?b = _ =>
            destruct (proj2 (additionalFilters_throws p b) (or_intror Hbad)) as (e & He)
          end; congruence.
      * injection Hq' as <-. congruence.
    + eexists. split; [reflexivity|]. cbn [code json].
      split; [right; split; [reflexivity | eexists; reflexivity]|].
      split; [intros _ | reflexivity].
      right. right. right. exists q, e. split; [reflexivity | exact Hfind].
  - eexists. split; [reflexivity|]. cbn [code json].
    split; [right; split; [reflexivity | eexists; reflexivity]|].
    split; [intros _ | reflexivity].
    rewrite getJobsQuery_result in Hq.
    destruct (blankText "search" (search p)) as [[|]|e'] eqn:Hblank.
    + right. destruct (proj1 (additionalFilters_throws p _) (ex_intro _ e Hq))
        as [Hbad | Hbad]; [left | right; left]; exact Hbad.
    + right. destruct (proj1 (additionalFilters_throws p _) (ex_intro _ e Hq))
        as [Hbad | Hbad]; [left | right; left]; exact Hbad.
    + left. apply (blankText_throws "search"). eexists. exact Hblank.
Qed.

End RouterClaims.

Section SearchFacts.
Import Groq JobsRouter.
Context `{Engine} `{Natural} `{Globals}.

(** [GET /search]: the query and the processed search for a string. *)
Lemma searchJobsQuery_result w p (s : jsstring) :
  search p = Str s ->
  result (searchJobsQuery w p) =
  let searchTerms := List.filter (fun term => (2 <? length term)%nat) (split_ws s) in
  let fast := (<[js "$or" := Arr (fastConditions (Str s) searchTerms)]> (statusQuery p),
               fastIntent (Str s) searchTerms) in
  let found :=
    match result (raceWithTimeout w (Str s)) with
    | Returns processedSearch =>
        match buildEnhancedQuery (Some processedSearch) ∅ with
        | Returns enhancedQuery =>
            (Object_assign (statusQuery p) enhancedQuery, processedSearch)
        | Throws _ => fast
        end
    | Throws _ => fast
    end in
  match additionalFilters p found.1 with
  | Returns query => Returns (query, found.2)
  | Throws e => Throws e
  end.
Proof.
  intros Hs. unfold searchJobsQuery. rewrite Hs. cbv zeta.
  rewrite result_bind, result_try_catch, result_bind.
  destruct (result (raceWithTimeout w (Str s))) as [i|e].
  - rewrite result_bind. change (result (lift ?o)) with o.
    destruct (buildEnhancedQuery (Some i) ∅) as [enh|e]; cbn [result ret snd fst].
    + destruct (additionalFilters p _); reflexivity.
    + cbn. destruct (additionalFilters p _); reflexivity.
  - cbn. destruct (additionalFilters p _); reflexivity.
Qed.

Lemma raceWithTimeout_result w (s : jsstring) :
  result (raceWithTimeout w (Str s)) =
  if GROQ_API_KEY (groqWorld w) && negb (groq_in_time w)
  then Throws (mkError PlainError (js "Groq timeout"))
  else result (processSearchQuery (groqWorld w) (Str s)).
Proof.
  unfold raceWithTimeout.
  destruct (GROQ_API_KEY (groqWorld w) && negb (groq_in_time w)); reflexivity.
Qed.

Lemma searchJobsQuery_throws w p (s : jsstring) :
  search p = Str s ->
  (exists e, result (searchJobsQuery w p) = Throws e) <->
  (truthy (JobsRouter.skills p) = true /\
   (forall s, JobsRouter.skills p <> Str s) /\
   (forall items, JobsRouter.skills p <> Arr items)) \/
  hasPrimitive (minExperience p) = false.
Proof.
  intros Hs. rewrite (searchJobsQuery_result w p s Hs). cbv zeta.
  match goal with |- context [additionalFilters p ?b] =>
    rewrite <- (additionalFilters_throws p b);
    destruct (additionalFilters p b) as [q|e'] end.
  - split; intros [e He]; discriminate He.
  - split; intros _; eexists; reflexivity.
Qed.

(** The links of the response: the look-up always gives a list. *)
Lemma links_result (searchQuery : value) :
  exists links,
    result (try_catch (WebSearch.searchExternalLinksWithAI searchQuery)
                      (fun error => emit EvConsoleError;; ret [])) =
    Returns links.
Proof.
  rewrite result_try_catch. unfold WebSearch.searchExternalLinksWithAI.
  rewrite result_try_catch, result_bind.
  destruct (searchExternalLinks_returns searchQuery (Some 5)) as (t & links & Hl).
  rewrite Hl. cbn. eexists. reflexivity.
Qed.

End SearchFacts.

Section SearchClaims.
Import Groq JobsRouter.
Context `{Engine} `{Natural} `{Globals}.

(** X23. [GET /search] always answers, with 400, 500 or 200.  It answers 400
    exactly when the text is missing, empty or blank, and then nothing
    has been called or logged.  It answers 500 exactly when the text is a
    truthy value that is not a string, or when, for a text that is not
    blank, the skills are neither a string nor an array, the least
    experience has no primitive value to parse, or the store fails.
    Neither a failure nor a time-out of the text-understanding service
    makes it fail. *)
Theorem search_status_codes w p :
  exists r,
    result (searchJobs w p) = Returns r /\
    (code r = 400 \/ code r = 500 \/ code r = 200) /\
    (code r = 400 <->
     truthy (search p) = false \/ exists s, search p = Str s /\ trim s = []) /\
    (code r = 400 -> json r = SearchRequired /\ trace (searchJobs w p) = []) /\
    (code r = 500 <->
     (truthy (search p) = true /\ forall s, search p <> Str s) \/
     (exists s, search p = Str s /\ trim s <> [] /\
        ((truthy (JobsRouter.skills p) = true /\
          (forall s', JobsRouter.skills p <> Str s') /\
          (forall items, JobsRouter.skills p <> Arr items)) \/
         hasPrimitive (minExperience p) = false \/
         (exists found e, result (searchJobsQuery w p) = Returns found /\
                          Job_find w found.1 = Throws e)))).
Proof.
  unfold searchJobs. cbv zeta.
  rewrite result_try_catch, result_bind, trace_try_catch, trace_bind.
  change (result (lift ?o)) with o. change (trace (lift ?o)) with (@nil event).
  destruct (blankText "searchQuery" (search p)) as [[|]|e] eqn:Hblank.
  - (* blank *)
    apply blankText_returns in Hblank.
    eexists. split; [reflexivity|]. cbn [code json].
    split; [left; reflexivity|]. split; [tauto|].
    split; [intros _; split; reflexivity|].
    split; [discriminate|].
    intros [(Ht & Hs) | (s & Hs & Hnb & _)]; exfalso.
    + destruct Hblank as [Hf | (s & Hs' & _)]; [congruence | exact (Hs s Hs')].
    + destruct Hblank as [Hf | (s' & Hs' & Hb)].
      * rewrite Hs in Hf. cbn in Hf. destruct s; [apply Hnb; reflexivity | discriminate Hf].
      * congruence.
  - (* a text *)
    apply blankText_returns in Hblank. destruct Hblank as (s & Hs & Hnb).
    assert (Hnot400 :
              ~ (truthy (search p) = false \/
                 exists s0, search p = Str s0 /\ trim s0 = [])).
    { intros [Hf | (s' & Hs' & Hb)]; [|congruence].
      rewrite Hs in Hf. cbn in Hf. destruct s; [apply Hnb; reflexivity | discriminate Hf]. }
    assert (Hnot500 : ~ (truthy (search p) = true /\ forall s, search p <> Str s)).
    { intros [_ Hn]. exact (Hn s Hs). }
    rewrite result_bind.
    destruct (result (searchJobsQuery w p)) as [found|e] eqn:Hq.
    + rewrite result_bind. change (result (lift ?o)) with o.
      destruct (Job_find w found.1) as [jobs|e] eqn:Hfind.
      * rewrite result_bind.
        destruct (links_result (search p)) as (links & ->).
        eexists. split; [reflexivity|]. cbn [code json].
        split; [right; right; reflexivity|].
        split; [split; [discriminate | intros Hb; destruct (Hnot400 Hb)]|].
        split; [discriminate|].
        split; [discriminate|].
        intros [Hb | (s' & Hs' & _ & [Hbad | [Hbad | (found' & e & Hf' & He)]])].
        -- destruct (Hnot500 Hb).
        -- destruct (proj2 (searchJobsQuery_throws w p s Hs) (or_introl Hbad))
             as (e & He).
           congruence.
        -- destruct (proj2 (searchJobsQuery_throws w p s Hs) (or_intror Hbad))
             as (e & He).
           congruence.
        -- injection Hf' as <-. congruence.
      * eexists. split; [reflexivity|]. cbn [code json].
        split; [right; left; reflexivity|].
        split; [split; [discriminate | intros Hb; destruct (Hnot400 Hb)]|].
        split; [discriminate|].
        split; [intros _ | reflexivity].
        right. exists s. split; [exact Hs|]. split; [exact Hnb|].
        right. right. exists found, e. split; [reflexivity | exact Hfind].
    + eexists. split; [reflexivity|]. cbn [code json].
      split; [right; left; reflexivity|].
      split; [split; [discriminate | intros Hb; destruct (Hnot400 Hb)]|].
      split; [discriminate|].
      split; [intros _ | reflexivity].
      right. exists s. split; [exact Hs|]. split; [exact Hnb|].
      destruct (proj1 (searchJobsQuery_throws w p s Hs) (ex_intro _ e Hq))
        as [Hbad | Hbad]; [left | right; left]; exact Hbad.
  - (* not a string *)
    eexists. split; [reflexivity|]. cbn [code json].
    split; [right; left; reflexivity|].
    assert (Hbad : truthy (search p) = true /\ forall s, search p <> Str s).
    { apply (blankText_throws "searchQuery"). eexists. exact Hblank. }
    destruct Hbad as [Ht Hn].
    split; [split; [discriminate|]|].
    { intros [Hf | (s & Hs & _)]; [congruence | destruct (Hn s Hs)]. }
    split; [discriminate|].
    split; [intros _; left; tauto | reflexivity].
Qed.

(** X24. When the text-understanding service fails, or does not answer within
    the two seconds, [GET /search] still searches: the processed search is
    marked as not AI-derived and keeps the text as typed, and the [$or]
    of the query starts with the three conditions on the whole text.
    After a failure nothing follows them; after a time-out two conditions
    per term longer than two code units follow, when there are at least
    two such terms. *)
Theorem degraded_search_matches_the_text w p (s : jsstring) q i :
  search p = Str s ->
  trim s <> [] ->
  GROQ_API_KEY (groqWorld w) && negb (groq_in_time w) = true \/
  upstreamFailed (groqWorld w) (Str s) ->
  result (searchJobsQuery w p) = Returns (q, i) ->
  truthy (useAI i) = false /\
  originalQuery i = Str s /\ processedQuery i = Str s /\
  exists extra,
    q !! js "$or" = Some (Arr (phraseConditions (Str s) ++ extra)) /\
    length extra =
      if GROQ_API_KEY (groqWorld w) && negb (groq_in_time w)
      then let n := length (List.filter (fun term => (2 <? length term)%nat)
                              (split_ws s)) in
           if (1 <? n)%nat then (2 * n)%nat else 0%nat
      else 0%nat.
Proof.
  intros Hs Hnb Hdegraded. rewrite (searchJobsQuery_result w p s Hs). cbv zeta.
  rewrite raceWithTimeout_result.
  assert (Hne : s <> []). { intros ->. apply Hnb. reflexivity. }
  assert (Hor : forall base found,
            additionalFilters p base = Returns found ->
            found !! js "$or" = base !! js "$or").
  { intros base found Hf.
    apply (additionalFilters_lookup p base found Hf); discriminate. }
  destruct (GROQ_API_KEY (groqWorld w) && negb (groq_in_time w)) eqn:Hrace.
  - cbn [fst snd].
    destruct (additionalFilters p _) as [q'|e] eqn:Hf; [|discriminate].
    intros Hq. injection Hq as <- <-. cbn [fastIntent useAI originalQuery processedQuery truthy].
    repeat split. eexists. split.
    + rewrite (Hor _ _ Hf), lookup_insert_eq. unfold fastConditions. reflexivity.
    + unfold jsstring. match goal with |- context [flat_map _ ?l] => generalize l end.
      intros terms. cbv zeta. destruct (1 <? length terms)%nat; [|reflexivity].
      induction terms as [|term terms IH]; [reflexivity|].
      cbn [flat_map length app]. rewrite IH. lia.
  - destruct Hdegraded as [Hto | Hfail]; [discriminate|].
    destruct (processSearchQuery_failed (groqWorld w) s Hnb Hfail)
      as (extracted & error_ & ->).
    rewrite (direct_intent_query s extracted error_ Hne). cbn [fst snd].
    destruct (additionalFilters p _) as [q'|e] eqn:Hf; [|discriminate].
    intros Hq. injection Hq as <- <-.
    cbn [directSearchIntent useAI originalQuery processedQuery truthy].
    repeat split. exists []. split; [|reflexivity].
    rewrite (Hor _ _ Hf), app_nil_r. unfold Object_assign.
    rewrite lookup_union_l'; [apply lookup_insert_eq|].
    rewrite lookup_insert_eq. eexists. reflexivity.
Qed.

(** X25. [GET /recommended] always answers: with 200 and at most ten jobs,
    or with 500 and the message of the error [getRecommendations]
    threw. *)
Theorem recommended_answers_at_most_ten w userId :
  exists r,
    result (getRecommended w userId) = Returns r /\
    match result (Recommendation.getRecommendations
                    (recommendationWorld w) userId None) with
    | Returns jobs => r = {| code := 200; json := Jobs jobs |} /\
                      (length jobs <= 10)%nat
    | Throws e => r = {| code := 500; json := Message (message e) |}
    end.
Proof.
  unfold getRecommended. rewrite result_try_catch, result_bind.
  pose proof (getRecommendations_result (recommendationWorld w) userId None) as Hr.
  destruct (result (Recommendation.getRecommendations
                      (recommendationWorld w) userId None)) as [jobs|e].
  - eexists. split; [reflexivity|]. split; [reflexivity|].
    destruct (Recommendation.User_findById _ userId) as [[user|]|e]; try discriminate.
    destruct (Recommendation.Job_find_active _) as [[|job jobs']|e]; try discriminate.
    + injection Hr as ->. cbn. lia.
    + destruct (result (Recommendation.rankJobIds _ user (job :: jobs')))
        as [[]|e]; try discriminate.
      injection Hr as ->.
      match goal with |- (length (Array_slice0 ?l ?n) <= _)%nat =>
        pose proof (proj1 (proj2 (slice_length_bounds l n))) as Hle end.
      cbn [default from_option id] in *. unfold id in *. lia.
  - eexists. split; reflexivity.
Qed.

End SearchClaims.

(* ===================================================================== *)
(** ** Examples for the further properties *)
(* ===================================================================== *)

Section MoreRankExamples.
Import Recommendation Samples.
Existing Instances asciiEngine countingNatural.

(** The reply [["j2","zz","j1"]] is followed: [j2] then [j1], the unknown
    id dropped, and nothing scored. *)
Lemma external_ranking_skips_scorer_witness :
  getRecommendations strayIdWorld (js "alice") None =
  ([EvFindUser (js "alice"); EvFindActiveJobs; EvOpenAIRequest],
   Returns (Array_slice0
              (filter_defined
                 (map (fun id => Map_get (jobMapOf [jobA; jobB]) id)
                      [Str (js "j2"); Str (js "zz"); Str (js "j1")]))
              (default 10 None))).
Proof.
  apply (external_ranking_skips_scorer strayIdWorld (js "alice") None alice
           [jobA; jobB] (arrayText [js "j2"; js "zz"; js "j1"])).
  - reflexivity.
  - reflexivity.
  - reflexivity.
  - discriminate.
  - intros job [<- | [<- | []]]; discriminate.
  - reflexivity.
  - vm_compute. reflexivity.
Defined.

End MoreRankExamples.

Section MoreInterpreterExamples.
Import Groq Samples.
Existing Instance asciiEngine.

(** The object of the reply [Sure: {} ok]. *)
Lemma jsonMatch_object_in_prose_witness :
  jsonMatch (js "Sure: " ++ LBRACE :: [] ++ RBRACE :: js " ok") =
  Some (LBRACE :: [] ++ [RBRACE]).
Proof.
  apply (jsonMatch_object_in_prose (js "Sure: ") [] (js " ok"));
    cbv; intuition discriminate.
Defined.

(** The reply [{}] and the same reply in a block tagged [json]. *)
Lemma fenced_reply_same_intent_witness :
  processSearchQuery (groqAnswering (fenced (js "{}"))) (Str (js "python dev")) =
  processSearchQuery (groqAnswering (js "{}")) (Str (js "python dev")).
Proof.
  apply (fenced_reply_same_intent
           (groqAnswering (fenced (js "{}"))) (groqAnswering (js "{}"))
           (js "python dev") (js "json") [10%N] [10%N] [] (Obj [])
           (mkError SyntaxError (js "Unexpected token"))).
  - reflexivity.
  - reflexivity.
  - right. reflexivity.
  - repeat constructor.
  - repeat constructor.
  - reflexivity.
  - reflexivity.
  - vm_compute. reflexivity.
  - vm_compute. reflexivity.
Defined.

(** The number 5 as search text. *)
Lemma processSearchQuery_rejects_non_strings_witness :
  processSearchQuery groqOffline (Num 5) =
  ([EvConsoleError],
   Throws (mkError TypeError (js "text.toLowerCase is not a function"))).
Proof.
  apply (processSearchQuery_rejects_non_strings groqOffline (Num 5)).
  - reflexivity.
  - intros s. discriminate.
Defined.

(** The reply [{}]: every field takes its default. *)
Lemma ai_intent_has_no_empty_field_witness :
  exists i,
    result (processSearchQuery (groqAnswering (js "{}")) (Str (js "python dev"))) =
      Returns i /\
    useAI i = Bool true /\
    processedQuery i = Str (js "python dev") /\
    truthy (keywords i) = true /\
    truthy (intent i) = true.
Proof.
  destruct (ai_intent_has_no_empty_field (groqAnswering (js "{}"))
              (js "python dev") (Obj []))
    as (i & Hr & Hai & _ & _ & Hk & _ & Hi & _ & _).
  - vm_compute. discriminate.
  - reflexivity.
  - vm_compute. reflexivity.
  - discriminate.
  - discriminate.
  - exists i. split; [exact Hr|]. split; [exact Hai|].
    split; [|split; [exact Hk | exact Hi]].
    vm_compute in Hr. inversion Hr. reflexivity.
Defined.

End MoreInterpreterExamples.

Section MoreBuilderExamples.
Import Groq Samples.
Existing Instance asciiEngine.

(** The intent for [senior python developer]: three conditions for the
    phrase, four for the two keywords, one for the title and two for the
    two skills. *)
Lemma ai_query_condition_count_witness :
  exists q,
    buildEnhancedQuery (Some pythonIntent) baseFilters = Returns q /\
    exists conds, q !! js "$or" = Some (Arr conds) /\ length conds = 10%nat.
Proof.
  apply (ai_query_condition_count pythonIntent baseFilters
           [Str (js "python"); Str (js "backend")]
           [Str (js "Python"); Str (js "Django")]).
  - reflexivity.
  - reflexivity.
  - reflexivity.
  - reflexivity.
  - reflexivity.
  - vm_compute. reflexivity.
Defined.

(** Two intents that are not AI-derived and agree on the phrase. *)
Lemma plain_query_uses_only_the_phrase_witness :
  exists q,
    buildEnhancedQuery
      (Some (directSearchIntent (Str (js "python dev")) [js "python"; js "dev"]
               Undefined)) baseFilters = Returns q /\
    buildEnhancedQuery
      (Some (directSearchIntent (Str (js "python dev")) []
               (Str (js "Connection error.")))) baseFilters = Returns q /\
    buildEnhancedQuery
      (Some (directSearchIntent (Str (js "python dev")) [js "python"; js "dev"]
               Undefined)) q = Returns q /\
    (truthy (processedQuery
               (directSearchIntent (Str (js "python dev")) [js "python"; js "dev"]
                  Undefined)) = false ->
     q = baseFilters).
Proof.
  apply (plain_query_uses_only_the_phrase
           (directSearchIntent (Str (js "python dev")) [js "python"; js "dev"]
              Undefined)
           (directSearchIntent (Str (js "python dev")) []
              (Str (js "Connection error.")))
           baseFilters); reflexivity.
Defined.

(** The level [Senior], with a capital, is not one of the four. *)
Lemma unknown_level_adds_no_filter_witness :
  exists q,
    buildEnhancedQuery (Some (levelIntent "Senior")) baseFilters = Returns q /\
    q !! js "experience" = baseFilters !! js "experience".
Proof.
  destruct (buildEnhancedQuery (Some (levelIntent "Senior")) baseFilters)
    as [q|e] eqn:Hq; [|vm_compute in Hq; discriminate].
  exists q. split; [reflexivity|].
  apply (unknown_level_adds_no_filter (levelIntent "Senior") baseFilters q
           (js "Senior")).
  - reflexivity.
  - reflexivity.
  - vm_compute. reflexivity.
  - cbv. intuition discriminate.
  - exact Hq.
Defined.

(** A request that fails, for the text [python dev]. *)
Lemma failed_interpretation_searches_the_phrase_witness :
  exists i,
    result (processSearchQuery groqFailing (Str (js "python dev"))) = Returns i /\
    buildEnhancedQuery (Some i) ∅ =
    Returns (if bool_decide (trim (js "python dev") = []) then ∅
             else <[js "$or" := Arr (phraseConditions (Str (js "python dev")))]> ∅).
Proof.
  apply (failed_interpretation_searches_the_phrase groqFailing (js "python dev")).
  right. left. eexists. reflexivity.
Defined.

End MoreBuilderExamples.

Section PatternExamples.
Import Groq Samples.
Existing Instance richEngine.

(** The skill [C++] is not a valid pattern: no query is built. *)
Lemma ai_query_returns_iff_witness :
  (exists q,
     buildEnhancedQuery
       (Some {| originalQuery := Str (js "jobs"); processedQuery := Str (js "jobs");
                keywords := Arr []; skills := Arr [Str (js "C++")];
                jobTitle := Null; jobLevel := Null;
                intent := Str (js "general"); searchTerms := Arr [];
                useAI := Bool true; error := Undefined |})
       baseFilters = Returns q) <->
  loopable (Arr []) = true /\
  loopable (Arr [Str (js "C++")]) = true /\
  (forall ss, Arr [Str (js "C++")] = Arr ss -> forallb RegExp_compiles ss = true) /\
  hasPrimitive Null = true.
Proof.
  apply (ai_query_returns_iff
           {| originalQuery := Str (js "jobs"); processedQuery := Str (js "jobs");
              keywords := Arr []; skills := Arr [Str (js "C++")];
              jobTitle := Null; jobLevel := Null;
              intent := Str (js "general"); searchTerms := Arr [];
              useAI := Bool true; error := Undefined |} baseFilters).
  - reflexivity.
  - vm_compute. reflexivity.
Defined.

End PatternExamples.

Section ClientExamples.
Import GroqClient.

(** The key changes after the first call, then is unset. *)
Lemma client_keeps_first_key_witness :
  Forall2 (fun env_key returned =>
             returned = match env_key with
                        | None | Some [] => None
                        | Some _ => Some {| apiKey := js "k1" |}
                        end)
          (Some (js "k1") :: [Some (js "k2"); None])
          (calls (Some (js "k1") :: [Some (js "k2"); None]) None).1.
Proof.
  apply (client_keeps_first_key (js "k1") [Some (js "k2"); None]). discriminate.
Defined.

End ClientExamples.

Section EdgeExamples.
Import WebSearch Samples.
Existing Instances asciiEngine plainGlobals.

(** A limit of -2 leaves the last two sites out; a limit of 2 keeps the
    first two; a list as the query logs an error. *)
Example searchExternalLinks_limits :
  (exists links,
     searchExternalLinks (Str (js "python")) (Some (-2)) = ([], Returns links) /\
     map source links = map js ["LinkedIn"; "Indeed"; "Glassdoor"]%string /\
     map title links =
       map js ["python - LinkedIn"; "python - Indeed"; "python - Glassdoor"]%string) /\
  (exists links,
     searchExternalLinks (Str (js "python")) (Some 2) = ([], Returns links) /\
     map source links = map js ["LinkedIn"; "Indeed"]%string) /\
  searchExternalLinks (Arr [Str (js "python")]) None = ([EvConsoleError], Returns []).
Proof.
  split; [|split].
  - eexists. split; [vm_compute; reflexivity|]. split; reflexivity.
  - eexists. split; [vm_compute; reflexivity|]. reflexivity.
  - vm_compute. reflexivity.
Qed.

(** An intent whose level is an object with a [toString] property of its
    own cannot be used as a key: no query is built. *)
Example level_without_primitive_throws :
  Groq.buildEnhancedQuery
    (Some {| Groq.originalQuery := Str (js "jobs");
             Groq.processedQuery := Str (js "jobs");
             Groq.keywords := Arr []; Groq.skills := Arr [];
             Groq.jobTitle := Null;
             Groq.jobLevel := Obj [(js "toString", Num 1)];
             Groq.intent := Str (js "general"); Groq.searchTerms := Arr [];
             Groq.useAI := Bool true; Groq.error := Undefined |})
    baseFilters = Throws noPrimitive.
Proof. vm_compute. reflexivity. Qed.

(** A sign-up whose e-mail address is such an object makes the
    validation throw. *)
Example email_without_primitive_throws :
  Validation.validateUserInput
    {| Validation.name := Str (js "Alice");
       Validation.email := Obj [(js "toString", Num 1)];
       Validation.password := Str (js "secret1") |} = Throws noPrimitive.
Proof. vm_compute. reflexivity. Qed.

End EdgeExamples.

Section RouterExamples.
Import Groq JobsRouter Samples.
Existing Instances asciiEngine countingNatural plainGlobals.

(** [?search=python dev&minExperience=3] while the service is down. *)
Lemma listing_query_filters_witness :
  exists q,
    result (getJobsQuery (routerWorld groqFailing true) (searchFor "python dev")) =
      Returns q /\
    q !! js "status" = Some (Str (js "active")) /\
    q !! js "location" = None /\
    q !! js "experience" = Some (Obj [(js "$lte", Num 3)]).
Proof.
  destruct (result (getJobsQuery (routerWorld groqFailing true)
                      (searchFor "python dev"))) as [q|e] eqn:Hq;
    [|vm_compute in Hq; discriminate].
  exists q. split; [reflexivity|].
  destruct (listing_query_filters (routerWorld groqFailing true)
              (searchFor "python dev") q Hq) as (Hstatus & Hloc & Hexp & _).
  split; [exact Hstatus|]. split; [exact Hloc|]. apply Hexp. reflexivity.
Defined.

(** [?search=python&minExperience[toString]=1]: the least experience
    cannot be parsed, and both handlers answer 500. *)
Example unparsable_experience_fails :
  let p := {| search := Str (js "python"); location := Undefined;
              JobsRouter.skills := Undefined;
              minExperience := Obj [(js "toString", Str (js "1"))];
              status := Undefined |} in
  (exists text, result (getJobs (routerWorld groqFailing true) p) =
                Returns {| code := 500; json := Message text |}) /\
  (exists text, result (searchJobs (routerWorld groqFailing true) p) =
                Returns {| code := 500; json := Message text |}).
Proof. split; eexists; vm_compute; reflexivity. Qed.

(** [?q=python dev] while the service does not answer in time. *)
Lemma degraded_search_matches_the_text_witness :
  exists q i extra,
    result (searchJobsQuery (routerWorld (groqAnswering (js "{}")) false)
              (searchFor "python dev")) = Returns (q, i) /\
    truthy (useAI i) = false /\
    q !! js "$or" = Some (Arr (phraseConditions (Str (js "python dev")) ++ extra)) /\
    length extra = 4%nat.
Proof.
  destruct (result (searchJobsQuery (routerWorld (groqAnswering (js "{}")) false)
                      (searchFor "python dev"))) as [[q i]|e] eqn:Hq;
    [|vm_compute in Hq; discriminate].
  destruct (degraded_search_matches_the_text
              (routerWorld (groqAnswering (js "{}")) false)
              (searchFor "python dev") (js "python dev") q i)
    as (Hai & _ & _ & extra & Hor & Hlen).
  - reflexivity.
  - vm_compute. discriminate.
  - left. reflexivity.
  - exact Hq.
  - exists q, i, extra. split; [reflexivity|]. split; [exact Hai|].
    split; [exact Hor | exact Hlen].
Defined.

End RouterExamples.

(* ===================================================================== *)
(** ** resumeParser *)
(* ===================================================================== *)

Section FrequencyFacts.
Import ResumeParser.

Lemma Set_new_snoc l x : Set_new (l ++ [x]) = Set_add (Set_new l) x.
Proof. unfold Set_new. rewrite foldl_app. reflexivity. Qed.

Lemma In_Set_new x l : In x (Set_new l) <-> In x l.
Proof. rewrite Set_new_dedup. apply In_spec_dedup. Qed.

Lemma NoDup_Set_new l : List.NoDup (Set_new l).
Proof. rewrite Set_new_dedup. apply NoDup_spec_dedup. Qed.

(** The keys of the frequency object are the distinct words, in the
    order of their first occurrence. *)
Lemma count_word_keys wordFreq word :
  map fst (count_word wordFreq word) = Set_add (map fst wordFreq) word.
Proof.
  unfold Set_add, Set_has.
  induction wordFreq as [|[key count] rest IH]; cbn [count_word map fst].
  - rewrite bool_decide_eq_false_2; [reflexivity | apply not_elem_of_nil].
  - destruct (decide (key = word)) as [->|Hkey].
    + rewrite (bool_decide_eq_true_2 (word = word)) by reflexivity.
      rewrite bool_decide_eq_true_2 by apply list_elem_of_here.
      reflexivity.
    + rewrite (bool_decide_eq_false_2 (key = word)) by exact Hkey.
      cbn [map fst]. rewrite IH.
      destruct (decide (word ∈ map fst rest)) as [Hin|Hin].
      * rewrite (bool_decide_eq_true_2 (word ∈ map fst rest)) by exact Hin.
        rewrite (bool_decide_eq_true_2 (word ∈ key :: map fst rest))
          by (apply list_elem_of_further; exact Hin).
        reflexivity.
      * rewrite (bool_decide_eq_false_2 (word ∈ map fst rest)) by exact Hin.
        rewrite (bool_decide_eq_false_2 (word ∈ key :: map fst rest)); [reflexivity|].
        intros Hin'. apply elem_of_cons in Hin' as [->|Hin']; [congruence | tauto].
Qed.

Lemma wordFreq_keys_from acc words :
  map fst (foldl count_word acc words) = foldl Set_add (map fst acc) words.
Proof.
  revert acc. induction words as [|word words IH]; intros acc; [reflexivity|].
  cbn [foldl]. rewrite IH, count_word_keys. reflexivity.
Qed.

Lemma wordFreq_keys words : map fst (foldl count_word [] words) = Set_new words.
Proof. apply wordFreq_keys_from. Qed.

Lemma occurrences_snoc words x word :
  occurrences (words ++ [x]) word =
  (occurrences words word + if bool_decide (x = word) then 1 else 0)%nat.
Proof.
  unfold occurrences. rewrite List.filter_app, length_app. cbn [List.filter].
  destruct (bool_decide (x = word)); reflexivity.
Qed.

Lemma occurrences_absent words word :
  ~ In word words -> occurrences words word = 0%nat.
Proof.
  unfold occurrences. induction words as [|w words IH]; [reflexivity|].
  intros Hin. cbn [List.filter]. rewrite bool_decide_eq_false_2.
  - apply IH. intros Hw. apply Hin. right. exact Hw.
  - intros ->. apply Hin. left. reflexivity.
Qed.

(** Counting one more word in an object whose keys are distinct. *)
Lemma count_word_distinct (count : jsstring -> option nat) keys word :
  List.NoDup keys ->
  count_word (map (fun key => (key, count key)) keys) word =
  if bool_decide (word ∈ keys)
  then map (fun key => (key, if bool_decide (key = word)
                             then S <$> count key else count key)) keys
  else map (fun key => (key, count key)) keys ++
       [(word, if bool_decide (word ∈ Groq.objectPrototypeMembers)
               then None else Some 1%nat)].
Proof.
  induction 1 as [|key keys Hkey Hnd IH]; cbn [count_word map].
  - rewrite (bool_decide_eq_false_2 (word ∈ [])); [reflexivity | apply not_elem_of_nil].
  - destruct (decide (key = word)) as [->|Hk].
    + rewrite !(bool_decide_eq_true_2 (word = word)) by reflexivity.
      rewrite bool_decide_eq_true_2 by apply list_elem_of_here.
      f_equal. apply map_ext_in. intros k Hin.
      rewrite bool_decide_eq_false_2; [reflexivity|].
      intros ->. exact (Hkey Hin).
    + rewrite (bool_decide_eq_false_2 (key = word)) by exact Hk.
      rewrite IH. destruct (decide (word ∈ keys)) as [Hin|Hin].
      * rewrite (bool_decide_eq_true_2 (word ∈ keys)) by exact Hin.
        rewrite (bool_decide_eq_true_2 (word ∈ key :: keys))
          by (apply list_elem_of_further; exact Hin).
        reflexivity.
      * rewrite (bool_decide_eq_false_2 (word ∈ keys)) by exact Hin.
        rewrite (bool_decide_eq_false_2 (word ∈ key :: keys)); [reflexivity|].
        intros Hin'. apply elem_of_cons in Hin' as [->|Hin']; [congruence | tauto].
Qed.

(** Without a word that names a member of [Object.prototype], the
    frequency object holds, for every distinct word in the order of the
    first occurrences, its number of occurrences. *)
Lemma wordFreq_counts words :
  Forall (fun word => ~ In word Groq.objectPrototypeMembers) words ->
  foldl count_word [] words =
  map (fun word => (word, Some (occurrences words word))) (Set_new words).
Proof.
  induction words as [|x words IH] using rev_ind; [reflexivity|].
  intros Hall. apply Forall_app in Hall as [Hwords Hx].
  apply Forall_inv in Hx.
  rewrite foldl_app, Set_new_snoc. cbn [foldl]. rewrite (IH Hwords).
  rewrite (count_word_distinct _ _ _ (NoDup_Set_new words)).
  unfold Set_add, Set_has.
  destruct (decide (x ∈ Set_new words)) as [Hin|Hin].
  - rewrite !(bool_decide_eq_true_2 (x ∈ Set_new words)) by exact Hin.
    apply map_ext. intros k. rewrite occurrences_snoc.
    rewrite (bool_decide_ext (k = x) (x = k)) by (split; congruence).
    destruct (bool_decide (x = k)); cbn; repeat f_equal; lia.
  - rewrite !(bool_decide_eq_false_2 (x ∈ Set_new words)) by exact Hin.
    rewrite bool_decide_eq_false_2
      by (intros Hp; apply Hx, list_elem_of_In; exact Hp).
    rewrite map_app. cbn [map]. f_equal.
    + apply map_ext_in. intros k Hk. rewrite occurrences_snoc.
      rewrite bool_decide_eq_false_2; [repeat f_equal; lia|].
      intros ->. apply Hin, list_elem_of_In. exact Hk.
    + rewrite occurrences_snoc, bool_decide_eq_true_2 by reflexivity.
      rewrite occurrences_absent; [reflexivity|].
      intros Hw. apply Hin, list_elem_of_In, In_Set_new. exact Hw.
Qed.

Lemma slice_map {A B} (f : A -> B) l end_ :
  map f (Array_slice0 l end_) = Array_slice0 (map f l) end_.
Proof. unfold Array_slice0. rewrite length_map, firstn_map. reflexivity. Qed.

Lemma StronglySorted_app_front {A} (R : A -> A -> Prop) l1 l2 :
  StronglySorted R (l1 ++ l2) ->
  StronglySorted R l1 /\ forall a b, In a l1 -> In b l2 -> R a b.
Proof.
  induction l1 as [|x l1 IH]; cbn [app].
  - intros _. split; [constructor | intros a b []].
  - intros Hs. apply StronglySorted_inv in Hs as [Hs Hx].
    destruct (IH Hs) as [Hs1 Hcross]. apply Forall_app in Hx as [Hx1 Hx2].
    split; [constructor; assumption|].
    intros a b [<-|Ha] Hb; [|exact (Hcross a b Ha Hb)].
    rewrite Forall_forall in Hx2. apply Hx2, list_elem_of_In. exact Hb.
Qed.

(** The slice of a sorted array is sorted, and what it leaves out comes
    after all of it. *)
Lemma slice_sorted {A} (R : A -> A -> Prop) l end_ :
  StronglySorted R l ->
  StronglySorted R (Array_slice0 l end_) /\
  forall a b, In a (Array_slice0 l end_) -> In b l ->
              ~ In b (Array_slice0 l end_) -> R a b.
Proof.
  unfold Array_slice0. cbv zeta.
  generalize (Z.to_nat (if end_ <? 0 then Z.max (Z.of_nat (length l) + end_) 0
                        else Z.min end_ (Z.of_nat (length l)))).
  intros n Hs. rewrite <- (firstn_skipn n l) in Hs at 1.
  destruct (StronglySorted_app_front _ _ _ Hs) as [Hfront Hcross].
  split; [exact Hfront|]. intros a b Ha Hb Hnb. apply Hcross; [exact Ha|].
  rewrite <- (firstn_skipn n l) in Hb. apply in_app_or in Hb as [Hb|Hb];
    [contradiction | exact Hb].
Qed.

End FrequencyFacts.

Section ResumeClaims.
Import Regex ResumeParser.
Context `{Engine} `{Natural}.

(** What a kept token is. *)
Lemma keptTokens_In w tokens word :
  In word (keptTokens w tokens) ->
  In word tokens /\ (3 < length word)%nat /\
  Forall (fun c => isAlpha c = true) word /\ ~ In word (stopwords w).
Proof.
  unfold keptTokens. intros Hin.
  destruct (slice_prefix
              (List.filter (fun token => test alphabetic token)
                 (List.filter (fun token => (3 <? length token)%nat &&
                                  negb (Set_has (Set_new (stopwords w)) token))
                    tokens)) 50) as (rest & Hrest).
  assert (Hin' : In word
            (List.filter (fun token => test alphabetic token)
               (List.filter (fun token => (3 <? length token)%nat &&
                                negb (Set_has (Set_new (stopwords w)) token))
                  tokens))).
  { rewrite Hrest. apply in_or_app. left. exact Hin. }
  apply filter_In in Hin' as [Hin' Halpha].
  apply filter_In in Hin' as [Htoken Hkeep].
  apply andb_true_iff in Hkeep as [Hlen Hstop].
  split; [exact Htoken|]. split; [apply Nat.ltb_lt; exact Hlen|]. split.
  - apply test_matches, matches_plus_class in Halpha as [_ Hall].
    apply Forall_forall. intros c Hc. rewrite forallb_forall in Hall.
    apply Hall, list_elem_of_In. exact Hc.
  - intros Hw. apply negb_true_iff in Hstop. unfold Set_has in Hstop.
    apply bool_decide_eq_false in Hstop. apply Hstop, list_elem_of_In, In_Set_new.
    exact Hw.
Qed.

(** X26. [extractKeywordsFromResume] never throws: a failure is logged once
    and gives no keyword.  It returns at most twenty keywords, pairwise
    distinct, each longer than three code units, made of the letters
    [A-Z] and [a-z] only, and no stop word; and none at all unless the
    type is [application/pdf]. *)
Theorem resume_keywords_invariants w mimeType :
  exists t keywords,
    extractKeywordsFromResume w mimeType = (t, Returns keywords) /\
    (t = [] \/ t = [EvConsoleError] /\ keywords = []) /\
    (length keywords <= 20)%nat /\
    List.NoDup keywords /\
    Forall (fun keyword =>
              (3 < length keyword)%nat /\
              Forall (fun c => isAlpha c = true) keyword /\
              ~ In keyword (stopwords w))
           keywords /\
    (keywords <> [] -> mimeType = Str (js "application/pdf")).
Proof.
  assert (Hnil : forall t, (t = [] \/ t = [EvConsoleError]) ->
    exists t' keywords,
      (t, @Returns (list jsstring) []) = (t', Returns keywords) /\
      (t' = [] \/ t' = [EvConsoleError] /\ keywords = []) /\
      (length keywords <= 20)%nat /\
      List.NoDup keywords /\
      Forall (fun keyword =>
                (3 < length keyword)%nat /\
                Forall (fun c => isAlpha c = true) keyword /\
                ~ In keyword (stopwords w))
             keywords /\
      (keywords <> [] -> mimeType = Str (js "application/pdf"))).
  { intros t Ht. exists t, []. split; [reflexivity|]. split; [tauto|].
    split; [cbn; lia|]. split; [constructor|]. split; [constructor|].
    intros Hne. exfalso. apply Hne. reflexivity. }
  unfold extractKeywordsFromResume.
  destruct mimeType as [| |b|q|type|items|props|pattern flags|n];
    try (apply Hnil; right; reflexivity); try (apply Hnil; left; reflexivity).
  destruct (decide (type = js "application/pdf")) as [->|Htype].
  2:{ rewrite bool_decide_eq_false_2 by exact Htype. apply Hnil. left. reflexivity. }
  rewrite bool_decide_eq_true_2 by reflexivity.
  destruct (pdfParse_text w) as [text|e]; [|apply Hnil; right; reflexivity].
  unfold bind at 1, lift at 1, try_catch.
  destruct (truthy text) eqn:Ht; cbn [negb]; [|apply Hnil; left; reflexivity].
  destruct text as [| |b|q|text|items|props|pattern flags|n];
    try (apply Hnil; right; reflexivity); try discriminate Ht.
  destruct (WordTokenizer_tokenize (toLowerCase text)) as [tokens|];
    [|apply Hnil; left; reflexivity].
  destruct (length tokens =? 0)%nat; [apply Hnil; left; reflexivity|].
  cbn [ret app]. eexists [], _. split; [reflexivity|]. split; [left; reflexivity|].
  set (kept := keptTokens w tokens).
  set (sorted := Array_sort byFrequency (foldl count_word [] kept)).
  assert (Hperm : Permutation (map fst sorted) (Set_new kept)).
  { unfold sorted. rewrite <- wordFreq_keys.
    apply Permutation_map, Array_sort_perm. }
  rewrite slice_map.
  destruct (slice_length_bounds (map fst sorted) 20) as (_ & Hlen & _).
  destruct (slice_prefix (map fst sorted) 20) as (rest & Hrest).
  split; [lia|]. split; [|split; [|intros _; reflexivity]].
  - apply (NoDup_app_remove_r _ rest). rewrite <- Hrest.
    eapply Permutation_NoDup; [symmetry; exact Hperm | apply NoDup_Set_new].
  - apply Forall_forall. intros keyword Hk. apply list_elem_of_In in Hk.
    assert (Hin : In keyword kept).
    { apply In_Set_new. eapply Permutation_in; [exact Hperm|].
      rewrite Hrest. apply in_or_app. left. exact Hk. }
    destruct (keptTokens_In w tokens keyword Hin) as (_ & Hlen' & Halpha & Hstop).
    tauto.
Qed.

(** The run on a PDF whose text is not empty and tokenizes. *)
Lemma resume_run w (text : jsstring) tokens :
  pdfParse_text w = Returns (Str text) ->
  text <> [] ->
  WordTokenizer_tokenize (toLowerCase text) = Some tokens ->
  result (extractKeywordsFromResume w (Str (js "application/pdf"))) =
  Returns (map fst (Array_slice0
                      (Array_sort byFrequency
                         (foldl count_word [] (keptTokens w tokens))) 20)).
Proof.
  intros Hpdf Htext Htokens. unfold extractKeywordsFromResume.
  rewrite bool_decide_eq_true_2 by reflexivity. rewrite Hpdf.
  unfold bind at 1, lift at 1, try_catch. cbn [truthy negb].
  rewrite bool_decide_eq_false_2 by exact Htext. cbn [negb]. rewrite Htokens.
  destruct tokens as [|token tokens]; reflexivity.
Qed.

(** X27. When no counted token names a member of [Object.prototype], the
    keywords of a PDF are the distinct counted tokens in the order of
    their first occurrence, stably sorted by decreasing number of
    occurrences among the counted tokens, cut to twenty: each keyword
    occurs at least as often as the next, and as often as any counted
    token that is left out. *)
Theorem resume_keywords_by_frequency w (text : jsstring) tokens :
  pdfParse_text w = Returns (Str text) ->
  text <> [] ->
  WordTokenizer_tokenize (toLowerCase text) = Some tokens ->
  Forall (fun token => ~ In token Groq.objectPrototypeMembers)
         (keptTokens w tokens) ->
  exists keywords,
    result (extractKeywordsFromResume w (Str (js "application/pdf"))) =
      Returns keywords /\
    keywords =
      Array_slice0
        (Array_sort
           (fun a b =>
              (inject_Z (Z.of_nat (occurrences (keptTokens w tokens) b)) -
               inject_Z (Z.of_nat (occurrences (keptTokens w tokens) a)))%Q)
           (Set_new (keptTokens w tokens)))
        20 /\
    StronglySorted
      (fun a b => (occurrences (keptTokens w tokens) b <=
                   occurrences (keptTokens w tokens) a)%nat)
      keywords /\
    (forall keyword word,
       In keyword keywords -> In word (keptTokens w tokens) ->
       ~ In word keywords ->
       (occurrences (keptTokens w tokens) word <=
        occurrences (keptTokens w tokens) keyword)%nat).
Proof.
  intros Hpdf Htext Htokens Hproto.
  pose proof (resume_run w text tokens Hpdf Htext Htokens) as Hrun.
  set (kept := keptTokens w tokens) in *.
  set (count := fun word => inject_Z (Z.of_nat (occurrences kept word))).
  rewrite (wordFreq_counts kept Hproto), slice_map in Hrun.
  rewrite (Array_sort_map (fun word => (word, Some (occurrences kept word)))
             (fun a b => (count b - count a)%Q) byFrequency) in Hrun
    by reflexivity.
  rewrite map_map in Hrun. cbn [fst] in Hrun. rewrite map_id in Hrun.
  eexists. split; [exact Hrun|]. split; [reflexivity|].
  assert (Hsorted : StronglySorted
                      (fun a b => (occurrences kept b <= occurrences kept a)%nat)
                      (Array_sort (fun a b => (count b - count a)%Q) (Set_new kept))).
  { eapply StronglySorted_weaken; [|apply (Array_sort_sorted count)].
    intros a b Hab. unfold count in Hab. cbv beta in Hab.
    rewrite <- Zle_Qle in Hab. lia. }
  destruct (slice_sorted _ _ 20 Hsorted) as [Hfront Hcross].
  split; [exact Hfront|].
  intros keyword word Hk Hw Hnot. apply Hcross; [exact Hk | | exact Hnot].
  eapply Permutation_in; [symmetry; apply Array_sort_perm|].
  apply In_Set_new. exact Hw.
Qed.

End ResumeClaims.

Section ResumeExamples.
Import ResumeParser Samples.
Existing Instances asciiEngine countingNatural.

(** A resume that says [python] three times, [django] twice, and
    [developer] and [more] once. *)
Lemma resume_keywords_by_frequency_witness :
  result (extractKeywordsFromResume resumeWorld (Str (js "application/pdf"))) =
  Returns [js "python"; js "django"; js "developer"; js "more"].
Proof.
  destruct (resume_keywords_by_frequency resumeWorld
              (js "Python developer with Django; python and more Python, about Django")
              (map js ["python"; "developer"; "with"; "django"; "python"; "and";
                       "more"; "python"; "about"; "django"]%string))
    as (keywords & Hrun & Hkeywords & _).
  - reflexivity.
  - discriminate.
  - vm_compute. reflexivity.
  - vm_compute. repeat constructor; intuition discriminate.
  - rewrite Hrun, Hkeywords. vm_compute. reflexivity.
Defined.

End ResumeExamples.
